(** * QM9 data preparation: the notebook's parser, descriptor counts and tokenizer

    A shallow embedding of [notebooks/qm9_data_prep.ipynb]:
    [parse_float], [count_rings_and_bonds], [parse_xyz], the parsing loop
    over the directory of structure files, and [smi_tokenizer].

    Python values are modelled as follows.
    - [str]: [string], read as a sequence of code points below 256 (every
      character the pattern of the tokenizer names is ASCII, and whitespace is
      [str.isspace] on that range; a character beyond it has no counterpart
      here); [int]: [Z]; [float]: the binary64 [float] of [PrimFloat],
      multiplied with [PrimFloat.mul].
    - [dict]: stdpp's [gmap]; the result row of [parse_xyz] is a
      [gmap string Value].
    - A file: the list of its lines, as iterating over it yields them.
      Opening a file by name and decoding it are the [Files] parameter:
      [open] raises, or gives the lines that the iteration yields and the
      exception, if any, that ends the iteration before the end of the file.
    - A raised exception: the [Raise] case of [result], with the exception
      class as an [exn].
    - What the interpreter and the chemistry toolkit provide ([int], [float],
      [10 ** x], the RDKit calls) is taken as a parameter: [Builtins] and
      [Toolkit]. A concrete instance of each, on a small domain, serves the
      examples. *)

From Stdlib Require Import ZArith String Ascii List Uint63 Floats Lia.
From stdpp Require Import base option list strings pretty gmap fin_maps.

Open Scope Z_scope.

(** ** Exceptions *)

Inductive exn : Type :=
| AssertionError
| ValueError
| IndexError
| NameError
| OverflowError
| ToolkitError
| FileNotFoundError
| UnicodeDecodeError.

Inductive result (A : Type) : Type :=
| Ok (a : A)
| Raise (e : exn).
Arguments Ok {A} a.
Arguments Raise {A} e.

Global Instance result_ret : MRet result := λ A a, Ok a.
Global Instance result_bind : MBind result := λ A B f m,
  match m with
  | Ok a => f a
  | Raise e => Raise e
  end.
Global Instance result_fmap : FMap result := λ A B f m,
  match m with
  | Ok a => Ok (f a)
  | Raise e => Raise e
  end.

(** [or_raise o e]: the value of [o], or exception [e] when there is none. *)
Definition or_raise {A} (o : option A) (e : exn) : result A :=
  match o with
  | Some a => Ok a
  | None => Raise e
  end.

(** Whether a computation returned, and the exception it raised if not. *)
Definition is_Ok {A} (r : result A) : bool :=
  match r with
  | Ok _ => true
  | Raise _ => false
  end.
Definition raised {A} (r : result A) : option exn :=
  match r with
  | Ok _ => None
  | Raise e => Some e
  end.

(** A list comprehension [[f(i) for i in l]] whose body may raise. *)
Fixpoint comprehension {A B} (f : A → result B) (l : list A) : result (list B) :=
  match l with
  | [] => Ok []
  | a :: l' => b ← f a; bs ← comprehension f l'; Ok (b :: bs)
  end.

(** ** Strings *)

(** [''.join(tokens)] and [sep.join(tokens)]. *)
Definition join (sep : string) (tokens : list string) : string :=
  String.concat sep tokens.

(** The first [n] characters of [s]. *)
Fixpoint str_take (n : nat) (s : string) : string :=
  match n, s with
  | S n', String c s' => String c (str_take n' s')
  | _, _ => ""
  end.

(** [str.isspace] on the code points below 256: tab to carriage return, the
    four separators 0x1c..0x1f, the space, next line (0x85) and the no-break
    space (0xa0). *)
Definition py_isspace (c : ascii) : bool :=
  let n := nat_of_ascii c in
  ((9 <=? n) && (n <=? 13) || (28 <=? n) && (n <=? 32)
   || (n =? 133) || (n =? 160))%nat.

(** [s.split()]: the maximal runs of non-whitespace characters. *)
Fixpoint split_ws_go (cur : option string) (s : string) : list string :=
  match s with
  | "" => match cur with Some w => [String.rev w] | None => [] end
  | String c s' =>
      if py_isspace c
      then match cur with
           | Some w => String.rev w :: split_ws_go None s'
           | None => split_ws_go None s'
           end
      else split_ws_go (Some (String c (default "" cur))) s'
  end.
Definition split_ws (s : string) : list string := split_ws_go None s.

(** [s.split(sep)] for a non-empty [sep]: cut at each occurrence of [sep],
    scanning from the left; [skip] counts the characters of a separator just
    found that are still to be passed over. *)
Fixpoint split_on_go (sep : string) (skip : nat) (cur : string) (s : string)
  : list string :=
  match s with
  | "" => [String.rev cur]
  | String c s' =>
      match skip with
      | S skip' => split_on_go sep skip' cur s'
      | O =>
          if String.prefix sep s
          then String.rev cur :: split_on_go sep (String.length sep - 1)%nat "" s'
          else split_on_go sep 0%nat (String c cur) s'
      end
  end.
Definition split_on (sep s : string) : list string := split_on_go sep 0%nat "" s.

(** ** The tokenizer's regular expression *)

(** The fragment of Python's [re] syntax the pattern uses. Matching is
    backtracking: alternatives are tried left to right, [?] and [+] are
    greedy. *)
Inductive re : Type :=
| Chr (c : ascii)
| Cls (p : ascii → bool)
| Seq (r1 r2 : re)
| Alt (r1 r2 : re)
| Opt (r : re)
| Plus (p : ascii → bool).

(** [[class]+] at [s]: take one character of the class, then as many more as
    possible, giving characters back until the continuation [k] succeeds. *)
Fixpoint plus_cls (p : ascii → bool) (s : string) (k : string → option string)
  : option string :=
  match s with
  | "" => None
  | String c s' =>
      if p c
      then match plus_cls p s' k with
           | Some r => Some r
           | None => k s'
           end
      else None
  end.

(** [rmatch r s k]: match [r] at the start of [s], then [k] on what is left;
    the first success in priority order. *)
Fixpoint rmatch (r : re) (s : string) (k : string → option string)
  : option string :=
  match r with
  | Chr c =>
      match s with
      | String c' s' => if Ascii.eqb c' c then k s' else None
      | "" => None
      end
  | Cls p =>
      match s with
      | String c' s' => if p c' then k s' else None
      | "" => None
      end
  | Seq r1 r2 => rmatch r1 s (λ s', rmatch r2 s' k)
  | Alt r1 r2 =>
      match rmatch r1 s k with
      | Some rest => Some rest
      | None => rmatch r2 s k
      end
  | Opt r' =>
      match rmatch r' s k with
      | Some rest => Some rest
      | None => k s
      end
  | Plus p => plus_cls p s k
  end.

Fixpoint alts (r : re) (rs : list re) : re :=
  match rs with
  | [] => r
  | r' :: rs' => Alt r (alts r' rs')
  end.

Definition is_digit (c : ascii) : bool :=
  let n := nat_of_ascii c in ((48 <=? n) && (n <=? 57))%nat.
Definition not_close_bracket (c : ascii) : bool := negb (Ascii.eqb c "]").

(** The pattern of [smi_tokenizer], alternative by alternative:
    [\[[^\]]+]], [Br?], [Cl?], the one-character tokens, [\%[0-9]{2}] and
    [[0-9]]. The single group spans the whole pattern. *)
Definition pattern : re :=
  alts (Seq (Chr "[") (Seq (Plus not_close_bracket) (Chr "]")))
    [ Seq (Chr "B") (Opt (Chr "r"));
      Seq (Chr "C") (Opt (Chr "l"));
      Chr "N"; Chr "O"; Chr "S"; Chr "P"; Chr "F"; Chr "I";
      Chr "b"; Chr "c"; Chr "n"; Chr "o"; Chr "s"; Chr "p";
      Chr "("; Chr ")"; Chr "."; Chr "="; Chr "#"; Chr "-"; Chr "+";
      Chr "\"; Chr "/"; Chr ":"; Chr "~"; Chr "@"; Chr "?"; Chr ">";
      Chr "*"; Chr "$";
      Seq (Chr "%") (Seq (Cls is_digit) (Cls is_digit));
      Cls is_digit ]%char.

(** [regex.match] at the start of [s]: the matched text and the rest. *)
Definition match_at (s : string) : option (string * string) :=
  match rmatch pattern s Some with
  | Some rest => Some (str_take (String.length s - String.length rest)%nat s, rest)
  | None => None
  end.

(** [regex.findall(s)]: scan left to right; where the pattern matches, keep
    the group and go on after the match, otherwise move one character on.
    [fuel] bounds the number of scanning steps. *)
Fixpoint findall_go (fuel : nat) (s : string) : list string :=
  match fuel with
  | O => []
  | S fuel' =>
      match s with
      | "" => []
      | String _ s' =>
          match match_at s with
          | Some (tok, rest) => tok :: findall_go fuel' rest
          | None => findall_go fuel' s'
          end
      end
  end.
Definition findall (s : string) : list string :=
  findall_go (String.length s) s.

(** [smi_tokenizer]: the tokens, or [AssertionError] when joining them does
    not give the input back. *)
Definition smi_tokenizer (smi : string) : result (list string) :=
  let tokens := findall smi in
  if String.eqb smi (join "" tokens) then Ok tokens else Raise AssertionError.

(** *** The supported grammar *)

(** The token classes of the grammar, written out: a bracketed atom is [[],
    one or more characters other than []], and []]; the halogens and the
    organic-subset atoms (aliphatic and aromatic); bond, branch, stereo,
    charge and the remaining single-character symbols; a ring-closure digit;
    a two-digit ring closure after [%]. *)
Fixpoint bracket_body (s : string) : bool :=
  match s with
  | String c s' => not_close_bracket c && (String.eqb s' "]" || bracket_body s')
  | "" => false
  end.

Definition is_bracket_atom (t : string) : bool :=
  match t with
  | String "[" s => bracket_body s
  | _ => false
  end.

Definition halogens : list string := ["F"; "Cl"; "Br"; "I"].
Definition organic_atoms : list string :=
  ["B"; "C"; "N"; "O"; "S"; "P"; "b"; "c"; "n"; "o"; "s"; "p"].
Definition bond_symbols : list string :=
  ["="; "#"; "-"; "\"; "/"; ":"; "~"; "$"; "."].
Definition branch_symbols : list string := ["("; ")"].
Definition stereo_charge_symbols : list string := ["@"; "+"; "?"; ">"; "*"].

Definition is_symbol_token (t : string) : bool :=
  bool_decide (t ∈ (halogens ++ organic_atoms ++ bond_symbols
                    ++ branch_symbols ++ stereo_charge_symbols)).

Definition is_ring_digit (t : string) : bool :=
  match t with
  | String d "" => is_digit d
  | _ => false
  end.

Definition is_ring_percent (t : string) : bool :=
  match t with
  | String "%" (String d1 (String d2 "")) => is_digit d1 && is_digit d2
  | _ => false
  end.

Definition smiles_token (t : string) : bool :=
  is_bracket_atom t || is_symbol_token t || is_ring_digit t
  || is_ring_percent t.

(** A string over the supported grammar: a concatenation of tokens. *)
Definition in_grammar (s : string) : Prop :=
  ∃ tokens, Forall (λ t, smiles_token t = true) tokens ∧ s = join "" tokens.

(** Whether every match of [r] takes at least one character. *)
Fixpoint consumes (r : re) : bool :=
  match r with
  | Chr _ | Cls _ | Plus _ => true
  | Seq r1 r2 => consumes r1 || consumes r2
  | Alt r1 r2 => consumes r1 && consumes r2
  | Opt _ => false
  end.

(** Whether [s] starts with a character that would extend [B] to [Br] or
    [C] to [Cl]. *)
Definition starts_with_r_or_l (s : string) : bool :=
  match s with
  | String c _ => Ascii.eqb c "r" || Ascii.eqb c "l"
  | "" => false
  end.

(** ** Interpreter built-ins *)

(** The built-ins the notebook calls on strings and floats. [None] stands for
    the exception the built-in raises: [ValueError] for [int(s)] and
    [float(s)], [OverflowError] for [10 ** x]. *)
Class Builtins : Type := {
  py_int : string → option Z;
  py_float : string → option float;
  py_pow10 : float → option float
}.

(** ** The chemistry toolkit *)

(** RDKit's bond-order enumeration; the notebook names [SINGLE], [DOUBLE] and
    [TRIPLE], the other members stand for the rest of the enumeration. *)
Inductive BondType : Type :=
| UNSPECIFIED | SINGLE | DOUBLE | TRIPLE | QUADRUPLE | AROMATIC | DATIVE
| ZERO | OTHER.

Global Instance BondType_eq_dec : EqDecision BondType.
Proof. solve_decision. Defined.

(** A bond, as the two getters [count_rings_and_bonds] calls on it. *)
Record Bond : Type := {
  GetIsAromatic : bool;
  GetBondType : BondType
}.

(** The RDKit calls of the notebook. A molecule is opaque; [GetSymmSSSR]
    gives its rings as tuples of atom indices and [GetBonds] its bonds.
    [MolFromSmiles] returns [None] for a string it cannot parse. *)
Class Toolkit : Type := {
  Mol : Type;
  NPModel : Type;
  GetSymmSSSR : Mol → list (list Z);
  GetBonds : Mol → list Bond;
  CanonSmiles : string → result string;
  MolFromSmiles : string → option Mol;
  MolLogP : Mol → result float;
  qed : Mol → result float;
  scoreMol : Mol → NPModel → result float;
  calculateScore : Mol → result float;
  readNPModel : NPModel
}.

(** The values stored in a result row. *)
Inductive Value : Type :=
| VInt (n : Z)
| VFloat (x : float)
| VStr (s : string)
| VStrList (l : list string)
| VArray (a : list float)
| VArray2 (a : list (list float)).

(** [len(v)] of a stored sequence or array. *)
Definition py_len (v : Value) : option Z :=
  match v with
  | VStrList l => Some (Z.of_nat (length l))
  | VArray a => Some (Z.of_nat (length a))
  | VArray2 a => Some (Z.of_nat (length a))
  | VStr s => Some (Z.of_nat (String.length s))
  | VInt _ | VFloat _ => None
  end.

(** [dict(pairs)]: a later pair replaces an earlier one with the same key. *)
Definition dict_of_pairs {V} (pairs : list (string * V)) : gmap string V :=
  foldl (λ d kv, <[kv.1 := kv.2]> d) ∅ pairs.

(** [d.update(other)]. *)
Definition dict_update {V} (d other : gmap string V) : gmap string V :=
  other ∪ d.

(** [for k, v in m.items(): result[key(k)] = v]. *)
Definition items_into {K} `{Countable K} {V} (key : K → string)
    (m : gmap K V) (result : gmap string V) : gmap string V :=
  map_fold (λ k v r, <[key k := v]> r) result m.

(** *** Counting, for the statements about [count_rings_and_bonds] *)

(** The number of rings of [ssr] that have [k] atoms. *)
Definition rings_of_size (k : Z) (ssr : list (list Z)) : Z :=
  Z.of_nat (length (filter (λ ring, Z.of_nat (length ring) = k) ssr)).

(** The number of bonds that satisfy [P]. *)
Definition count_bonds (P : Bond → Prop) `{!∀ b, Decision (P b)}
    (bonds : list Bond) : Z :=
  Z.of_nat (length (filter P bonds)).

Definition is_aromatic (b : Bond) : Prop := GetIsAromatic b = true.
(** A bond that is not aromatic and has bond order [ty]. *)
Definition has_order (ty : BondType) (b : Bond) : Prop :=
  GetIsAromatic b = false ∧ GetBondType b = ty.
(** A bond that falls in one of the four buckets. *)
Definition is_counted (b : Bond) : Prop :=
  is_aromatic b ∨ has_order SINGLE b ∨ has_order DOUBLE b ∨ has_order TRIPLE b.

Global Instance is_aromatic_dec b : Decision (is_aromatic b).
Proof. unfold is_aromatic. apply _. Defined.
Global Instance has_order_dec ty b : Decision (has_order ty b).
Proof. unfold has_order. apply _. Defined.
Global Instance is_counted_dec b : Decision (is_counted b).
Proof. unfold is_counted. apply _. Defined.

(** The keys [f"R{k}"] of a result are those that start with [R]. *)
Definition is_ring_key (k : string) : bool :=
  match k with
  | String "R" _ => true
  | _ => false
  end.

(** The sum of the ring-size buckets [R3], [R4], ... of a result. *)
Definition ring_bucket_sum (result : gmap string Z) : Z :=
  map_fold (λ k v acc, if is_ring_key k then v + acc else acc) 0 result.

(** The sum of the values of a [ring_sizes] dictionary. *)
Definition sum_values (m : gmap Z Z) : Z :=
  map_fold (λ _ v acc, v + acc) 0 m.

(** The [bond_counts] dictionary with the given four values. *)
Definition bond_counts_of (single double triple aromatic : Z)
  : gmap string Z :=
  <["aromatic" := aromatic]> (<["triple" := triple]> (<["double" := double]>
    (<["single" := single]> ∅))).

Section notebook.
Context {B : Builtins} {T : Toolkit}.

(** *** [parse_float] *)

Definition parse_float (s : string) : result float :=
  match py_float s with
  | Some x => Ok x
  | None =>
      match split_on "*^" s with
      | [base; power] =>
          b ← or_raise (py_float base) ValueError;
          p ← or_raise (py_float power) ValueError;
          t ← or_raise (py_pow10 p) OverflowError;
          Ok (b * t)%float
      | _ => Raise ValueError
      end
  end.

(** *** [count_rings_and_bonds] *)

(** [{} if max_ring_size < 0 else {i: 0 for i in range(3, max_ring_size+1)}] *)
Definition ring_sizes_init (max_ring_size : Z) : gmap Z Z :=
  if max_ring_size <? 0 then ∅
  else list_to_map ((λ i, (i, 0)) <$> seqZ 3 (max_ring_size + 1 - 3)).

(** The body of [for ring in ssr]. *)
Definition count_ring (ring_sizes : gmap Z Z) (ring : list Z) : gmap Z Z :=
  let ring_size := Z.of_nat (length ring) in
  let ring_sizes :=
    if decide (ring_sizes !! ring_size = None)
    then <[ring_size := 0]> ring_sizes else ring_sizes in
  <[ring_size := ring_sizes !!! ring_size + 1]> ring_sizes.

Definition bond_counts_init : gmap string Z :=
  <["aromatic" := 0]> (<["triple" := 0]> (<["double" := 0]>
    (<["single" := 0]> ∅))).

(** [bond_counts[k] += 1] *)
Definition increment (k : string) (bond_counts : gmap string Z)
  : gmap string Z :=
  <[k := bond_counts !!! k + 1]> bond_counts.

(** The body of [for bond in mol.GetBonds()]. *)
Definition count_bond (bond_counts : gmap string Z) (bond : Bond)
  : gmap string Z :=
  if GetIsAromatic bond then increment "aromatic" bond_counts
  else if decide (GetBondType bond = SINGLE) then increment "single" bond_counts
  else if decide (GetBondType bond = DOUBLE) then increment "double" bond_counts
  else if decide (GetBondType bond = TRIPLE) then increment "triple" bond_counts
  else bond_counts.

Definition ring_key (k : Z) : string := "R" +:+ pretty k.
Definition bond_key (k : string) : string := k +:+ "_bond".

Definition count_rings_and_bonds (mol : Mol) (max_ring_size : Z)
  : gmap string Z :=
  let ssr := GetSymmSSSR mol in
  let ring_count := Z.of_nat (length ssr) in
  let ring_sizes := foldl count_ring (ring_sizes_init max_ring_size) ssr in
  let bond_counts := foldl count_bond bond_counts_init (GetBonds mol) in
  let result := {[ "ring_count" := ring_count ]} in
  let result := items_into ring_key ring_sizes result in
  items_into bond_key bond_counts result.

(** *** [parse_xyz] *)

(** The local variables the reading loop fills in. *)
Record xyz_fields : Type := {
  num_atoms : Z;
  scalar_properties : list float;
  atomic_symbols : list string;
  xyz : list (list float);
  charges : list float;
  harmonic_vibrational_frequencies : list float;
  smiles : string;
  inchi : string
}.

Definition xyz_fields_init : xyz_fields :=
  {| num_atoms := 0; scalar_properties := []; atomic_symbols := [];
     xyz := []; charges := []; harmonic_vibrational_frequencies := [];
     smiles := ""; inchi := "" |}.

Definition float_or_ValueError (s : string) : result float :=
  or_raise (py_float s) ValueError.

(** The assignments of the loop body, each on the fields read so far. *)
Definition set_num_atoms (n : Z) (st : xyz_fields) : xyz_fields :=
  {| num_atoms := n; scalar_properties := scalar_properties st;
     atomic_symbols := atomic_symbols st; xyz := xyz st;
     charges := charges st;
     harmonic_vibrational_frequencies := harmonic_vibrational_frequencies st;
     smiles := smiles st; inchi := inchi st |}.

Definition set_scalar_properties (ps : list float) (st : xyz_fields)
  : xyz_fields :=
  {| num_atoms := num_atoms st; scalar_properties := ps;
     atomic_symbols := atomic_symbols st; xyz := xyz st;
     charges := charges st;
     harmonic_vibrational_frequencies := harmonic_vibrational_frequencies st;
     smiles := smiles st; inchi := inchi st |}.

(** The three [append]s of an atom line. *)
Definition append_atom (atom_symbol : string) (position : list float)
    (charge : float) (st : xyz_fields) : xyz_fields :=
  {| num_atoms := num_atoms st; scalar_properties := scalar_properties st;
     atomic_symbols := atomic_symbols st ++ [atom_symbol];
     xyz := xyz st ++ [position];
     charges := charges st ++ [charge];
     harmonic_vibrational_frequencies := harmonic_vibrational_frequencies st;
     smiles := smiles st; inchi := inchi st |}.

Definition set_frequencies (fs : list float) (st : xyz_fields) : xyz_fields :=
  {| num_atoms := num_atoms st; scalar_properties := scalar_properties st;
     atomic_symbols := atomic_symbols st; xyz := xyz st;
     charges := charges st;
     harmonic_vibrational_frequencies := fs;
     smiles := smiles st; inchi := inchi st |}.

Definition set_smiles (w : string) (st : xyz_fields) : xyz_fields :=
  {| num_atoms := num_atoms st; scalar_properties := scalar_properties st;
     atomic_symbols := atomic_symbols st; xyz := xyz st;
     charges := charges st;
     harmonic_vibrational_frequencies := harmonic_vibrational_frequencies st;
     smiles := w; inchi := inchi st |}.

Definition set_inchi (w : string) (st : xyz_fields) : xyz_fields :=
  {| num_atoms := num_atoms st; scalar_properties := scalar_properties st;
     atomic_symbols := atomic_symbols st; xyz := xyz st;
     charges := charges st;
     harmonic_vibrational_frequencies := harmonic_vibrational_frequencies st;
     smiles := smiles st; inchi := w |}.

(** The body of [for line_num, line in enumerate(f)]. *)
Definition read_line (line_num : Z) (line : string) (st : xyz_fields)
  : result xyz_fields :=
  if line_num =? 0 then
    n ← or_raise (py_int line) ValueError;
    Ok (set_num_atoms n st)
  else if line_num =? 1 then
    ps ← comprehension float_or_ValueError (drop 2 (split_ws line));
    Ok (set_scalar_properties ps st)
  else if (2 <=? line_num) && (line_num <=? 1 + num_atoms st) then
    match split_ws line with
    | [atom_symbol; x; y; z; charge] =>
        px ← parse_float x;
        py ← parse_float y;
        pz ← parse_float z;
        pc ← parse_float charge;
        Ok (append_atom atom_symbol [px; py; pz] pc st)
    | _ => Raise ValueError
    end
  else if line_num =? num_atoms st + 2 then
    fs ← comprehension float_or_ValueError (split_ws line);
    Ok (set_frequencies fs st)
  else if line_num =? num_atoms st + 3 then
    w ← or_raise (head (split_ws line)) IndexError;
    Ok (set_smiles w st)
  else if line_num =? num_atoms st + 4 then
    w ← or_raise (head (split_ws line)) IndexError;
    Ok (set_inchi w st)
  else Ok st.

(** The reading loop over the lines of the file, from line [line_num] on. *)
Fixpoint read_lines (line_num : Z) (lines : list string) (st : xyz_fields)
  : result xyz_fields :=
  match lines with
  | [] => Ok st
  | line :: lines' =>
      st' ← read_line line_num line st;
      read_lines (line_num + 1) lines' st'
  end.

Definition scalar_property_labels : list string :=
  ["A"; "B"; "C"; "mu"; "alpha"; "homo"; "lumo"; "gap"; "r2"; "zpve";
   "u0"; "u"; "h"; "g"; "cv"].

(** The array constructors a name can evaluate to, and the values they
    build from a list and from a list of lists. *)
Inductive array_ctor : Type := np_array.

Definition wrap_list (array_wrap : array_ctor) (l : list float) : Value :=
  match array_wrap with np_array => VArray l end.
Definition wrap_rows (array_wrap : array_ctor) (l : list (list float))
  : Value :=
  match array_wrap with np_array => VArray2 l end.

(** The row built from the fields read, before the toolkit is called. *)
Definition base_row (array_wrap : array_ctor) (st : xyz_fields)
  : gmap string Value :=
  let result : gmap string Value :=
    <["inchi" := VStr (inchi st)]> (<["smiles" := VStr (smiles st)]>
    (<["harmonic_oscillator_frequencies" :=
         wrap_list array_wrap (harmonic_vibrational_frequencies st)]>
    (<["charges" := wrap_list array_wrap (charges st)]>
    (<["pos" := wrap_rows array_wrap (xyz st)]>
    (<["atomic_symbols" := VStrList (atomic_symbols st)]>
    (<["num_atoms" := VInt (num_atoms st)]> ∅)))))) in
  dict_update result
    (dict_of_pairs
       (zip scalar_property_labels (VFloat <$> scalar_properties st))).

(** [assert array_format in ['np', 'pt']] *)
Definition assert_array_format (array_format : string) : result () :=
  if bool_decide (array_format ∈ ["np"; "pt"]) then Ok ()
  else Raise AssertionError.

(** [np.array if array_format == 'np' else torch.tensor]: the notebook
    imports [numpy as np] and binds the name [torch] nowhere, so evaluating
    the second branch raises [NameError]. *)
Definition array_wrap_of (array_format : string) : result array_ctor :=
  if String.eqb array_format "np" then Ok np_array else Raise NameError.

(** [parse_xyz], on the lines of the file that [filename] names, for a file
    that opens and is decoded to its end ([parse_xyz_file] below starts from
    the file name). The keys of the scalar properties are none of the keys
    set before them, so [result['smiles']] is the string read from the
    file. *)
Definition parse_xyz (lines : list string) (max_ring_size : Z)
    (npscorer_model : option NPModel) (array_format : string)
  : result (gmap string Value) :=
  _ ← assert_array_format array_format;
  st ← read_lines 0 lines xyz_fields_init;
  array_wrap ← array_wrap_of array_format;
  let result := base_row array_wrap st in
  canonical_smiles ← CanonSmiles (smiles st);
  let result := <["canonical_smiles" := VStr canonical_smiles]> result in
  m ← or_raise (MolFromSmiles canonical_smiles) ToolkitError;
  logP ← MolLogP m;
  let result := <["logP" := VFloat logP]> result in
  q ← qed m;
  let result := <["qed" := VFloat q]> result in
  result ← match npscorer_model with
           | Some model =>
               np ← scoreMol m model;
               Ok (<["np_score" := VFloat np]> result)
           | None => Ok result
           end;
  sa ← calculateScore m;
  let result := <["sa_score" := VFloat sa]> result in
  Ok (dict_update result (VInt <$> count_rings_and_bonds m max_ring_size)).

(** The layout of a structure file: line 0 is the atom count [N], the file
    has [N + 5] lines, and each of the lines 2 to [N + 1] has five fields. *)
Definition xyz_layout (lines : list string) : bool :=
  match head lines ≫= py_int with
  | Some n =>
      (0 <=? n) && (Z.of_nat (length lines) =? n + 5)
      && forallb (λ line, (length (split_ws line) =? 5)%nat)
           (take (Z.to_nat n) (drop 2 lines))
  | None => false
  end.

(** *** Auxiliary definitions for the statements about [parse_xyz] *)

(** The lists of symbols, coordinates and charges grow together. *)
Definition atoms_read (st : xyz_fields) (n : Z) : Prop :=
  Z.of_nat (length (atomic_symbols st)) = n
  ∧ Z.of_nat (length (xyz st)) = n
  ∧ Z.of_nat (length (charges st)) = n.

(** The number of atom lines among the lines [i], ..., [i + n - 1] of a file
    whose atom count is [atoms]. *)
Definition atom_lines (i n atoms : Z) : Z :=
  Z.max 0 (Z.min (i + n) (atoms + 2) - Z.max i 2).

(** The row [parse_xyz] returns, from the fields read and the toolkit's
    answers. *)
Definition assemble (st : xyz_fields) (canonical_smiles : string)
    (logP q : float) (np : option float) (sa : float)
    (counts : gmap string Z) : gmap string Value :=
  let result :=
    <["qed" := VFloat q]> (<["logP" := VFloat logP]>
      (<["canonical_smiles" := VStr canonical_smiles]>
         (base_row np_array st))) in
  let result :=
    match np with
    | Some x => <["np_score" := VFloat x]> result
    | None => result
    end in
  dict_update (<["sa_score" := VFloat sa]> result) (VInt <$> counts).

(** *** The parsing loop over the directory *)

Definition MAX_RING_SIZE : Z := 9.

(** [for file in ...: parsed = parse_xyz(...); parsed_xyz.append(parsed)],
    over the files in sorted order: the list [parsed_xyz] when the loop
    stops, and the exception that stopped it, if any. *)
Fixpoint parsing_loop (files : list (list string))
    (parsed_xyz : list (gmap string Value))
  : list (gmap string Value) * option exn :=
  match files with
  | [] => (parsed_xyz, None)
  | file :: files' =>
      match parse_xyz file MAX_RING_SIZE (Some readNPModel) "np" with
      | Ok parsed => parsing_loop files' (parsed_xyz ++ [parsed])
      | Raise e => (parsed_xyz, Some e)
      end
  end.

End notebook.

(** *** [parse_xyz], from the file name *)

(** What [open(filename, 'r')] and the iteration over the file give: the
    lines yielded, in order, and the exception that ends the iteration
    before the end of the file, if any (a [UnicodeDecodeError] where the
    bytes do not decode). How many lines are yielded before that exception
    depends on the buffering; the stream is what comes out. *)
Record text_stream : Type := {
  stream_lines : list string;
  stream_error : option exn
}.

(** [open(filename, 'r')]: the stream, or the exception that [open] raises
    (a [FileNotFoundError], for one). *)
Class Files : Type := {
  open_text : string → result text_stream
}.

Section files.
Context {B : Builtins} {T : Toolkit} {F : Files}.

(** [for line_num, line in enumerate(f)] on an opened file: the body on the
    lines yielded, then the exception of the iteration if it ends with
    one. *)
Definition read_stream (f : text_stream) : result xyz_fields :=
  st ← read_lines 0 (stream_lines f) xyz_fields_init;
  match stream_error f with
  | Some e => Raise e
  | None => Ok st
  end.

(** [parse_xyz(filename, max_ring_size, npscorer_model, array_format)]: the
    assertion, [open], the reading loop over the file, and the row.
    [parse_xyz] above is this function on a file that opens and whose
    iteration yields its lines without an exception. *)
Definition parse_xyz_file (filename : string) (max_ring_size : Z)
    (npscorer_model : option NPModel) (array_format : string)
  : result (gmap string Value) :=
  _ ← assert_array_format array_format;
  f ← open_text filename;
  st ← read_stream f;
  array_wrap ← array_wrap_of array_format;
  let result := base_row array_wrap st in
  canonical_smiles ← CanonSmiles (smiles st);
  let result := <["canonical_smiles" := VStr canonical_smiles]> result in
  m ← or_raise (MolFromSmiles canonical_smiles) ToolkitError;
  logP ← MolLogP m;
  let result := <["logP" := VFloat logP]> result in
  q ← qed m;
  let result := <["qed" := VFloat q]> result in
  result ← match npscorer_model with
           | Some model =>
               np ← scoreMol m model;
               Ok (<["np_score" := VFloat np]> result)
           | None => Ok result
           end;
  sa ← calculateScore m;
  let result := <["sa_score" := VFloat sa]> result in
  Ok (dict_update result (VInt <$> count_rings_and_bonds m max_ring_size)).

(** The exception [e] is raised by one of the toolkit calls that [parse_xyz]
    makes, in their order, on the SMILES [smi] read from the file; the
    exception for a SMILES that gives no molecule is that of the first call
    on the missing molecule. *)
Definition toolkit_raises (smi : string) (npscorer_model : option NPModel)
    (e : exn) : Prop :=
  CanonSmiles smi = Raise e
  ∨ ∃ canonical_smiles,
      CanonSmiles smi = Ok canonical_smiles
      ∧ (MolFromSmiles canonical_smiles = None ∧ e = ToolkitError
         ∨ ∃ m, MolFromSmiles canonical_smiles = Some m
                ∧ (MolLogP m = Raise e
                   ∨ qed m = Raise e
                   ∨ (∃ model, npscorer_model = Some model
                               ∧ scoreMol m model = Raise e)
                   ∨ calculateScore m = Raise e)).

End files.

(** *** Auxiliary definitions for the further properties *)

Section lines_read.
Context {B : Builtins}.

(** The symbol, the position and the charge that the body of the loop
    appends for an atom line. *)
Definition atom_of_line (line : string)
  : result (string * list float * float) :=
  match split_ws line with
  | [atom_symbol; x; y; z; charge] =>
      px ← parse_float x;
      py ← parse_float y;
      pz ← parse_float z;
      pc ← parse_float charge;
      Ok (atom_symbol, [px; py; pz], pc)
  | _ => Raise ValueError
  end.

(** The atom count a file declares: [int] of its line 0, and the initial
    value 0 of [num_atoms] for a file without lines. *)
Definition declared_atoms (lines : list string) : Z :=
  default 0 (head lines ≫= py_int).

End lines_read.

(** The keys of the row that [parse_xyz] fills from the file, and the keys
    of the values it gets from the toolkit for every molecule. *)
Definition row_keys : list string :=
  ["num_atoms"; "atomic_symbols"; "pos"; "charges";
   "harmonic_oscillator_frequencies"; "smiles"; "inchi"].
Definition descriptor_keys : list string :=
  ["canonical_smiles"; "logP"; "qed"; "sa_score"].

(** The keys every result of [count_rings_and_bonds] has. *)
Definition count_keys : list string :=
  ["ring_count"; "single_bond"; "double_bond"; "triple_bond"; "aromatic_bond"].

(** The columns every row appended by the parsing loop has: the score of the
    model passed, a bucket for every ring size up to [MAX_RING_SIZE], and
    the five counts. *)
Definition loop_row_shape (row : gmap string Value) : Prop :=
  (∃ x, row !! "np_score" = Some (VFloat x))
  ∧ (∀ k, 3 ≤ k ≤ MAX_RING_SIZE → ∃ v, row !! ring_key k = Some (VInt v))
  ∧ (∀ j, j ∈ count_keys → ∃ v, row !! j = Some (VInt v)).

(** The characters that occur in tokens other than bracketed atoms. *)
Definition plain_alphabet : list ascii :=
  list_ascii_of_string
    "BrClNOSPFIbcnosp()./=#-+\:~@?>*$%0123456789".

(** ** A concrete interpreter and toolkit for the examples *)

(** [s.strip()] *)
Fixpoint lstrip (s : string) : string :=
  match s with
  | String c s' => if py_isspace c then lstrip s' else s
  | "" => ""
  end.
Definition strip (s : string) : string :=
  String.rev (lstrip (String.rev (lstrip s))).

(** The number a string of decimal digits denotes, after [acc]. *)
Fixpoint digits_value (acc : Z) (s : string) : option Z :=
  match s with
  | "" => Some acc
  | String c s' =>
      if is_digit c
      then digits_value (10 * acc + (Z.of_nat (nat_of_ascii c) - 48)) s'
      else None
  end.

Definition split_sign (s : string) : bool * string :=
  match s with
  | String "-" s' => (true, s')
  | String "+" s' => (false, s')
  | _ => (false, s)
  end.

(** [int(s)] on plain literals: optional surrounding whitespace, an optional
    sign and decimal digits. *)
Definition decimal_int (s : string) : option Z :=
  let '(neg, ds) := split_sign (strip s) in
  match ds with
  | "" => None
  | _ => n ← digits_value 0 ds; Some (if neg then - n else n)
  end.

Definition float_of_Z (n : Z) : float :=
  if n <? 0 then PrimFloat.opp (PrimFloat.of_uint63 (Uint63.of_Z (- n)))
  else PrimFloat.of_uint63 (Uint63.of_Z n).

(** [float(s)] on short plain literals [[sign] digits [. digits]]: with a
    mantissa below 2^53 and at most 15 fraction digits both the mantissa and
    the power of ten are exact, so the one division rounds correctly. *)
Definition decimal_float (s : string) : option float :=
  let '(neg, ds) := split_sign (strip s) in
  let parts := split_on "." ds in
  match parts with
  | [ip] | [ip; ""] =>
      match ip with
      | "" => None
      | _ =>
          m ← digits_value 0 ip;
          if m <? 2 ^ 53
          then Some (if neg then PrimFloat.opp (float_of_Z m) else float_of_Z m)
          else None
      end
  | [ip; fp] =>
      m ← digits_value 0 (ip +:+ fp);
      let k := Z.of_nat (String.length fp) in
      if (m <? 2 ^ 53) && (k <=? 15)
      then let x := (float_of_Z m / float_of_Z (10 ^ k))%float in
           Some (if neg then PrimFloat.opp x else x)
      else None
  | _ => None
  end.

(** [10 ** x] for integral [x] between -15 and 15. *)
Definition small_pow10 (x : float) : option float :=
  e ← List.find (λ e, PrimFloat.eqb x (float_of_Z e)) (seqZ (-15) 31);
  Some (if e <? 0 then (1 / float_of_Z (10 ^ (- e)))%float
        else float_of_Z (10 ^ e)).

Definition plain_builtins : Builtins :=
  {| py_int := decimal_int; py_float := decimal_float;
     py_pow10 := small_pow10 |}.

(** Molecules given by their ring and bond lists. *)
Record table_mol : Type := {
  mol_rings : list (list Z);
  mol_bonds : list Bond
}.

Definition aromatic_bond : Bond :=
  {| GetIsAromatic := true; GetBondType := AROMATIC |}.
Definition single_bond : Bond :=
  {| GetIsAromatic := false; GetBondType := SINGLE |}.
Definition quadruple_bond : Bond :=
  {| GetIsAromatic := false; GetBondType := QUADRUPLE |}.

Definition methane : table_mol := {| mol_rings := []; mol_bonds := [] |}.
Definition ethane : table_mol :=
  {| mol_rings := []; mol_bonds := [single_bond] |}.
Definition benzene : table_mol :=
  {| mol_rings := [[0; 1; 2; 3; 4; 5]];
     mol_bonds := replicate 6 aromatic_bond |}.
(** Two metal atoms joined by a quadruple bond, [[Re]$[Re]]. *)
Definition dirhenium : table_mol :=
  {| mol_rings := []; mol_bonds := [quadruple_bond] |}.

Definition table_lookup (smi : string) : option table_mol :=
  if String.eqb smi "C" then Some methane
  else if String.eqb smi "CC" then Some ethane
  else if String.eqb smi "c1ccccc1" then Some benzene
  else if String.eqb smi "[Re]$[Re]" then Some dirhenium
  else None.

(** A toolkit that knows four molecules, already in canonical form; the
    scores are placeholders. *)
Definition table_toolkit : Toolkit :=
  {| Mol := table_mol;
     NPModel := unit;
     GetSymmSSSR := mol_rings;
     GetBonds := mol_bonds;
     CanonSmiles := λ smi,
       match table_lookup smi with
       | Some _ => Ok smi
       | None => Raise ToolkitError
       end;
     MolFromSmiles := table_lookup;
     MolLogP := λ _, Ok 0.5%float;
     qed := λ _, Ok 0.25%float;
     scoreMol := λ _ _, Ok 1%float;
     calculateScore := λ _, Ok 2%float;
     readNPModel := () |}.

(** A methane record in the layout of the data set, with short numerals. *)
Definition methane_xyz : list string :=
  [ "5";
    "gdb 1 157.7118 157.70997 157.70699 0. 13.21 -0.3877 0.1171 0.5048 35.3641 0.044749 -40.47893 -40.476062 -40.475117 -40.498597 6.469";
    "C -0.0127 1.0858 0.008 -0.535689";
    "H 0.00215 -0.006 0.002 0.133921";
    "H 1.0117 1.4638 2.766*^-4 0.133922";
    "H -0.5408 1.4475 -0.8766 0.133923";
    "H -0.5238 1.4379 0.9064 0.133923";
    "1341.307 1341.3284 1341.365 1562.6731 1562.7453 3038.3205 3151.6034 3151.6788 3151.7078";
    "C C";
    "InChI=1S/CH4/h1H4 InChI=1S/CH4/h1H4" ].

(** The same record with one more line after the InChI line. *)
Definition methane_xyz_extra_line : list string :=
  methane_xyz ++ ["trailing text"].

(** The same record with the charge missing from the second atom line. *)
Definition methane_xyz_short_atom_line : list string :=
  <[3%nat := "H 0.00215 -0.006 0.002"]> methane_xyz.

(** A directory of ten files, in sorted order: nine copies of the methane
    record and, in fifth place, the record with the short atom line. *)
Definition ten_files : list (list string) :=
  replicate 4 methane_xyz ++ [methane_xyz_short_atom_line]
  ++ replicate 5 methane_xyz.

Definition double_bond : Bond :=
  {| GetIsAromatic := false; GetBondType := DOUBLE |}.

(** Spiro[2.3]hex-4-ene, a three- and a four-membered ring that share an
    atom, with six single bonds and a double bond; and the same molecule
    with its rings and its bonds listed in another order. *)
Definition spirohexene : table_mol :=
  {| mol_rings := [[0; 1; 2]; [2; 3; 4; 5]];
     mol_bonds := double_bond :: replicate 6 single_bond |}.
Definition spirohexene_relisted : table_mol :=
  {| mol_rings := [[5; 4; 3; 2]; [2; 1; 0]];
     mol_bonds := replicate 6 single_bond ++ [double_bond] |}.

(** The methane record with a blank SMILES line, with a frequency that is no
    number, and with a SMILES the toolkit does not know. *)
Definition methane_xyz_blank_smiles_line : list string :=
  <[8%nat := ""]> methane_xyz.
Definition methane_xyz_bad_frequency : list string :=
  <[7%nat := "1341.307 n/a"]> methane_xyz.
Definition methane_xyz_unknown_smiles : list string :=
  <[8%nat := "[Xx] [Xx]"]> methane_xyz.

(** A directory with the methane record and four variants of it. The file
    with a trailing line whose bytes do not decode is shorter than the read
    buffer, so the decoding fails before a line is yielded. A name that is
    not in the directory makes [open] raise. *)
Definition table_files : Files :=
  {| open_text := λ filename,
       if String.eqb filename "dsgdb9nsd_000001.xyz"
       then Ok {| stream_lines := methane_xyz; stream_error := None |}
       else if String.eqb filename "extra_line.xyz"
       then Ok {| stream_lines := methane_xyz_extra_line;
                  stream_error := None |}
       else if String.eqb filename "short_atom_line.xyz"
       then Ok {| stream_lines := methane_xyz_short_atom_line;
                  stream_error := None |}
       else if String.eqb filename "unknown_smiles.xyz"
       then Ok {| stream_lines := methane_xyz_unknown_smiles;
                  stream_error := None |}
       else if String.eqb filename "undecodable_trailing_line.xyz"
       then Ok {| stream_lines := [];
                  stream_error := Some UnicodeDecodeError |}
       else Raise FileNotFoundError |}.

(** * Proofs *)

#[local] Arguments String.append !_ _ / : simpl nomatch.
#[local] Set Warnings "-inexact-float".

(** ** The tokenizer *)

Example tokenizer_CCO : smi_tokenizer "CCO" = Ok ["C"; "C"; "O"].
Proof. reflexivity. Qed.

Example tokenizer_benzene :
  smi_tokenizer "c1ccccc1" = Ok ["c"; "1"; "c"; "c"; "c"; "c"; "c"; "1"].
Proof. reflexivity. Qed.

Example tokenizer_mixed :
  smi_tokenizer "[NH3+]CC(Br)=O.Cl%12" =
  Ok ["[NH3+]"; "C"; "C"; "("; "Br"; ")"; "="; "O"; "."; "Cl"; "%12"].
Proof. reflexivity. Qed.

Example tokenizer_uncovered : smi_tokenizer "CH4" = Raise AssertionError.
Proof. reflexivity. Qed.

Lemma str_app_nil_r (s : string) : s +:+ "" = s.
Proof. induction s; simpl; congruence. Qed.

Lemma join_cons (t : string) (tokens : list string) :
  join "" (t :: tokens) = t +:+ join "" tokens.
Proof.
  unfold join. destruct tokens as [|t' tokens]; simpl.
  - by rewrite str_app_nil_r.
  - done.
Qed.

Lemma str_length_app (s1 s2 : string) :
  String.length (s1 +:+ s2) = (String.length s1 + String.length s2)%nat.
Proof. induction s1; simpl; congruence. Qed.

Lemma str_take_app (s1 s2 : string) :
  str_take (String.length (s1 +:+ s2) - String.length s2) (s1 +:+ s2) = s1.
Proof.
  rewrite str_length_app.
  replace (String.length s1 + String.length s2 - String.length s2)%nat
    with (String.length s1) by lia.
  induction s1 as [|c s1 IH]; simpl.
  - by destruct s2.
  - by rewrite IH.
Qed.

(** What a successful match at the head of [t +:+ rest] gives. *)
Lemma match_at_intro (t rest : string) :
  rmatch pattern (t +:+ rest) Some = Some rest →
  match_at (t +:+ rest) = Some (t, rest).
Proof. unfold match_at. intros ->. by rewrite str_take_app. Qed.

Lemma is_digit_cases (d : ascii) :
  is_digit d = true →
  d ∈ ["0"; "1"; "2"; "3"; "4"; "5"; "6"; "7"; "8"; "9"]%char.
Proof.
  destruct d as [[] [] [] [] [] [] [] []]; vm_compute; intros Hd;
    try discriminate Hd; set_solver.
Qed.

Lemma bracket_body_match (s rest : string) (k : string → option string) :
  (∀ r, k (String "]" r) = Some r) →
  bracket_body s = true →
  plus_cls not_close_bracket (s +:+ rest) k = Some rest.
Proof.
  intros Hk. induction s as [|c s IH]; [done|]. simpl.
  intros [Hc Hs]%andb_true_iff. rewrite Hc.
  destruct (String.eqb s "]") eqn:Heq.
  - apply String.eqb_eq in Heq as ->. simpl. apply Hk.
  - simpl in Hs. by rewrite IH.
Qed.

Lemma rmatch_token (t rest : string) :
  smiles_token t = true → starts_with_r_or_l rest = false →
  rmatch pattern (t +:+ rest) Some = Some rest.
Proof.
  unfold smiles_token. rewrite !orb_true_iff. intros [[[Hb|Hs]|Hd]|Hp] Hrest.
  - destruct t as [|c body]; [done|]. simpl in Hb.
    destruct (Ascii.eqb_spec c "["); [subst c|].
    + simpl. by erewrite bracket_body_match.
    + destruct c as [[] [] [] [] [] [] [] []]; done.
  - apply bool_decide_eq_true in Hs.
    repeat (apply elem_of_cons in Hs as [->|Hs]);
      try (by apply elem_of_nil in Hs); try reflexivity;
      destruct rest as [|c rest]; try reflexivity; simpl in Hrest;
      apply orb_false_iff in Hrest as [Hr Hl];
      simpl; by rewrite ?Hr, ?Hl.
  - destruct t as [|d [|]]; try done. simpl in Hd.
    apply is_digit_cases in Hd.
    repeat (apply elem_of_cons in Hd as [->|Hd]);
      try (by apply elem_of_nil in Hd); reflexivity.
  - destruct t as [|c t]; [done|].
    destruct (Ascii.eqb_spec c "%"); [subst c|by destruct c as [[] [] [] [] [] [] [] []]].
    destruct t as [|d1 [|d2 [|]]]; try done.
    simpl in Hp. apply andb_true_iff in Hp as [H1 H2].
    simpl. by rewrite H1, H2.
Qed.

Lemma smiles_token_head (t : string) :
  smiles_token t = true → t ≠ "" ∧ starts_with_r_or_l t = false.
Proof.
  unfold smiles_token. rewrite !orb_true_iff. intros [[[Hb|Hs]|Hd]|Hp].
  - destruct t as [|c body]; [done|].
    destruct (Ascii.eqb_spec c "["); [by subst c|].
    by destruct c as [[] [] [] [] [] [] [] []].
  - apply bool_decide_eq_true in Hs.
    repeat (apply elem_of_cons in Hs as [->|Hs]);
      try (by apply elem_of_nil in Hs); done.
  - destruct t as [|d [|]]; try done. simpl in Hd.
    apply is_digit_cases in Hd.
    repeat (apply elem_of_cons in Hd as [->|Hd]);
      try (by apply elem_of_nil in Hd); done.
  - destruct t as [|c t]; [done|].
    destruct (Ascii.eqb_spec c "%"); [by subst c|].
    by destruct c as [[] [] [] [] [] [] [] []].
Qed.

Lemma join_tokens_head (tokens : list string) :
  Forall (λ t, smiles_token t = true) tokens →
  starts_with_r_or_l (join "" tokens) = false.
Proof.
  intros [|t tokens' [Hne Ht]%smiles_token_head _]; [done|].
  rewrite join_cons. destruct t; [done|]. done.
Qed.

Lemma findall_go_tokens (tokens : list string) (fuel : nat) :
  Forall (λ t, smiles_token t = true) tokens →
  (String.length (join "" tokens) ≤ fuel)%nat →
  findall_go fuel (join "" tokens) = tokens.
Proof.
  intros Htoks. revert fuel.
  induction Htoks as [|t tokens Ht Htoks IH]; intros fuel Hfuel.
  - by destruct fuel.
  - rewrite join_cons in *. rewrite str_length_app in Hfuel.
    destruct (smiles_token_head t Ht) as [Hne _].
    destruct fuel as [|fuel]; [destruct t; [done|simpl in Hfuel; lia]|].
    simpl.
    rewrite (match_at_intro t (join "" tokens))
      by (apply rmatch_token; [done|by apply join_tokens_head]).
    destruct (t +:+ join "" tokens) eqn:Heq.
    { destruct t; [done|discriminate]. }
    f_equal. apply IH. destruct t; [done|]. simpl in Hfuel. lia.
Qed.

Lemma smi_tokenizer_tokens (tokens : list string) :
  Forall (λ t, smiles_token t = true) tokens →
  smi_tokenizer (join "" tokens) = Ok tokens.
Proof.
  intros Htoks. unfold smi_tokenizer, findall.
  rewrite findall_go_tokens by done. by rewrite String.eqb_refl.
Qed.

Lemma smi_tokenizer_Ok (s : string) (tokens : list string) :
  smi_tokenizer s = Ok tokens → join "" tokens = s ∧ tokens = findall s.
Proof.
  unfold smi_tokenizer. destruct (String.eqb_spec s (join "" (findall s)));
    intros [= <-]; done.
Qed.


Lemma plus_cls_length p (s : string) k v :
  plus_cls p s k = Some v →
  ∃ s', k s' = Some v ∧ (String.length s' + 1 ≤ String.length s)%nat.
Proof.
  induction s as [|c s IH]; simpl; [done|].
  destruct (p c); [|done].
  destruct (plus_cls p s k) eqn:Hplus.
  - intros [= ->]. destruct (IH eq_refl) as (s' & ? & ?). exists s'. split; [done|lia].
  - intros Hk. exists s. split; [done|lia].
Qed.

Lemma rmatch_length (r : re) :
  ∀ (s : string) k v, rmatch r s k = Some v →
  ∃ s', k s' = Some v ∧
        (String.length s' + (if consumes r then 1 else 0) ≤ String.length s)%nat.
Proof.
  induction r as [c|p|r1 IH1 r2 IH2|r1 IH1 r2 IH2|r IH|p]; intros s k v; simpl.
  - destruct s as [|c' s]; [done|]. destruct (Ascii.eqb c' c); [|done].
    intros Hk. exists s. simpl. split; [done|lia].
  - destruct s as [|c' s]; [done|]. destruct (p c'); [|done].
    intros Hk. exists s. simpl. split; [done|lia].
  - intros (s1 & (s2 & Hk & Hle2)%IH2 & Hle1)%IH1. exists s2. split; [done|].
    destruct (consumes r1), (consumes r2); simpl in *; lia.
  - destruct (rmatch r1 s k) eqn:Hr1.
    + intros [= ->]. apply IH1 in Hr1 as (s' & Hk & Hle). exists s'.
      split; [done|]. destruct (consumes r1), (consumes r2); simpl in *; lia.
    + intros (s' & Hk & Hle)%IH2. exists s'.
      split; [done|]. destruct (consumes r1), (consumes r2); simpl in *; lia.
  - destruct (rmatch r s k) eqn:Hr.
    + intros [= ->]. apply IH in Hr as (s' & Hk & Hle). exists s'.
      split; [done|]. lia.
    + intros Hk. exists s. split; [done|lia].
  - apply plus_cls_length.
Qed.

Lemma match_at_shorter (s tok rest : string) :
  match_at s = Some (tok, rest) → (String.length rest < String.length s)%nat.
Proof.
  unfold match_at. destruct (rmatch pattern s Some) as [r|] eqn:Hm; [|done].
  intros [= _ ->]. apply rmatch_length in Hm as (s' & [= ->] & Hle).
  change (consumes pattern) with true in Hle. simpl in Hle. lia.
Qed.

Lemma findall_go_fuel (fuel fuel' : nat) (s : string) :
  (String.length s ≤ fuel)%nat → (String.length s ≤ fuel')%nat →
  findall_go fuel s = findall_go fuel' s.
Proof.
  revert fuel' s. induction fuel as [|fuel IH]; intros fuel' s Hf Hf'.
  - destruct s; [by destruct fuel'|simpl in Hf; lia].
  - destruct fuel' as [|fuel']; [destruct s; [done|simpl in Hf'; lia]|].
    simpl. destruct s as [|c s]; [done|].
    destruct (match_at (String c s)) as [[tok rest]|] eqn:Hm.
    + apply match_at_shorter in Hm. simpl in *. f_equal. apply IH; lia.
    + simpl in *. apply IH; lia.
Qed.

(** Conversely, whatever the pattern matches is a token of the grammar. *)
Lemma plus_cls_bracket (s rest : string) (k : string → option string) :
  (∀ y v, k y = Some v → y = String "]" v) →
  plus_cls not_close_bracket s k = Some rest →
  ∃ body, bracket_body body = true ∧ s = body +:+ rest.
Proof.
  intros Hk. induction s as [|c s IH]; simpl; [done|].
  destruct (not_close_bracket c) eqn:Hc; [|done].
  destruct (plus_cls not_close_bracket s k) as [r|] eqn:Hplus.
  - intros [= ->]. destruct (IH eq_refl) as (body & Hbody & ->).
    exists (String c body). simpl. rewrite Hc, Hbody. by rewrite orb_true_r.
  - intros ->%Hk. exists (String c "]"). simpl. by rewrite Hc.
Qed.

Lemma rmatch_pattern_token (s rest : string) :
  rmatch pattern s Some = Some rest →
  ∃ tok, smiles_token tok = true ∧ s = tok +:+ rest.
Proof.
  destruct s as [|c s]; [done|]. intros Hm.
  destruct (Ascii.eqb_spec c "[") as [->|Hbracket].
  { simpl in Hm.
    destruct (plus_cls not_close_bracket s _) as [r|] eqn:Hplus; [|done].
    injection Hm as ->.
    apply plus_cls_bracket in Hplus as (body & Hbody & ->).
    - exists (String "[" body). split; [|done].
      unfold smiles_token. simpl. by rewrite Hbody.
    - intros [|c' y] v; [done|]. destruct (Ascii.eqb_spec c' "]"); [|done].
      by intros [= ->]; subst. }
  destruct (Ascii.eqb_spec c "B") as [->|HB].
  { simpl in Hm. destruct s as [|c' s'].
    - injection Hm as <-. by exists "B".
    - destruct (Ascii.eqb_spec c' "r") as [->|].
      + injection Hm as <-. by exists "Br".
      + injection Hm as <-. by exists "B". }
  destruct (Ascii.eqb_spec c "C") as [->|HC].
  { simpl in Hm. destruct s as [|c' s'].
    - injection Hm as <-. by exists "C".
    - destruct (Ascii.eqb_spec c' "l") as [->|].
      + injection Hm as <-. by exists "Cl".
      + injection Hm as <-. by exists "C". }
  destruct (Ascii.eqb_spec c "%") as [->|Hpercent].
  { simpl in Hm. destruct s as [|d1 [|d2 s']]; try done.
    - by destruct (is_digit d1).
    - destruct (is_digit d1) eqn:H1; [|done].
      destruct (is_digit d2) eqn:H2; [|done]. injection Hm as <-.
      exists (String "%" (String d1 (String d2 ""))). split; [|done].
      unfold smiles_token. simpl. by rewrite H1, H2. }
  destruct c as [[] [] [] [] [] [] [] []]; try done;
    simpl in Hm; try done; injection Hm as <-;
    match goal with
    | |- ∃ _, _ ∧ String ?c _ = _ => by exists (String c "")
    end.
Qed.

Lemma match_at_token (s tok rest : string) :
  match_at s = Some (tok, rest) → smiles_token tok = true ∧ s = tok +:+ rest.
Proof.
  unfold match_at. destruct (rmatch pattern s Some) as [r|] eqn:Hm; [|done].
  apply rmatch_pattern_token in Hm as (tok' & Htok & ->).
  rewrite str_take_app. by intros [= <- <-].
Qed.

Lemma findall_go_all_tokens (fuel : nat) (s : string) :
  Forall (λ t, smiles_token t = true) (findall_go fuel s).
Proof.
  revert s. induction fuel as [|fuel IH]; intros s; simpl; [done|].
  destruct s as [|c s]; [done|].
  destruct (match_at (String c s)) as [[tok rest]|] eqn:Hm; [|apply IH].
  apply match_at_token in Hm as [Htok _]. by constructor.
Qed.

Lemma smi_tokenizer_in_grammar (s : string) (tokens : list string) :
  smi_tokenizer s = Ok tokens → in_grammar s.
Proof.
  intros [Hjoin ->]%smi_tokenizer_Ok. exists (findall s). split; [|done].
  apply findall_go_all_tokens.
Qed.

(** Claim C1. For every string [s] over the supported grammar the tokenizer
    returns tokens whose concatenation is [s]; whatever the input, tokens
    that are returned concatenate to the input; and when the tokens found do
    not concatenate to the input, which is the case for every string outside
    the grammar, the tokenizer fails, with the [AssertionError] of its
    [assert] (the round-trip failure the specification calls
    TokenizationError). *)
Theorem tokenizer_round_trip :
  (∀ s, in_grammar s →
        ∃ tokens, smi_tokenizer s = Ok tokens ∧ join "" tokens = s)
  ∧ (∀ s tokens, smi_tokenizer s = Ok tokens → join "" tokens = s)
  ∧ (∀ s, join "" (findall s) ≠ s → smi_tokenizer s = Raise AssertionError)
  ∧ (∀ s, ¬ in_grammar s → smi_tokenizer s = Raise AssertionError).
Proof.
  split; [|split; [|split]].
  - intros s (tokens & Htoks & ->). exists tokens.
    by rewrite smi_tokenizer_tokens.
  - intros s tokens Hs. by apply smi_tokenizer_Ok in Hs as [? _].
  - intros s Hne. unfold smi_tokenizer.
    destruct (String.eqb_spec s (join "" (findall s))); congruence.
  - intros s Hout. destruct (smi_tokenizer s) as [tokens|e] eqn:Hs.
    + by apply smi_tokenizer_in_grammar in Hs.
    + unfold smi_tokenizer in Hs.
      destruct (String.eqb _ _); [done|]. by injection Hs as <-.
Qed.

Lemma tokenizer_round_trip_witness :
  in_grammar "c1cc(Br)ccc1[NH3+]" ∧
  ∃ tokens, smi_tokenizer "c1cc(Br)ccc1[NH3+]" = Ok tokens
            ∧ join "" tokens = "c1cc(Br)ccc1[NH3+]".
Proof.
  assert (in_grammar "c1cc(Br)ccc1[NH3+]") as Hin.
  { exists ["c"; "1"; "c"; "c"; "("; "Br"; ")"; "c"; "c"; "c"; "1"; "[NH3+]"].
    split; [|reflexivity]. repeat constructor. }
  split; [exact Hin|]. exact (proj1 tokenizer_round_trip _ Hin).
Defined.


(** ** [parse_float] *)

Section float_claims.
Context {B : Builtins}.

(** Claim C5. [parse_float] returns what [float(s)] returns when that
    succeeds; when it fails and [s] splits on the marker into a base and a
    power that both parse, it returns base * 10 ** power (a string that does
    not split in two is a [ValueError]). With [float] and [**] rounding to
    the nearest binary64 value on the strings and the exponent involved,
    [parse_float("5.0")] is 5.0 and [parse_float("1.23*^-4")] is 1.23e-4. *)
Theorem parse_float_spec :
  (∀ s x, py_float s = Some x → parse_float s = Ok x)
  ∧ (∀ s base power b p t,
       py_float s = None → split_on "*^" s = [base; power] →
       py_float base = Some b → py_float power = Some p →
       py_pow10 p = Some t →
       parse_float s = Ok (b * t)%float)
  ∧ (∀ s, py_float s = None → length (split_on "*^" s) ≠ 2%nat →
          parse_float s = Raise ValueError)
  ∧ (py_float "5.0" = Some 5%float → parse_float "5.0" = Ok 5%float)
  ∧ (py_float "1.23*^-4" = None → py_float "1.23" = Some 1.23%float →
     py_float "-4" = Some (-4)%float →
     py_pow10 (-4)%float = Some 1e-4%float →
     parse_float "1.23*^-4" = Ok 1.23e-4%float).
Proof.
  assert (∀ s base power b p t,
       py_float s = None → split_on "*^" s = [base; power] →
       py_float base = Some b → py_float power = Some p →
       py_pow10 p = Some t →
       parse_float s = Ok (b * t)%float) as Hfallback.
  { intros s base power b p t Hs Hsplit Hb Hp Ht. unfold parse_float.
    rewrite Hs, Hsplit, Hb. simpl. rewrite Hp. simpl. by rewrite Ht. }
  repeat split.
  - intros s x Hs. unfold parse_float. by rewrite Hs.
  - exact Hfallback.
  - intros s Hs Hlen. unfold parse_float. rewrite Hs.
    by destruct (split_on "*^" s) as [|? [|? [|]]].
  - intros H5. unfold parse_float. by rewrite H5.
  - intros Hs Hb Hp Ht.
    rewrite (Hfallback _ "1.23" "-4" _ _ _ Hs eq_refl Hb Hp Ht).
    reflexivity.
Qed.

End float_claims.

Lemma parse_float_spec_witness :
  parse_float (B := plain_builtins) "5.0" = Ok 5%float
  ∧ parse_float (B := plain_builtins) "1.23*^-4" = Ok 1.23e-4%float.
Proof.
  destruct (parse_float_spec (B := plain_builtins)) as (_ & _ & _ & H5 & H123).
  split; [apply H5|apply H123]; reflexivity.
Defined.

(** ** [count_rings_and_bonds] *)

Global Instance ring_key_inj : Inj (=) (=) ring_key.
Proof. intros k1 k2 [= Hk]. by apply (inj pretty). Qed.

Global Instance bond_key_inj : Inj (=) (=) bond_key.
Proof.
  unfold bond_key. intros k1. induction k1 as [|c k1 IH]; intros k2 Hk.
  - destruct k2 as [|c2 k2]; [done|]. simpl in Hk.
    injection Hk as <- Hk.
    repeat (destruct k2 as [|? k2]; simpl in Hk; [discriminate|];
            injection Hk as <- Hk). destruct k2; discriminate.
  - destruct k2 as [|c2 k2].
    + simpl in Hk. injection Hk as -> Hk.
      repeat (destruct k1 as [|? k1]; simpl in Hk; [discriminate|];
              injection Hk as -> Hk). destruct k1; discriminate.
    + simpl in Hk. injection Hk as -> Hk. f_equal. by apply IH.
Qed.

Lemma items_into_kmap {K} `{Countable K} {V} (key : K → string)
    `{!Inj (=) (=) key} (m : gmap K V) (result : gmap string V) :
  items_into key m result = kmap key m ∪ result.
Proof.
  unfold items_into.
  apply (map_fold_weak_ind (λ r m, r = kmap key m ∪ result)).
  - by rewrite kmap_empty, (left_id_L ∅ (∪)).
  - intros i x m' r Hi ->. by rewrite kmap_insert, insert_union_l.
Qed.

Section counts.
Context {T : Toolkit}.

Lemma ring_sizes_init_lookup (max_ring_size k : Z) :
  ring_sizes_init max_ring_size !! k =
  if decide (3 ≤ k ≤ max_ring_size) then Some 0 else None.
Proof.
  unfold ring_sizes_init. destruct (Z.ltb_spec max_ring_size 0).
  - rewrite lookup_empty. case_decide; [lia|done].
  - case_decide as Hk.
    + apply elem_of_list_to_map.
      * rewrite <-list_fmap_compose. simpl.
        rewrite list_fmap_id. apply NoDup_seqZ.
      * apply list_elem_of_fmap. exists k. split; [done|].
        apply elem_of_seqZ. lia.
    + apply not_elem_of_list_to_map. rewrite <-list_fmap_compose. simpl.
      rewrite list_fmap_id. rewrite elem_of_seqZ. lia.
Qed.

Lemma count_ring_lookup (ring_sizes : gmap Z Z) (ring : list Z) (k : Z) :
  count_ring ring_sizes ring !! k =
  if decide (k = Z.of_nat (length ring))
  then Some (default 0 (ring_sizes !! k) + 1)
  else ring_sizes !! k.
Proof.
  unfold count_ring. destruct (decide (k = Z.of_nat (length ring))) as [->|Hk].
  - rewrite lookup_insert_eq. f_equal. f_equal.
    case_decide as Hnone.
    + by rewrite lookup_total_insert_eq, Hnone.
    + rewrite lookup_total_alt. by destruct (ring_sizes !! _).
  - rewrite lookup_insert_ne by done.
    case_decide; [by rewrite lookup_insert_ne|done].
Qed.

Lemma rings_of_size_cons (k : Z) (ring : list Z) (ssr : list (list Z)) :
  rings_of_size k (ring :: ssr) =
  (if decide (Z.of_nat (length ring) = k) then 1 else 0) + rings_of_size k ssr.
Proof.
  unfold rings_of_size. rewrite filter_cons.
  case_decide; simpl; lia.
Qed.

Lemma rings_of_size_nonneg (k : Z) (ssr : list (list Z)) :
  0 ≤ rings_of_size k ssr.
Proof. unfold rings_of_size. lia. Qed.

Lemma rings_of_size_pos (k : Z) (ssr : list (list Z)) :
  0 < rings_of_size k ssr ↔ ∃ ring, ring ∈ ssr ∧ Z.of_nat (length ring) = k.
Proof.
  unfold rings_of_size. split.
  - intros Hpos.
    destruct (filter (λ ring, Z.of_nat (length ring) = k) ssr) as [|ring l] eqn:Hf;
      [simpl in Hpos; lia|].
    assert (ring ∈ filter (λ ring, Z.of_nat (length ring) = k) ssr) as Hin
      by (rewrite Hf; left).
    apply list_elem_of_filter in Hin as [? ?]. by exists ring.
  - intros (ring & Hin & Hk).
    assert (ring ∈ filter (λ ring, Z.of_nat (length ring) = k) ssr) as Hf
      by by apply list_elem_of_filter.
    destruct (filter _ ssr); [by apply elem_of_nil in Hf|simpl; lia].
Qed.

Lemma ring_loop_lookup (ssr : list (list Z)) (ring_sizes : gmap Z Z) (k : Z) :
  foldl count_ring ring_sizes ssr !! k =
  match ring_sizes !! k with
  | Some v => Some (v + rings_of_size k ssr)
  | None => if decide (rings_of_size k ssr = 0) then None
            else Some (rings_of_size k ssr)
  end.
Proof.
  revert ring_sizes. induction ssr as [|ring ssr IH]; intros ring_sizes; simpl.
  - unfold rings_of_size. simpl. destruct (ring_sizes !! k); [f_equal; lia|done].
  - rewrite IH, count_ring_lookup, rings_of_size_cons.
    pose proof (rings_of_size_nonneg k ssr).
    destruct (decide (k = Z.of_nat (length ring))) as [->|Hk].
    + rewrite (decide_True (P := _ = _)) by done.
      destruct (ring_sizes !! _); simpl.
      * f_equal; lia.
      * rewrite decide_False by lia. f_equal; lia.
    + rewrite (decide_False (P := Z.of_nat _ = _)) by done.
      by rewrite Z.add_0_l.
Qed.

Lemma ring_sizes_lookup (ssr : list (list Z)) (max_ring_size k : Z) :
  foldl count_ring (ring_sizes_init max_ring_size) ssr !! k =
  if decide (3 ≤ k ≤ max_ring_size ∨ rings_of_size k ssr ≠ 0)
  then Some (rings_of_size k ssr) else None.
Proof.
  rewrite ring_loop_lookup, ring_sizes_init_lookup.
  repeat case_decide; try done; try (exfalso; tauto).
Qed.


Lemma bond_counts_of_lookup (s d t a : Z) (k : string) :
  bond_counts_of s d t a !! k =
  if decide (k = "aromatic") then Some a
  else if decide (k = "triple") then Some t
  else if decide (k = "double") then Some d
  else if decide (k = "single") then Some s
  else None.
Proof.
  unfold bond_counts_of. repeat case_decide; simplify_map_eq; done.
Qed.

Lemma increment_aromatic (s d t a : Z) :
  increment "aromatic" (bond_counts_of s d t a) = bond_counts_of s d t (a + 1).
Proof.
  apply map_eq. intros k. unfold increment.
  rewrite lookup_total_alt, lookup_insert, !bond_counts_of_lookup. simpl.
  repeat case_decide; simplify_eq; done.
Qed.

Lemma increment_single (s d t a : Z) :
  increment "single" (bond_counts_of s d t a) = bond_counts_of (s + 1) d t a.
Proof.
  apply map_eq. intros k. unfold increment.
  rewrite lookup_total_alt, lookup_insert, !bond_counts_of_lookup. simpl.
  repeat case_decide; simplify_eq; done.
Qed.

Lemma increment_double (s d t a : Z) :
  increment "double" (bond_counts_of s d t a) = bond_counts_of s (d + 1) t a.
Proof.
  apply map_eq. intros k. unfold increment.
  rewrite lookup_total_alt, lookup_insert, !bond_counts_of_lookup. simpl.
  repeat case_decide; simplify_eq; done.
Qed.

Lemma increment_triple (s d t a : Z) :
  increment "triple" (bond_counts_of s d t a) = bond_counts_of s d (t + 1) a.
Proof.
  apply map_eq. intros k. unfold increment.
  rewrite lookup_total_alt, lookup_insert, !bond_counts_of_lookup. simpl.
  repeat case_decide; simplify_eq; done.
Qed.

Lemma count_bonds_cons (P : Bond → Prop) `{!∀ b, Decision (P b)}
    (b : Bond) (bonds : list Bond) :
  count_bonds P (b :: bonds) =
  (if decide (P b) then 1 else 0) + count_bonds P bonds.
Proof. unfold count_bonds. rewrite filter_cons. case_decide; simpl; lia. Qed.

Lemma bond_loop (bonds : list Bond) (s d t a : Z) :
  foldl count_bond (bond_counts_of s d t a) bonds =
  bond_counts_of (s + count_bonds (has_order SINGLE) bonds)
                 (d + count_bonds (has_order DOUBLE) bonds)
                 (t + count_bonds (has_order TRIPLE) bonds)
                 (a + count_bonds is_aromatic bonds).
Proof.
  revert s d t a. induction bonds as [|b bonds IH]; intros s d t a; simpl.
  - unfold count_bonds. simpl. by rewrite !Z.add_0_r.
  - rewrite !count_bonds_cons. unfold count_bond.
    destruct b as [arom ty]. simpl.
    destruct arom, ty; simpl;
      rewrite ?increment_aromatic, ?increment_single, ?increment_double,
        ?increment_triple, IH;
      repeat case_decide;
      try (exfalso; unfold has_order, is_aromatic in *; simpl in *;
           intuition congruence);
      f_equal; lia.
Qed.

Lemma bond_keys_lookup (s d t a : Z) (j : string) :
  (kmap bond_key (bond_counts_of s d t a) : gmap string Z) !! j =
  if decide (j = "aromatic_bond") then Some a
  else if decide (j = "triple_bond") then Some t
  else if decide (j = "double_bond") then Some d
  else if decide (j = "single_bond") then Some s
  else None.
Proof.
  repeat case_decide; subst.
  - by rewrite (lookup_kmap bond_key _ "aromatic").
  - by rewrite (lookup_kmap bond_key _ "triple").
  - by rewrite (lookup_kmap bond_key _ "double").
  - by rewrite (lookup_kmap bond_key _ "single").
  - apply lookup_kmap_None; [apply _|]. intros i ->.
    rewrite bond_counts_of_lookup.
    repeat case_decide; subst; done.
Qed.

Lemma count_rings_and_bonds_eq (mol : Mol) (max_ring_size : Z) :
  count_rings_and_bonds mol max_ring_size =
  kmap bond_key
    (bond_counts_of (count_bonds (has_order SINGLE) (GetBonds mol))
                    (count_bonds (has_order DOUBLE) (GetBonds mol))
                    (count_bonds (has_order TRIPLE) (GetBonds mol))
                    (count_bonds is_aromatic (GetBonds mol)))
  ∪ (kmap ring_key
       (foldl count_ring (ring_sizes_init max_ring_size) (GetSymmSSSR mol))
     ∪ {[ "ring_count" := Z.of_nat (length (GetSymmSSSR mol)) ]}).
Proof.
  unfold count_rings_and_bonds.
  rewrite (items_into_kmap bond_key), (items_into_kmap ring_key).
  change bond_counts_init with (bond_counts_of 0 0 0 0).
  by rewrite bond_loop, !Z.add_0_l.
Qed.

Lemma result_ring_count (mol : Mol) (max_ring_size : Z) :
  count_rings_and_bonds mol max_ring_size !! "ring_count" =
  Some (Z.of_nat (length (GetSymmSSSR mol))).
Proof.
  rewrite count_rings_and_bonds_eq.
  rewrite lookup_union_r by (by rewrite bond_keys_lookup).
  rewrite lookup_union_r; [by rewrite lookup_singleton_eq|].
  apply lookup_kmap_None; [apply _|]. intros i. discriminate.
Qed.

Lemma result_ring_key (mol : Mol) (max_ring_size k : Z) :
  count_rings_and_bonds mol max_ring_size !! ring_key k =
  if decide (3 ≤ k ≤ max_ring_size ∨ rings_of_size k (GetSymmSSSR mol) ≠ 0)
  then Some (rings_of_size k (GetSymmSSSR mol)) else None.
Proof.
  rewrite count_rings_and_bonds_eq.
  rewrite lookup_union_r by (by rewrite bond_keys_lookup).
  rewrite lookup_union, (lookup_kmap ring_key), ring_sizes_lookup.
  rewrite lookup_singleton_ne by discriminate.
  by case_decide.
Qed.

Lemma result_bond_keys (mol : Mol) (max_ring_size : Z) :
  let result := count_rings_and_bonds mol max_ring_size in
  result !! "single_bond" = Some (count_bonds (has_order SINGLE) (GetBonds mol))
  ∧ result !! "double_bond" = Some (count_bonds (has_order DOUBLE) (GetBonds mol))
  ∧ result !! "triple_bond" = Some (count_bonds (has_order TRIPLE) (GetBonds mol))
  ∧ result !! "aromatic_bond" = Some (count_bonds is_aromatic (GetBonds mol)).
Proof.
  simpl. rewrite count_rings_and_bonds_eq.
  repeat split; by rewrite lookup_union_l', bond_keys_lookup.
Qed.

Lemma sum_values_insert (m : gmap Z Z) (i x : Z) :
  m !! i = None → sum_values (<[i:=x]> m) = x + sum_values m.
Proof.
  intros Hi. unfold sum_values.
  rewrite map_fold_insert_L; [done| |done]. intros; lia.
Qed.

Lemma sum_values_insert_Some (m : gmap Z Z) (i x v : Z) :
  m !! i = Some v → sum_values (<[i:=x]> m) = sum_values m - v + x.
Proof.
  intros Hi. rewrite <-insert_delete_eq.
  rewrite sum_values_insert by apply lookup_delete_eq.
  unfold sum_values at 2.
  rewrite (map_fold_delete_L _ _ i v m); [|intros; lia|done].
  fold (sum_values (delete i m)). lia.
Qed.

Lemma sum_values_zero (m : gmap Z Z) :
  (∀ k v, m !! k = Some v → v = 0) → sum_values m = 0.
Proof.
  induction m as [|i x m Hi IH] using map_ind; intros Hm; [done|].
  rewrite sum_values_insert by done.
  rewrite (Hm i x) by apply lookup_insert_eq.
  rewrite IH; [done|]. intros k v Hk. apply (Hm k).
  rewrite lookup_insert_ne; [done|]. intros ->. congruence.
Qed.

Lemma sum_values_count_ring (ring_sizes : gmap Z Z) (ring : list Z) :
  sum_values (count_ring ring_sizes ring) = sum_values ring_sizes + 1.
Proof.
  unfold count_ring. case_decide as Hnone.
  - rewrite lookup_total_insert_eq, insert_insert_eq.
    rewrite sum_values_insert by done. lia.
  - destruct (ring_sizes !! Z.of_nat (length ring)) as [v|] eqn:Hv; [|done].
    rewrite lookup_total_alt, Hv. simpl.
    rewrite (sum_values_insert_Some _ _ _ v) by done. lia.
Qed.

Lemma sum_values_ring_loop (ssr : list (list Z)) (ring_sizes : gmap Z Z) :
  sum_values (foldl count_ring ring_sizes ssr) =
  sum_values ring_sizes + Z.of_nat (length ssr).
Proof.
  revert ring_sizes. induction ssr as [|ring ssr IH]; intros ring_sizes; simpl.
  - lia.
  - rewrite IH, sum_values_count_ring. lia.
Qed.

Lemma ring_bucket_sum_insert (m : gmap string Z) (j : string) (x : Z) :
  m !! j = None →
  ring_bucket_sum (<[j:=x]> m) =
  (if is_ring_key j then x else 0) + ring_bucket_sum m.
Proof.
  intros Hj. unfold ring_bucket_sum.
  rewrite map_fold_insert_L; [by destruct (is_ring_key j)| |done].
  intros j1 j2 z1 z2 y _ _ _.
  destruct (is_ring_key j1), (is_ring_key j2); lia.
Qed.

Lemma ring_bucket_sum_union (m1 m2 : gmap string Z) :
  m1 ##ₘ m2 →
  ring_bucket_sum (m1 ∪ m2) = ring_bucket_sum m1 + ring_bucket_sum m2.
Proof.
  induction m1 as [|j x m1 Hj IH] using map_ind; intros Hdisj.
  - by rewrite (left_id_L ∅ (∪)).
  - apply map_disjoint_insert_l in Hdisj as [Hj2 Hdisj].
    rewrite <-insert_union_l.
    rewrite !ring_bucket_sum_insert, IH; try done; [lia|].
    by apply lookup_union_None.
Qed.

Lemma ring_bucket_sum_other (m : gmap string Z) :
  (∀ k, is_ring_key k = true → m !! k = None) → ring_bucket_sum m = 0.
Proof.
  induction m as [|j x m Hj IH] using map_ind; intros Hm; [done|].
  rewrite ring_bucket_sum_insert by done.
  destruct (is_ring_key j) eqn:Hkey.
  - specialize (Hm j Hkey). by rewrite lookup_insert_eq in Hm.
  - rewrite IH; [done|]. intros k Hk. specialize (Hm k Hk).
    rewrite lookup_insert_ne in Hm; [done|]. intros ->. congruence.
Qed.

Lemma ring_bucket_sum_kmap (ring_sizes : gmap Z Z) :
  ring_bucket_sum (kmap ring_key ring_sizes) = sum_values ring_sizes.
Proof.
  induction ring_sizes as [|i x m Hi IH] using map_ind.
  - by rewrite kmap_empty.
  - rewrite kmap_insert by apply _.
    rewrite ring_bucket_sum_insert, sum_values_insert, IH; try done.
    by rewrite (lookup_kmap ring_key).
Qed.

Lemma ring_bucket_sum_result (mol : Mol) (max_ring_size : Z) :
  ring_bucket_sum (count_rings_and_bonds mol max_ring_size) =
  Z.of_nat (length (GetSymmSSSR mol)).
Proof.
  rewrite count_rings_and_bonds_eq.
  rewrite ring_bucket_sum_union.
  - rewrite ring_bucket_sum_union.
    + rewrite (ring_bucket_sum_other (kmap bond_key _)).
      * rewrite ring_bucket_sum_kmap, sum_values_ring_loop.
        rewrite sum_values_zero.
        { unfold ring_bucket_sum. rewrite map_fold_singleton. simpl. lia. }
        intros k v. rewrite ring_sizes_init_lookup. by case_decide; intros [=].
      * intros k Hk. rewrite bond_keys_lookup.
        repeat case_decide; subst; done.
    + apply map_disjoint_singleton_r.
      apply lookup_kmap_None; [apply _|]. intros i. discriminate.
  - apply map_disjoint_spec. intros j x y. rewrite bond_keys_lookup.
    intros Hx Hy. apply lookup_union_Some_raw in Hy as [Hy|[_ Hy]].
    + apply lookup_kmap_Some in Hy as (i & -> & _); [|apply _].
      repeat case_decide; done.
    + apply lookup_singleton_Some in Hy as [<- _].
      repeat case_decide; done.
Qed.


Lemma result_other_key (mol : Mol) (max_ring_size : Z) (j : string) :
  is_ring_key j = false →
  j ∉ ["ring_count"; "single_bond"; "double_bond"; "triple_bond";
       "aromatic_bond"] →
  count_rings_and_bonds mol max_ring_size !! j = None.
Proof.
  intros Hkey Hj. rewrite count_rings_and_bonds_eq.
  apply lookup_union_None. split; [|apply lookup_union_None; split].
  - rewrite bond_keys_lookup.
    repeat case_decide; subst; try done; exfalso; apply Hj; set_solver.
  - apply lookup_kmap_None; [apply _|]. by intros i ->.
  - apply lookup_singleton_ne. intros <-. apply Hj. set_solver.
Qed.

End counts.

Section count_claims.
Context {T : Toolkit}.

(** Claim C6. For every molecule and every [max_ring_size], the result has
    [ring_count], the number of rings of the smallest set of smallest rings;
    a key [R<k>] for every size [k] from 3 to [max_ring_size], holding the
    number of rings of that size; for every ring, of whatever size, the key
    of its size, holding a count of at least one; and no other [R<k>] key.
    For a molecule whose only ring has six atoms, [ring_count] is 1 and
    [R6] is 1. *)
Theorem ring_buckets (mol : Mol) (max_ring_size : Z) :
  let ssr := GetSymmSSSR mol in
  let result := count_rings_and_bonds mol max_ring_size in
  result !! "ring_count" = Some (Z.of_nat (length ssr))
  ∧ (∀ k, 3 ≤ k ≤ max_ring_size →
          result !! ring_key k = Some (rings_of_size k ssr))
  ∧ (∀ ring, ring ∈ ssr →
       result !! ring_key (Z.of_nat (length ring)) =
       Some (rings_of_size (Z.of_nat (length ring)) ssr)
       ∧ 1 ≤ rings_of_size (Z.of_nat (length ring)) ssr)
  ∧ (∀ k, is_Some (result !! ring_key k) ↔
          3 ≤ k ≤ max_ring_size
          ∨ ∃ ring, ring ∈ ssr ∧ Z.of_nat (length ring) = k)
  ∧ (∀ ring, ssr = [ring] → length ring = 6%nat →
       result !! "ring_count" = Some 1 ∧ result !! "R6" = Some 1).
Proof.
  intros ssr result. subst ssr result.
  split; [apply result_ring_count|].
  split; [|split; [|split]].
  - intros k Hk. rewrite result_ring_key. by rewrite decide_True by by left.
  - intros ring Hring.
    assert (0 < rings_of_size (Z.of_nat (length ring)) (GetSymmSSSR mol))
      as Hpos by (apply rings_of_size_pos; by exists ring).
    split; [|lia].
    rewrite result_ring_key. rewrite decide_True; [done|]. right. lia.
  - intros k. rewrite result_ring_key.
    pose proof (rings_of_size_nonneg k (GetSymmSSSR mol)) as Hnonneg.
    pose proof (rings_of_size_pos k (GetSymmSSSR mol)) as Hpos.
    case_decide as Hk; split.
    + intros _. destruct Hk as [?|Hk]; [by left|right]. apply Hpos. lia.
    + by eexists.
    + by intros [? ?].
    + intros [?|Hex]; exfalso; apply Hk; [by left|right].
      apply Hpos in Hex. lia.
  - intros ring Hssr Hlen. rewrite result_ring_count, Hssr.
    split; [done|].
    change "R6" with (ring_key 6). rewrite result_ring_key, Hssr.
    unfold rings_of_size.
    rewrite filter_cons, (decide_True (P := Z.of_nat (length ring) = 6)) by lia.
    simpl. by rewrite decide_True by (right; lia).
Qed.

(** Claim C7, as amended. For every molecule, [aromatic_bond] is the number
    of aromatic bonds and [single_bond], [double_bond] and [triple_bond] are
    the numbers of bonds that are not aromatic and have that bond type, so no
    bond is counted twice and an aromatic bond is never counted as single,
    double or triple; the four counts add up to the number of bonds that are
    aromatic or of one of the three types, which is all of them only when
    every bond is of that kind. For six aromatic bonds, [aromatic_bond] is 6
    and the other three counts are 0. *)
Theorem bond_buckets (mol : Mol) (max_ring_size : Z) :
  let bonds := GetBonds mol in
  let result := count_rings_and_bonds mol max_ring_size in
  result !! "aromatic_bond" = Some (count_bonds is_aromatic bonds)
  ∧ result !! "single_bond" = Some (count_bonds (has_order SINGLE) bonds)
  ∧ result !! "double_bond" = Some (count_bonds (has_order DOUBLE) bonds)
  ∧ result !! "triple_bond" = Some (count_bonds (has_order TRIPLE) bonds)
  ∧ count_bonds is_aromatic bonds + count_bonds (has_order SINGLE) bonds
    + count_bonds (has_order DOUBLE) bonds
    + count_bonds (has_order TRIPLE) bonds
    = count_bonds is_counted bonds
  ∧ count_bonds is_counted bonds ≤ Z.of_nat (length bonds)
  ∧ (Forall is_counted bonds →
     count_bonds is_counted bonds = Z.of_nat (length bonds))
  ∧ (length bonds = 6%nat → Forall is_aromatic bonds →
     result !! "aromatic_bond" = Some 6 ∧ result !! "single_bond" = Some 0
     ∧ result !! "double_bond" = Some 0 ∧ result !! "triple_bond" = Some 0).
Proof.
  intros bonds result. subst bonds result.
  pose proof (result_bond_keys mol max_ring_size) as (Hs & Hd & Ht & Ha).
  assert (∀ bonds, count_bonds is_aromatic bonds
    + count_bonds (has_order SINGLE) bonds
    + count_bonds (has_order DOUBLE) bonds
    + count_bonds (has_order TRIPLE) bonds = count_bonds is_counted bonds)
    as Hsum.
  { induction bonds as [|b bonds IH]; [done|].
    rewrite !count_bonds_cons, <-IH.
    destruct b as [[] []];
      repeat case_decide;
      try (exfalso; unfold is_counted, has_order, is_aromatic in *;
           simpl in *; intuition congruence);
      lia. }
  assert (∀ bonds, Forall is_aromatic bonds →
    count_bonds is_aromatic bonds = Z.of_nat (length bonds)
    ∧ ∀ ty, count_bonds (has_order ty) bonds = 0) as Harom.
  { induction 1 as [|b bonds Hb Hbonds [IH1 IH2]]; [done|].
    split; [|intros ty]; rewrite count_bonds_cons, ?IH1, ?IH2.
    - rewrite decide_True by done. rewrite length_cons. lia.
    - rewrite decide_False; [done|]. unfold has_order, is_aromatic in *.
      intros [? _]. congruence. }
  split; [done|]. split; [done|]. split; [done|]. split; [done|].
  split; [apply Hsum|]. split; [|split].
  - unfold count_bonds.
    pose proof (length_filter is_counted (GetBonds mol)). lia.
  - generalize (GetBonds mol). intros bonds Hall. unfold count_bonds.
    replace (filter is_counted bonds) with bonds; [done|].
    induction Hall as [|b bonds Hb Hbonds IH]; [done|].
    rewrite filter_cons, decide_True by done. by f_equal.
  - intros Hlen Hall. destruct (Harom _ Hall) as [Ha' Hty].
    rewrite Ha, Hs, Hd, Ht, Ha', !Hty, Hlen. done.
Qed.

(** Claim C9. For every molecule and every [max_ring_size], [ring_count] in
    the result equals the sum of the values under the keys [R3], [R4], ...
    of the same result. *)
Theorem ring_count_is_bucket_sum (mol : Mol) (max_ring_size : Z) :
  count_rings_and_bonds mol max_ring_size !! "ring_count" =
  Some (ring_bucket_sum (count_rings_and_bonds mol max_ring_size)).
Proof. by rewrite ring_bucket_sum_result, result_ring_count. Qed.

End count_claims.

Lemma ring_buckets_witness :
  count_rings_and_bonds (T := table_toolkit) benzene MAX_RING_SIZE
    !! "ring_count" = Some 1
  ∧ count_rings_and_bonds (T := table_toolkit) benzene MAX_RING_SIZE
    !! "R6" = Some 1.
Proof.
  destruct (ring_buckets (T := table_toolkit) benzene MAX_RING_SIZE)
    as (_ & _ & _ & _ & Hbenzene).
  exact (Hbenzene [0; 1; 2; 3; 4; 5] eq_refl eq_refl).
Defined.

Lemma bond_buckets_witness :
  count_rings_and_bonds (T := table_toolkit) benzene MAX_RING_SIZE
    !! "aromatic_bond" = Some 6
  ∧ count_rings_and_bonds (T := table_toolkit) benzene MAX_RING_SIZE
    !! "single_bond" = Some 0
  ∧ count_rings_and_bonds (T := table_toolkit) benzene MAX_RING_SIZE
    !! "double_bond" = Some 0
  ∧ count_rings_and_bonds (T := table_toolkit) benzene MAX_RING_SIZE
    !! "triple_bond" = Some 0.
Proof.
  destruct (bond_buckets (T := table_toolkit) benzene MAX_RING_SIZE)
    as (_ & _ & _ & _ & _ & _ & _ & Hbenzene).
  apply Hbenzene; [reflexivity|]. repeat constructor.
Defined.

(** Claim C7 as stated fails: the one bond of this molecule is counted in
    none of the four buckets. *)
Lemma quadruple_bond_uncounted :
  let result := count_rings_and_bonds (T := table_toolkit) dirhenium (-1) in
  length (GetBonds (Toolkit := table_toolkit) dirhenium) = 1%nat
  ∧ result !! "single_bond" = Some 0 ∧ result !! "double_bond" = Some 0
  ∧ result !! "triple_bond" = Some 0 ∧ result !! "aromatic_bond" = Some 0.
Proof. vm_compute. repeat split; reflexivity. Qed.


(** ** [parse_xyz] and the parsing loop *)

(** A concrete key is none of the keys of a concrete list. *)
Ltac not_in_list :=
  let Hin := fresh "Hin" in
  intros Hin;
  repeat (apply elem_of_cons in Hin as [Hin|Hin]; [discriminate Hin|]);
  by apply elem_of_nil in Hin.


Lemma bind_Ok {A B} (m : result A) (f : A → result B) (b : B) :
  m ≫= f = Ok b ↔ ∃ a, m = Ok a ∧ f a = Ok b.
Proof.
  destruct m as [a|e]; simpl; split.
  - intros. by exists a.
  - by intros (? & [= <-] & ?).
  - done.
  - by intros (? & [=] & _).
Qed.

Lemma is_Ok_true {A} (r : result A) : is_Ok r = true → ∃ a, r = Ok a.
Proof. destruct r as [a|e]; [by exists a|done]. Qed.

Lemma raised_Some {A} (r : result A) (e : exn) :
  raised r = Some e → r = Raise e.
Proof. destruct r; [done|by intros [= ->]]. Qed.

Lemma fmap_Ok {A B} (f : A → B) (r : result A) (b : B) :
  f <$> r = Ok b → ∃ a, r = Ok a ∧ f a = b.
Proof. destruct r as [a|e]; [intros [= <-]; by exists a|done]. Qed.

Section parse.
Context {B : Builtins} {T : Toolkit}.

Lemma read_line_atoms (i : Z) (line : string) (st st' : xyz_fields) (n : Z) :
  1 ≤ i → read_line i line st = Ok st' → atoms_read st n →
  num_atoms st' = num_atoms st
  ∧ atoms_read st' (n + atom_lines i 1 (num_atoms st)).
Proof.
  intros Hi Hread (Hs & Hx & Hc). unfold read_line in Hread.
  unfold atoms_read, atom_lines.
  destruct (Z.eqb_spec i 0); [lia|].
  destruct (Z.eqb_spec i 1).
  { apply bind_Ok in Hread as (ps & _ & [= <-]). simpl. repeat split; lia. }
  destruct (Z.leb_spec 2 i), (Z.leb_spec i (1 + num_atoms st)); simpl in Hread.
  { destruct (split_ws line) as [|a [|x [|y [|z [|c [|]]]]]]; try done.
    apply bind_Ok in Hread as (px & _ & Hread).
    apply bind_Ok in Hread as (py & _ & Hread).
    apply bind_Ok in Hread as (pz & _ & Hread).
    apply bind_Ok in Hread as (pc & _ & [= <-]). simpl.
    rewrite !length_app. simpl. repeat split; lia. }
  all: destruct (Z.eqb_spec i (num_atoms st + 2));
    [apply bind_Ok in Hread as (? & _ & [= <-]); simpl; repeat split; lia|];
    destruct (Z.eqb_spec i (num_atoms st + 3));
    [apply bind_Ok in Hread as (? & _ & [= <-]); simpl; repeat split; lia|];
    destruct (Z.eqb_spec i (num_atoms st + 4));
    [apply bind_Ok in Hread as (? & _ & [= <-]); simpl; repeat split; lia|];
    injection Hread as <-; repeat split; lia.
Qed.

Lemma read_lines_atoms (lines : list string) (i : Z) (st st' : xyz_fields)
    (n : Z) :
  1 ≤ i → read_lines i lines st = Ok st' → atoms_read st n →
  num_atoms st' = num_atoms st
  ∧ atoms_read st'
      (n + atom_lines i (Z.of_nat (length lines)) (num_atoms st)).
Proof.
  revert i st n. induction lines as [|line lines IH]; intros i st n Hi Hread Hst.
  - injection Hread as <-. split; [done|].
    unfold atom_lines. simpl. replace (n + _) with n by lia. done.
  - simpl in Hread. apply bind_Ok in Hread as (st1 & Hline & Hread).
    destruct (read_line_atoms i line st st1 n Hi Hline Hst) as [Hn1 Hst1].
    destruct (IH (i + 1) st1 _ ltac:(lia) Hread Hst1) as [Hn' Hst'].
    split; [congruence|].
    rewrite Hn1 in Hst'.
    replace (n + atom_lines i (Z.of_nat (length (line :: lines))) (num_atoms st))
      with (n + atom_lines i 1 (num_atoms st)
            + atom_lines (i + 1) (Z.of_nat (length lines)) (num_atoms st));
      [done|].
    unfold atom_lines. rewrite length_cons. lia.
Qed.

(** After the whole file: the atom count of line 0, and as many atoms read
    as the file has atom lines. *)
Lemma read_lines_file (lines : list string) (st : xyz_fields) :
  read_lines 0 lines xyz_fields_init = Ok st →
  lines = [] ∧ st = xyz_fields_init
  ∨ ∃ line0 rest,
      lines = line0 :: rest ∧ py_int line0 = Some (num_atoms st)
      ∧ atoms_read st (atom_lines 1 (Z.of_nat (length rest)) (num_atoms st)).
Proof.
  destruct lines as [|line0 rest]; simpl.
  - intros [= <-]. by left.
  - intros (st0 & Hline0 & Hread)%bind_Ok. right. exists line0, rest.
    unfold read_line in Hline0. simpl in Hline0.
    apply bind_Ok in Hline0 as (n & Hn & [= <-]).
    destruct (py_int line0) as [n'|]; [|done]. injection Hn as ->.
    destruct (read_lines_atoms rest 1 _ st 0 ltac:(lia) Hread) as [Hn Hst];
      [done|].
    simpl in Hn, Hst. rewrite Z.add_0_l in Hst. rewrite Hn. by split.
Qed.


Lemma parse_xyz_Ok (lines : list string) (max_ring_size : Z)
    (npscorer_model : option NPModel) (array_format : string)
    (row : gmap string Value) :
  parse_xyz lines max_ring_size npscorer_model array_format = Ok row →
  array_format = "np" ∧
  ∃ st canonical_smiles m logP q np sa,
    read_lines 0 lines xyz_fields_init = Ok st
    ∧ (np = None ↔ npscorer_model = None)
    ∧ row = assemble st canonical_smiles logP q np sa
              (count_rings_and_bonds m max_ring_size).
Proof.
  unfold parse_xyz. intros Hrow.
  apply bind_Ok in Hrow as (_ & _ & Hrow).
  apply bind_Ok in Hrow as (st & Hst & Hrow).
  apply bind_Ok in Hrow as (w & Hw & Hrow).
  unfold array_wrap_of in Hw.
  destruct (String.eqb_spec array_format "np") as [->|]; [|done].
  injection Hw as <-. split; [done|].
  apply bind_Ok in Hrow as (cs & _ & Hrow).
  apply bind_Ok in Hrow as (m & _ & Hrow).
  apply bind_Ok in Hrow as (logP & _ & Hrow).
  apply bind_Ok in Hrow as (q & _ & Hrow).
  apply bind_Ok in Hrow as (result & Hnp & Hrow).
  apply bind_Ok in Hrow as (sa & _ & [= <-]).
  destruct npscorer_model as [model|].
  - apply bind_Ok in Hnp as (np & _ & [= <-]).
    exists st, cs, m, logP, q, (Some np), sa. by repeat split.
  - injection Hnp as <-.
    exists st, cs, m, logP, q, None, sa. by repeat split.
Qed.

Lemma dict_of_pairs_lookup_None {V} (pairs : list (string * V)) (k : string) :
  k ∉ pairs.*1 → dict_of_pairs pairs !! k = None.
Proof.
  unfold dict_of_pairs.
  generalize (∅ : gmap string V) (lookup_empty (M:=gmap string) (A:=V) k).
  induction pairs as [|[k' v] pairs IH]; intros d Hd Hk; simpl; [done|].
  apply not_elem_of_cons in Hk as [Hne Hk]. simpl in Hne.
  apply IH; [|done]. by rewrite lookup_insert_ne.
Qed.

Lemma scalars_lookup_None (values : list Value) (k : string) :
  k ∉ scalar_property_labels →
  dict_of_pairs (zip scalar_property_labels values) !! k = None.
Proof.
  intros Hk. apply dict_of_pairs_lookup_None. intros Hin. apply Hk.
  apply list_elem_of_fmap in Hin as ([k' v] & -> & Hin).
  by apply elem_of_zip_l in Hin.
Qed.

Lemma assemble_lookup_base (st : xyz_fields) (cs : string) (logP q : float)
    (np : option float) (sa : float) (counts : gmap string Z) (j : string) :
  j ∉ ["sa_score"; "np_score"; "qed"; "logP"; "canonical_smiles"] →
  counts !! j = None →
  assemble st cs logP q np sa counts !! j = base_row np_array st !! j.
Proof.
  intros Hj Hcounts. unfold assemble, dict_update.
  rewrite lookup_union_r by (by rewrite lookup_fmap, Hcounts).
  assert (j ≠ "sa_score" ∧ j ≠ "np_score" ∧ j ≠ "qed" ∧ j ≠ "logP"
          ∧ j ≠ "canonical_smiles") as (? & ? & ? & ? & ?).
  { repeat split; intros ->; apply Hj; set_solver. }
  rewrite lookup_insert_ne by done.
  destruct np; rewrite ?lookup_insert_ne by done; done.
Qed.

Lemma base_row_atoms (w : array_ctor) (st : xyz_fields) :
  base_row w st !! "num_atoms" = Some (VInt (num_atoms st))
  ∧ base_row w st !! "atomic_symbols" = Some (VStrList (atomic_symbols st))
  ∧ base_row w st !! "pos" = Some (wrap_rows w (xyz st))
  ∧ base_row w st !! "charges" = Some (wrap_list w (charges st)).
Proof.
  unfold base_row, dict_update.
  repeat split;
    (rewrite lookup_union_r by (apply scalars_lookup_None; not_in_list));
    by simplify_map_eq.
Qed.

Lemma base_row_np_score (w : array_ctor) (st : xyz_fields) :
  base_row w st !! "np_score" = None.
Proof.
  unfold base_row, dict_update.
  rewrite lookup_union_r by (apply scalars_lookup_None; not_in_list).
  by simplify_map_eq.
Qed.

Lemma assemble_np_score (st : xyz_fields) (cs : string) (logP q : float)
    (np : option float) (sa : float) (mol : Mol) (max_ring_size : Z) :
  assemble st cs logP q np sa (count_rings_and_bonds mol max_ring_size)
    !! "np_score" = VFloat <$> np.
Proof.
  unfold assemble, dict_update.
  rewrite lookup_union_r
    by (rewrite lookup_fmap, result_other_key; [done|done|not_in_list]).
  rewrite lookup_insert_ne by done.
  destruct np; simpl.
  - by rewrite lookup_insert_eq.
  - rewrite !lookup_insert_ne by done. apply base_row_np_score.
Qed.

Lemma xyz_layout_inv (lines : list string) :
  xyz_layout lines = true →
  ∃ line0 rest n,
    lines = line0 :: rest ∧ py_int line0 = Some n ∧ 0 ≤ n
    ∧ Z.of_nat (length rest) = n + 4.
Proof.
  unfold xyz_layout. destruct lines as [|line0 rest]; [done|].
  change (head (line0 :: rest) ≫= py_int) with (py_int line0).
  destruct (py_int line0) as [n|] eqn:Hint; [|done].
  intros [[Hn Hlen]%andb_true_iff _]%andb_true_iff.
  apply Z.leb_le in Hn. apply Z.eqb_eq in Hlen. rewrite length_cons in Hlen.
  exists line0, rest, n. repeat split; [done|lia..].
Qed.

Lemma read_lines_app (l1 l2 : list string) (i : Z) (st : xyz_fields) :
  read_lines i (l1 ++ l2) st =
  read_lines i l1 st ≫= read_lines (i + Z.of_nat (length l1)) l2.
Proof.
  revert i st. induction l1 as [|line l1 IH]; intros i st; simpl.
  - by rewrite Z.add_0_r.
  - destruct (read_line i line st) as [st1|e]; simpl; [|done].
    rewrite IH. by replace (i + 1 + Z.of_nat (length l1))
      with (i + Z.pos (Pos.of_succ_nat (length l1))) by lia.
Qed.

Lemma read_line_ignored (i : Z) (line : string) (st : xyz_fields) :
  2 ≤ i → num_atoms st + 4 < i → read_line i line st = Ok st.
Proof.
  intros Hi Hn. unfold read_line.
  destruct (Z.eqb_spec i 0); [lia|]. destruct (Z.eqb_spec i 1); [lia|].
  destruct (Z.leb_spec i (1 + num_atoms st)); [lia|].
  rewrite andb_false_r.
  destruct (Z.eqb_spec i (num_atoms st + 2)); [lia|].
  destruct (Z.eqb_spec i (num_atoms st + 3)); [lia|].
  destruct (Z.eqb_spec i (num_atoms st + 4)); [lia|]. done.
Qed.

Lemma read_lines_ignored (lines : list string) (i : Z) (st : xyz_fields) :
  2 ≤ i → num_atoms st + 4 < i → read_lines i lines st = Ok st.
Proof.
  revert i. induction lines as [|line lines IH]; intros i Hi Hn; simpl; [done|].
  rewrite read_line_ignored by done. simpl. apply IH; lia.
Qed.

Lemma read_line_short (i : Z) (line : string) (st : xyz_fields) :
  2 ≤ i ≤ 1 + num_atoms st → length (split_ws line) ≠ 5%nat →
  read_line i line st = Raise ValueError.
Proof.
  intros Hi Hlen. unfold read_line.
  destruct (Z.eqb_spec i 0); [lia|]. destruct (Z.eqb_spec i 1); [lia|].
  destruct (Z.leb_spec 2 i); [|lia].
  destruct (Z.leb_spec i (1 + num_atoms st)); [|lia]. simpl.
  by destruct (split_ws line) as [|? [|? [|? [|? [|? [|]]]]]].
Qed.

End parse.

Section parse_files.
Context {B : Builtins} {T : Toolkit} {F : Files}.

(** On a file that opens and is read to its end, [parse_xyz_file] is
    [parse_xyz] on the lines of the file. *)
Lemma parse_xyz_file_decoded (filename : string) (f : text_stream)
    (max_ring_size : Z) (npscorer_model : option NPModel)
    (array_format : string) :
  open_text filename = Ok f → stream_error f = None →
  parse_xyz_file filename max_ring_size npscorer_model array_format
  = parse_xyz (stream_lines f) max_ring_size npscorer_model array_format.
Proof.
  intros Hopen Herr. unfold parse_xyz_file, parse_xyz.
  destruct (assert_array_format array_format); simpl; [|done].
  rewrite Hopen. simpl. unfold read_stream. rewrite Herr.
  by destruct (read_lines 0 (stream_lines f) xyz_fields_init).
Qed.

(** A row comes only from a file that opens and is read to its end, and it
    is the row that [parse_xyz] makes of the lines of the file: what is
    proved of the rows of [parse_xyz] holds of the rows of
    [parse_xyz_file]. *)
Lemma parse_xyz_file_Ok (filename : string) (max_ring_size : Z)
    (npscorer_model : option NPModel) (array_format : string)
    (row : gmap string Value) :
  parse_xyz_file filename max_ring_size npscorer_model array_format
  = Ok row →
  ∃ f, open_text filename = Ok f ∧ stream_error f = None
       ∧ parse_xyz (stream_lines f) max_ring_size npscorer_model
           array_format = Ok row.
Proof.
  intros Hrow. pose proof Hrow as Hfile. unfold parse_xyz_file in Hfile.
  apply bind_Ok in Hfile as (u & _ & Hfile).
  apply bind_Ok in Hfile as (f & Hopen & Hfile).
  apply bind_Ok in Hfile as (st & Hstream & _).
  unfold read_stream in Hstream.
  apply bind_Ok in Hstream as (st' & _ & Herr).
  destruct (stream_error f) eqn:He; [done|].
  exists f. split; [done|]. split; [done|].
  by rewrite <-(parse_xyz_file_decoded _ _ _ _ _ Hopen He).
Qed.

(** An exception of the reading loop over the file is the exception of
    [parse_xyz_file]. *)
Lemma parse_xyz_file_read_error (filename : string) (f : text_stream)
    (e : exn) (max_ring_size : Z) (npscorer_model : option NPModel)
    (array_format : string) :
  array_format ∈ ["np"; "pt"] →
  open_text filename = Ok f → read_stream f = Raise e →
  parse_xyz_file filename max_ring_size npscorer_model array_format
  = Raise e.
Proof.
  intros Hfmt Hopen Hread. unfold parse_xyz_file, assert_array_format.
  rewrite bool_decide_eq_true_2 by done. simpl. rewrite Hopen. simpl.
  by rewrite Hread.
Qed.

Lemma read_stream_line_error (f : text_stream) (e : exn) :
  read_lines 0 (stream_lines f) xyz_fields_init = Raise e →
  read_stream f = Raise e.
Proof. intros Hread. unfold read_stream. by rewrite Hread. Qed.

Lemma read_stream_error (f : text_stream) (st : xyz_fields) (e : exn) :
  read_lines 0 (stream_lines f) xyz_fields_init = Ok st →
  stream_error f = Some e →
  read_stream f = Raise e.
Proof. intros Hread Herr. unfold read_stream. by rewrite Hread, Herr. Qed.

(** Lines after line [N + 4] change nothing in what [parse_xyz] makes of
    the lines of a file. *)
Lemma parse_xyz_ignores_trailing (lines extra : list string) (n : Z)
    (max_ring_size : Z) (npscorer_model : option NPModel)
    (array_format : string) :
  head lines ≫= py_int = Some n → 0 ≤ n →
  n + 5 ≤ Z.of_nat (length lines) →
  parse_xyz (lines ++ extra) max_ring_size npscorer_model array_format
  = parse_xyz lines max_ring_size npscorer_model array_format.
Proof.
  intros Hhead Hn Hlen. unfold parse_xyz.
  destruct (assert_array_format array_format); simpl; [|done].
  rewrite read_lines_app.
  destruct (read_lines 0 lines xyz_fields_init) as [st|e] eqn:Hread;
    simpl; [|done].
  rewrite read_lines_ignored; [done|lia|].
  apply read_lines_file in Hread
    as [[-> _]|(line0 & rest & -> & Hint & _)]; [done|].
  simpl in Hhead. rewrite Hint in Hhead. injection Hhead as ->. lia.
Qed.

End parse_files.

Section parse_claims.
Context {B : Builtins} {T : Toolkit} {F : Files}.

(** Claim C4. For every file in the layout that [parse_xyz] turns into a
    row, the number [int] reads on line 0 is the row's [num_atoms] and the
    length of its [atomic_symbols], of its [pos] and of its [charges]. *)
Theorem parse_xyz_atom_count (lines : list string) (max_ring_size : Z)
    (npscorer_model : option NPModel) (array_format : string)
    (row : gmap string Value) :
  xyz_layout lines = true →
  parse_xyz lines max_ring_size npscorer_model array_format = Ok row →
  ∃ n, head lines ≫= py_int = Some n
       ∧ row !! "num_atoms" = Some (VInt n)
       ∧ row !! "atomic_symbols" ≫= py_len = Some n
       ∧ row !! "pos" ≫= py_len = Some n
       ∧ row !! "charges" ≫= py_len = Some n.
Proof.
  intros (line0 & rest & n & -> & Hint & Hn & Hlen)%xyz_layout_inv.
  intros (_ & st & cs & m & logP & q & np & sa & Hread & _ & ->)%parse_xyz_Ok.
  apply read_lines_file in Hread as [[[=] _]|(? & ? & [= <- <-] & Hint' & Hatoms)].
  assert (num_atoms st = n) as Hst by congruence.
  rewrite Hst, Hlen in Hatoms.
  replace (atom_lines 1 (n + 4) n) with n in Hatoms
    by (unfold atom_lines; lia).
  destruct Hatoms as (Hs & Hx & Hc).
  destruct (base_row_atoms np_array st) as (Rn & Rs & Rx & Rc).
  exists n. split; [done|].
  rewrite !assemble_lookup_base, Rn, Rs, Rx, Rc;
    try (apply result_other_key; [done|not_in_list]); try not_in_list.
  simpl. by rewrite Hst, Hs, Hx, Hc.
Qed.

(** Claim C8. A row returned by [parse_xyz] has no [np_score] key when
    [npscorer_model] is [None], and has one, holding a score, when a model is
    supplied. *)
Theorem np_score_iff_model (lines : list string) (max_ring_size : Z)
    (npscorer_model : option NPModel) (array_format : string)
    (row : gmap string Value) :
  parse_xyz lines max_ring_size npscorer_model array_format = Ok row →
  (npscorer_model = None → row !! "np_score" = None)
  ∧ (is_Some npscorer_model → ∃ x, row !! "np_score" = Some (VFloat x)).
Proof.
  intros (_ & st & cs & m & logP & q & np & sa & _ & Hnp & ->)%parse_xyz_Ok.
  rewrite assemble_np_score. split.
  - intros Hmodel. apply Hnp in Hmodel as ->. done.
  - intros [model ->]. destruct np as [x|]; [by exists x|].
    by destruct Hnp as [Hnp _]; specialize (Hnp eq_refl).
Qed.

(** Claim C10. The entry assertion accepts [array_format='pt']; on every
    file the reading loop accepts, [parse_xyz] with ['pt'] then raises
    [NameError]; it returns a row for no file at all; and whenever
    [parse_xyz] returns a row, [array_format] was ['np']. *)
Theorem parse_xyz_pt_NameError :
  assert_array_format "pt" = Ok ()
  ∧ (∀ lines max_ring_size npscorer_model st,
       read_lines 0 lines xyz_fields_init = Ok st →
       parse_xyz lines max_ring_size npscorer_model "pt" = Raise NameError)
  ∧ (∀ lines max_ring_size npscorer_model row,
       parse_xyz lines max_ring_size npscorer_model "pt" ≠ Ok row)
  ∧ (∀ lines max_ring_size npscorer_model array_format row,
       parse_xyz lines max_ring_size npscorer_model array_format = Ok row →
       array_format = "np").
Proof.
  split; [done|]. split; [|split].
  - intros lines max_ring_size npscorer_model st Hst. unfold parse_xyz.
    simpl. by rewrite Hst.
  - intros lines max_ring_size npscorer_model row Hrow.
    by apply parse_xyz_Ok in Hrow as [? _].
  - intros lines max_ring_size npscorer_model array_format row Hrow.
    by apply parse_xyz_Ok in Hrow as [? _].
Qed.

(** Claim C2, as amended. [parse_xyz] has no layout check of its own. With
    an accepted [array_format], on a file that opens, it raises [ValueError]
    when the line 0 it is given is not an integer, and when the lines before
    an atom line are read without error and that atom line does not split
    into exactly five fields. Lines after line [N + 4] are decoded and not
    looked at: when the file and the file without them both decode to their
    end, the two give the same result. When the lines yielded are read
    without error and the iteration over the file then ends with an
    exception, as it does at bytes that do not decode, [parse_xyz] raises
    that exception. *)
Theorem parse_xyz_layout_errors (max_ring_size : Z)
    (npscorer_model : option NPModel) (array_format : string) :
  (∀ filename f line0 rest,
     array_format ∈ ["np"; "pt"] →
     open_text filename = Ok f → stream_lines f = line0 :: rest →
     py_int line0 = None →
     parse_xyz_file filename max_ring_size npscorer_model array_format
     = Raise ValueError)
  ∧ (∀ filename f before line after st,
       array_format ∈ ["np"; "pt"] →
       open_text filename = Ok f →
       stream_lines f = before ++ line :: after →
       read_lines 0 before xyz_fields_init = Ok st →
       2 ≤ Z.of_nat (length before) ≤ 1 + num_atoms st →
       length (split_ws line) ≠ 5%nat →
       parse_xyz_file filename max_ring_size npscorer_model array_format
       = Raise ValueError)
  ∧ (∀ filename filename' lines extra n,
       open_text filename
       = Ok {| stream_lines := lines; stream_error := None |} →
       open_text filename'
       = Ok {| stream_lines := lines ++ extra; stream_error := None |} →
       head lines ≫= py_int = Some n → 0 ≤ n →
       n + 5 ≤ Z.of_nat (length lines) →
       parse_xyz_file filename' max_ring_size npscorer_model array_format
       = parse_xyz_file filename max_ring_size npscorer_model array_format)
  ∧ (∀ filename f st e,
       array_format ∈ ["np"; "pt"] →
       open_text filename = Ok f →
       read_lines 0 (stream_lines f) xyz_fields_init = Ok st →
       stream_error f = Some e →
       parse_xyz_file filename max_ring_size npscorer_model array_format
       = Raise e).
Proof.
  split; [|split; [|split]].
  - intros filename f line0 rest Hfmt Hopen Hlines Hint.
    apply (parse_xyz_file_read_error _ f); [done..|].
    apply read_stream_line_error. rewrite Hlines. simpl.
    unfold read_line. simpl. by rewrite Hint.
  - intros filename f before line after st Hfmt Hopen Hlines Hbefore Hlen
      Hline.
    apply (parse_xyz_file_read_error _ f); [done..|].
    apply read_stream_line_error.
    rewrite Hlines, read_lines_app, Hbefore. simpl.
    by rewrite read_line_short.
  - intros filename filename' lines extra n Hopen Hopen' Hhead Hn Hlen.
    rewrite (parse_xyz_file_decoded _ _ _ _ _ Hopen eq_refl).
    rewrite (parse_xyz_file_decoded _ _ _ _ _ Hopen' eq_refl). simpl.
    by apply (parse_xyz_ignores_trailing _ _ n).
  - intros filename f st e Hfmt Hopen Hread Herr.
    apply (parse_xyz_file_read_error _ f); [done..|].
    by apply (read_stream_error _ st).
Qed.

(** Claim C3, as amended. The parsing loop has no error handling: when
    every file parses, it appends one row per file; when the files before a
    file parse and that file makes [parse_xyz] raise, the loop stops there
    with that exception, having appended the rows of the files before it and
    none for the files after it. *)
Theorem parsing_loop_stops_at_first_error
    (good : list (list string)) (parsed_xyz : list (gmap string Value)) :
  Forall (λ file, ∃ row,
            parse_xyz file MAX_RING_SIZE (Some readNPModel) "np" = Ok row)
         good →
  (∃ rows, parsing_loop good parsed_xyz = (parsed_xyz ++ rows, None)
           ∧ length rows = length good)
  ∧ (∀ bad rest e,
       parse_xyz bad MAX_RING_SIZE (Some readNPModel) "np" = Raise e →
       ∃ rows, parsing_loop (good ++ bad :: rest) parsed_xyz
               = (parsed_xyz ++ rows, Some e)
               ∧ length rows = length good).
Proof.
  intros Hgood. revert parsed_xyz.
  induction Hgood as [|file good [row Hrow] Hgood IH]; intros parsed_xyz.
  - split.
    + exists []. by rewrite app_nil_r.
    + intros bad rest e Hbad. exists []. simpl. by rewrite Hbad, app_nil_r.
  - destruct (IH (parsed_xyz ++ [row])) as [(rows & Hloop & Hlen) Hstop].
    split.
    + exists (row :: rows). simpl. rewrite Hrow, Hloop, <-app_assoc.
      simpl. by rewrite Hlen.
    + intros bad rest e Hbad.
      destruct (Hstop bad rest e Hbad) as (rows' & Hloop' & Hlen').
      exists (row :: rows'). simpl. rewrite Hrow, Hloop', <-app_assoc.
      simpl. by rewrite Hlen'.
Qed.

End parse_claims.

Lemma parse_xyz_atom_count_witness :
  ∃ row,
    xyz_layout (B := plain_builtins) methane_xyz = true
    ∧ parse_xyz (B := plain_builtins) (T := table_toolkit) methane_xyz
        MAX_RING_SIZE (Some ()) "np" = Ok row
    ∧ head methane_xyz ≫= py_int (Builtins := plain_builtins) = Some 5
    ∧ row !! "num_atoms" = Some (VInt 5)
    ∧ row !! "atomic_symbols" ≫= py_len = Some 5
    ∧ row !! "pos" ≫= py_len = Some 5
    ∧ row !! "charges" ≫= py_len = Some 5.
Proof.
  destruct (is_Ok_true (parse_xyz (B := plain_builtins) (T := table_toolkit)
                          methane_xyz MAX_RING_SIZE (Some ()) "np"))
    as [row Hrow]; [vm_compute; reflexivity|].
  destruct (parse_xyz_atom_count (B := plain_builtins) (T := table_toolkit)
              methane_xyz MAX_RING_SIZE (Some ()) "np" row eq_refl Hrow)
    as (n & Hline0 & Hn).
  assert (n = 5) as -> by (vm_compute in Hline0; congruence).
  exists row. split; [reflexivity|]. split; [exact Hrow|].
  split; [reflexivity|exact Hn].
Defined.

Lemma np_score_iff_model_witness :
  ∃ row_with row_without x,
    parse_xyz (B := plain_builtins) (T := table_toolkit) methane_xyz
      MAX_RING_SIZE (Some ()) "np" = Ok row_with
    ∧ row_with !! "np_score" = Some (VFloat x)
    ∧ parse_xyz (B := plain_builtins) (T := table_toolkit) methane_xyz
        MAX_RING_SIZE None "np" = Ok row_without
    ∧ row_without !! "np_score" = None.
Proof.
  destruct (is_Ok_true (parse_xyz (B := plain_builtins) (T := table_toolkit)
                          methane_xyz MAX_RING_SIZE (Some ()) "np"))
    as [row_with Hwith]; [vm_compute; reflexivity|].
  destruct (is_Ok_true (parse_xyz (B := plain_builtins) (T := table_toolkit)
                          methane_xyz MAX_RING_SIZE None "np"))
    as [row_without Hwithout]; [vm_compute; reflexivity|].
  destruct (np_score_iff_model (B := plain_builtins) (T := table_toolkit)
              _ _ _ _ _ Hwith) as [_ Hsome].
  destruct (np_score_iff_model (B := plain_builtins) (T := table_toolkit)
              _ _ _ _ _ Hwithout) as [Hnone _].
  destruct Hsome as [x Hx]; [by eexists|].
  exists row_with, row_without, x.
  split; [exact Hwith|]. split; [exact Hx|]. split; [exact Hwithout|].
  apply Hnone. reflexivity.
Defined.

Lemma parse_xyz_pt_NameError_witness :
  parse_xyz (B := plain_builtins) (T := table_toolkit) methane_xyz
    MAX_RING_SIZE (Some ()) "pt" = Raise NameError.
Proof.
  destruct (parse_xyz_pt_NameError (B := plain_builtins) (T := table_toolkit))
    as (_ & Hpt & _).
  destruct (is_Ok_true (read_lines (B := plain_builtins) 0 methane_xyz
                          xyz_fields_init))
    as [st Hst]; [vm_compute; reflexivity|].
  exact (Hpt methane_xyz MAX_RING_SIZE (Some ()) st Hst).
Defined.

Lemma parse_xyz_layout_errors_witness :
  parse_xyz_file (B := plain_builtins) (T := table_toolkit)
    (F := table_files) "short_atom_line.xyz" MAX_RING_SIZE (Some ()) "np"
  = Raise ValueError
  ∧ parse_xyz_file (B := plain_builtins) (T := table_toolkit)
      (F := table_files) "extra_line.xyz" MAX_RING_SIZE (Some ()) "np"
    = parse_xyz_file (B := plain_builtins) (T := table_toolkit)
        (F := table_files) "dsgdb9nsd_000001.xyz" MAX_RING_SIZE (Some ())
        "np"
  ∧ parse_xyz_file (B := plain_builtins) (T := table_toolkit)
      (F := table_files) "undecodable_trailing_line.xyz" MAX_RING_SIZE
      (Some ()) "np"
    = Raise UnicodeDecodeError.
Proof.
  destruct (parse_xyz_layout_errors (B := plain_builtins)
              (T := table_toolkit) (F := table_files) MAX_RING_SIZE
              (Some ()) "np")
    as (_ & Hshort & Hextra & Hdecode).
  split; [|split].
  - destruct (fmap_Ok num_atoms
                (read_lines (B := plain_builtins) 0 (take 3 methane_xyz)
                   xyz_fields_init) 5)
      as (st & Hst & Hn); [vm_compute; reflexivity|].
    apply (Hshort "short_atom_line.xyz"
             {| stream_lines := methane_xyz_short_atom_line;
                stream_error := None |}
             (take 3 methane_xyz) "H 0.00215 -0.006 0.002"
             (drop 4 methane_xyz) st).
    + repeat constructor.
    + reflexivity.
    + reflexivity.
    + exact Hst.
    + rewrite Hn. simpl. lia.
    + vm_compute. lia.
  - apply (Hextra "dsgdb9nsd_000001.xyz" "extra_line.xyz" methane_xyz
             ["trailing text"] 5).
    + reflexivity.
    + reflexivity.
    + reflexivity.
    + lia.
    + simpl. lia.
  - apply (Hdecode "undecodable_trailing_line.xyz"
             {| stream_lines := [];
                stream_error := Some UnicodeDecodeError |}
             xyz_fields_init UnicodeDecodeError).
    + repeat constructor.
    + reflexivity.
    + reflexivity.
    + reflexivity.
Defined.

(** Claim C2 as stated fails: this file has one line too many, so it is not
    in the layout, and it is parsed into a row all the same. *)
Lemma parse_xyz_accepts_extra_line :
  xyz_layout (B := plain_builtins) methane_xyz_extra_line = false
  ∧ is_Ok (parse_xyz (B := plain_builtins) (T := table_toolkit)
             methane_xyz_extra_line MAX_RING_SIZE (Some ()) "np") = true.
Proof. split; vm_compute; reflexivity. Qed.

Lemma parsing_loop_stops_at_first_error_witness :
  ∃ rows,
    parsing_loop (B := plain_builtins) (T := table_toolkit)
      ([methane_xyz; methane_xyz] ++ methane_xyz_short_atom_line
         :: [methane_xyz]) []
    = ([] ++ rows, Some ValueError)
    ∧ length rows = 2%nat.
Proof.
  assert (∃ row, parse_xyz (B := plain_builtins) (T := table_toolkit)
                   methane_xyz MAX_RING_SIZE (Some ()) "np" = Ok row)
    as Hgood by (apply is_Ok_true; vm_compute; reflexivity).
  destruct (parsing_loop_stops_at_first_error (B := plain_builtins)
              (T := table_toolkit) [methane_xyz; methane_xyz] []
              ltac:(repeat constructor; exact Hgood)) as [_ Hstop].
  apply Hstop. apply raised_Some. vm_compute. reflexivity.
Defined.

(** Claim C3 as stated fails: of these ten files nine are parsed into a row
    and one, the fifth, is malformed; the loop stops at the malformed one
    with [ValueError], having appended four rows. *)
Lemma parsing_loop_aborts_on_bad_file :
  length ten_files = 10%nat
  ∧ length (filter
              (λ file, is_Ok (parse_xyz (B := plain_builtins)
                                (T := table_toolkit) file MAX_RING_SIZE
                                (Some ()) "np") = true)
              ten_files) = 9%nat
  ∧ snd (parsing_loop (B := plain_builtins) (T := table_toolkit)
           ten_files []) = Some ValueError
  ∧ length (fst (parsing_loop (B := plain_builtins) (T := table_toolkit)
                   ten_files [])) = 4%nat.
Proof. repeat split; vm_compute; reflexivity. Qed.

(** * Further properties *)

(** ** The tokenizer *)

Lemma join_app (t1 t2 : list string) :
  join "" (t1 ++ t2) = join "" t1 +:+ join "" t2.
Proof.
  induction t1 as [|t t1 IH]; [done|].
  rewrite <-app_comm_cons, !join_cons, IH.
  generalize (join "" t1) (join "" t2). intros a b.
  induction t as [|c t IHt]; simpl; [done|]. by rewrite IHt.
Qed.

Lemma join_length (tokens : list string) :
  Forall (λ t, t ≠ "") tokens →
  (length tokens ≤ String.length (join "" tokens))%nat.
Proof.
  induction 1 as [|t tokens Ht _ IH]; [done|].
  rewrite join_cons, str_length_app. destruct t; [done|]. simpl. lia.
Qed.

(** Property X1. For every list of grammar tokens, tokenizing their
    concatenation gives the list back; so two token lists with the same
    concatenation are the same list. *)
Theorem tokenizer_inverts_join :
  (∀ tokens, Forall (λ t, smiles_token t = true) tokens →
             smi_tokenizer (join "" tokens) = Ok tokens)
  ∧ (∀ tokens1 tokens2,
       Forall (λ t, smiles_token t = true) tokens1 →
       Forall (λ t, smiles_token t = true) tokens2 →
       join "" tokens1 = join "" tokens2 → tokens1 = tokens2).
Proof.
  split; [apply smi_tokenizer_tokens|].
  intros tokens1 tokens2 H1 H2 Hjoin.
  apply smi_tokenizer_tokens in H1, H2. rewrite Hjoin in H1. congruence.
Qed.

Lemma tokenizer_inverts_join_witness :
  smi_tokenizer (join "" ["C"; "Cl"; "[13CH3]"; "%10"; "Br"])
  = Ok ["C"; "Cl"; "[13CH3]"; "%10"; "Br"].
Proof.
  apply (proj1 tokenizer_inverts_join). repeat constructor.
Defined.

(** Property X2. Every token the tokenizer returns is a non-empty token
    of the grammar, and there are at most as many tokens as the input has
    characters. *)
Theorem tokenizer_tokens_in_grammar (s : string) (tokens : list string) :
  smi_tokenizer s = Ok tokens →
  Forall (λ t, smiles_token t = true ∧ t ≠ "") tokens
  ∧ (length tokens ≤ String.length s)%nat.
Proof.
  intros [Hjoin ->]%smi_tokenizer_Ok.
  assert (Forall (λ t, smiles_token t = true ∧ t ≠ "") (findall s)) as Hall.
  { eapply Forall_impl; [apply findall_go_all_tokens|].
    intros t Ht. split; [done|]. by apply smiles_token_head in Ht as [? _]. }
  split; [done|]. rewrite <-Hjoin at 2. apply join_length.
  eapply Forall_impl; [exact Hall|]. by intros t [_ ?].
Qed.

Lemma tokenizer_tokens_in_grammar_witness :
  Forall (λ t, smiles_token t = true ∧ t ≠ "") ["C"; "C"; "O"]
  ∧ (length ["C"; "C"; "O"] ≤ String.length "CCO")%nat.
Proof. exact (tokenizer_tokens_in_grammar "CCO" ["C"; "C"; "O"] eq_refl). Defined.

(** Property X3. Tokenizing the concatenation of two accepted strings
    gives the tokens of the first followed by the tokens of the second. *)
Theorem tokenizer_concat (s1 s2 : string) (tokens1 tokens2 : list string) :
  smi_tokenizer s1 = Ok tokens1 → smi_tokenizer s2 = Ok tokens2 →
  smi_tokenizer (s1 +:+ s2) = Ok (tokens1 ++ tokens2).
Proof.
  intros [Hj1 ->]%smi_tokenizer_Ok [Hj2 ->]%smi_tokenizer_Ok.
  rewrite <-Hj1 at 1. rewrite <-Hj2 at 1. rewrite <-join_app.
  apply smi_tokenizer_tokens. apply Forall_app.
  split; apply findall_go_all_tokens.
Qed.

Lemma tokenizer_concat_witness :
  smi_tokenizer ("CCBr" +:+ ".[Na+]") = Ok (["C"; "C"; "Br"] ++ ["."; "[Na+]"]).
Proof. exact (tokenizer_concat "CCBr" ".[Na+]" _ _ eq_refl eq_refl). Defined.

Ltac in_alphabet := apply (bool_decide_unpack _); vm_compute; exact I.

Lemma chars_app (s1 s2 : string) :
  list_ascii_of_string (s1 +:+ s2)
  = list_ascii_of_string s1 ++ list_ascii_of_string s2.
Proof. induction s1 as [|c s1 IH]; simpl; [done|]. by rewrite IH. Qed.

Lemma chars_join (tokens : list string) (c : ascii) :
  c ∈ list_ascii_of_string (join "" tokens) ↔
  ∃ t, t ∈ tokens ∧ c ∈ list_ascii_of_string t.
Proof.
  induction tokens as [|t tokens IH].
  - simpl. split; [by intros ?%elem_of_nil|]. by intros (? & ?%elem_of_nil & _).
  - rewrite join_cons, chars_app, elem_of_app, IH. split.
    + intros [?|(t' & ? & ?)]; [exists t|exists t']; split; try done;
        [left|by right].
    + intros (t' & [->|?]%elem_of_cons & ?); [by left|right]. by exists t'.
Qed.

Lemma token_chars (t : string) (c : ascii) :
  smiles_token t = true → c ∈ list_ascii_of_string t →
  "["%char ∈ list_ascii_of_string t ∨ c ∈ plain_alphabet.
Proof.
  unfold smiles_token. rewrite !orb_true_iff. intros [[[Hb|Hs]|Hd]|Hp] Hc.
  - left. destruct t as [|c' body]; [done|].
    destruct (Ascii.eqb_spec c' "["); [subst; left|].
    by destruct c' as [[] [] [] [] [] [] [] []].
  - right. apply bool_decide_eq_true in Hs.
    repeat (apply elem_of_cons in Hs as [->|Hs]);
      try (by apply elem_of_nil in Hs);
      simpl in Hc;
      repeat (apply elem_of_cons in Hc as [->|Hc]);
      try (by apply elem_of_nil in Hc);
      in_alphabet.
  - right. destruct t as [|d [|]]; try done. simpl in Hd, Hc.
    apply list_elem_of_singleton in Hc as ->.
    apply is_digit_cases in Hd.
    repeat (apply elem_of_cons in Hd as [->|Hd]);
      try (by apply elem_of_nil in Hd); in_alphabet.
  - right. destruct t as [|c0 t]; [done|].
    destruct (Ascii.eqb_spec c0 "%"); [subst c0|by destruct c0 as [[] [] [] [] [] [] [] []]].
    destruct t as [|d1 [|d2 [|]]]; try done.
    simpl in Hp. apply andb_true_iff in Hp as [H1%is_digit_cases H2%is_digit_cases].
    simpl in Hc.
    repeat (apply elem_of_cons in Hc as [->|Hc]);
      try (by apply elem_of_nil in Hc); try in_alphabet.
    + repeat (apply elem_of_cons in H1 as [->|H1]);
        try (by apply elem_of_nil in H1); in_alphabet.
    + repeat (apply elem_of_cons in H2 as [->|H2]);
        try (by apply elem_of_nil in H2); in_alphabet.
Qed.

(** Property X4. An accepted string with no opening bracket in it
    consists of characters of the plain alphabet only: outside bracketed
    atoms the tokenizer accepts no whitespace, no [H], no other letter. *)
Theorem tokenizer_plain_alphabet (s : string) (tokens : list string) :
  smi_tokenizer s = Ok tokens →
  "["%char ∉ list_ascii_of_string s →
  Forall (λ c, c ∈ plain_alphabet) (list_ascii_of_string s).
Proof.
  intros Hs Hopen. pose proof Hs as [Hjoin ->]%smi_tokenizer_Ok.
  apply Forall_forall. intros c Hc. rewrite <-Hjoin in Hc, Hopen.
  apply chars_join in Hc as (t & Ht & Hc).
  pose proof (findall_go_all_tokens (String.length s) s) as Hall.
  rewrite Forall_forall in Hall. specialize (Hall t Ht).
  destruct (token_chars t c Hall Hc) as [Hin|?]; [|done].
  exfalso. apply Hopen. apply chars_join. by exists t.
Qed.

Lemma tokenizer_plain_alphabet_witness :
  Forall (λ c, c ∈ plain_alphabet) (list_ascii_of_string "C=C(Cl)C#N").
Proof.
  apply (tokenizer_plain_alphabet "C=C(Cl)C#N"
           ["C"; "="; "C"; "("; "Cl"; ")"; "C"; "#"; "N"] eq_refl).
  vm_compute. intros Hin.
  repeat (apply elem_of_cons in Hin as [Hin|Hin]; [discriminate Hin|]).
  by apply elem_of_nil in Hin.
Defined.

(** ** [count_rings_and_bonds] *)

Section more_counts.
Context {T : Toolkit}.

Lemma result_lookup_Some (mol : Mol) (max_ring_size : Z) (j : string) (v : Z) :
  count_rings_and_bonds mol max_ring_size !! j = Some v →
  j ∈ count_keys ∨ ∃ k, j = ring_key k.
Proof.
  rewrite count_rings_and_bonds_eq.
  intros [Hb|[_ [Hr|[_ Hc]]%lookup_union_Some_raw]]%lookup_union_Some_raw.
  - left. rewrite bond_keys_lookup in Hb.
    repeat case_decide; subst; try done; set_solver.
  - right. apply lookup_kmap_Some in Hr as (k & -> & _); [|apply _].
    by exists k.
  - left. apply lookup_singleton_Some in Hc as [<- _]. set_solver.
Qed.

Lemma result_count_keys (mol : Mol) (max_ring_size : Z) (j : string) :
  j ∈ count_keys → is_Some (count_rings_and_bonds mol max_ring_size !! j).
Proof.
  intros Hj. destruct (result_bond_keys mol max_ring_size) as (? & ? & ? & ?).
  pose proof (result_ring_count mol max_ring_size).
  repeat (apply elem_of_cons in Hj as [->|Hj]); try by eexists.
  by apply elem_of_nil in Hj.
Qed.

(** Property X5. The keys of a result are the five count keys and [R<k>]
    for the sizes [k] from 3 to [max_ring_size] and for the sizes of the
    molecule's rings, and no other. So two molecules whose rings all have a
    size in that range get results with the same keys, and a molecule with a
    ring of a size outside it gets a key that a molecule with no ring of that
    size does not get. *)
Theorem count_result_keys (mol : Mol) (max_ring_size : Z) :
  (∀ j, is_Some (count_rings_and_bonds mol max_ring_size !! j) ↔
        j ∈ count_keys
        ∨ ∃ k, j = ring_key k
               ∧ (3 ≤ k ≤ max_ring_size
                  ∨ ∃ ring, ring ∈ GetSymmSSSR mol
                            ∧ Z.of_nat (length ring) = k))
  ∧ (∀ mol',
       Forall (λ ring, 3 ≤ Z.of_nat (length ring) ≤ max_ring_size)
         (GetSymmSSSR mol) →
       Forall (λ ring, 3 ≤ Z.of_nat (length ring) ≤ max_ring_size)
         (GetSymmSSSR mol') →
       dom (count_rings_and_bonds mol max_ring_size)
       = dom (count_rings_and_bonds mol' max_ring_size))
  ∧ (∀ mol' ring,
       ring ∈ GetSymmSSSR mol →
       ¬ 3 ≤ Z.of_nat (length ring) ≤ max_ring_size →
       Forall (λ ring', length ring' ≠ length ring) (GetSymmSSSR mol') →
       dom (count_rings_and_bonds mol max_ring_size)
       ≠ dom (count_rings_and_bonds mol' max_ring_size)).
Proof.
  assert (∀ mol j, is_Some (count_rings_and_bonds mol max_ring_size !! j) ↔
        j ∈ count_keys
        ∨ ∃ k, j = ring_key k
               ∧ (3 ≤ k ≤ max_ring_size
                  ∨ ∃ ring, ring ∈ GetSymmSSSR mol
                            ∧ Z.of_nat (length ring) = k)) as Hkeys.
  { intros m j. split.
    - intros [v Hv]. destruct (result_lookup_Some _ _ _ _ Hv) as [?|[k ->]];
        [by left|right]. exists k. split; [done|].
      rewrite result_ring_key in Hv. case_decide as Hk; [|done].
      destruct Hk as [?|Hk]; [by left|right]. apply rings_of_size_pos.
      pose proof (rings_of_size_nonneg k (GetSymmSSSR m)). lia.
    - intros [Hj|(k & -> & Hk)]; [by apply result_count_keys|].
      rewrite result_ring_key. rewrite decide_True; [by eexists|].
      destruct Hk as [?|Hk%rings_of_size_pos]; [by left|right; lia]. }
  split; [apply Hkeys|]. split.
  - intros mol' Hmol Hmol'. apply set_eq. intros j.
    rewrite !elem_of_dom, !Hkeys. rewrite Forall_forall in Hmol, Hmol'.
    split.
    + intros [?|(k & -> & [?|(ring & Hin & <-)])]; [by left|..];
        right; eexists; (split; [done|left]); auto.
    + intros [?|(k & -> & [?|(ring & Hin & <-)])]; [by left|..];
        right; eexists; (split; [done|left]); auto.
  - intros mol' ring Hring Hout Hmol' Hdom.
    assert (ring_key (Z.of_nat (length ring))
            ∈ dom (count_rings_and_bonds mol' max_ring_size)) as Hin.
    { rewrite <-Hdom, elem_of_dom, Hkeys. right. eexists. split; [done|].
      right. by exists ring. }
    rewrite elem_of_dom, Hkeys in Hin.
    destruct Hin as [Hin|(k & Hk & [?|(ring' & Hin' & <-)])].
    + repeat (apply elem_of_cons in Hin as [Hin|Hin]; [discriminate Hin|]).
      by apply elem_of_nil in Hin.
    + apply (inj ring_key) in Hk as <-. done.
    + apply (inj ring_key) in Hk. rewrite Forall_forall in Hmol'.
      apply (Hmol' ring' Hin'). lia.
Qed.

Lemma result_count_keys_frame (mol : Mol) (max1 max2 : Z) (j : string) :
  j ∈ count_keys →
  count_rings_and_bonds mol max1 !! j = count_rings_and_bonds mol max2 !! j.
Proof.
  intros Hj.
  destruct (result_bond_keys mol max1) as (? & ? & ? & ?).
  destruct (result_bond_keys mol max2) as (? & ? & ? & ?).
  pose proof (result_ring_count mol max1).
  pose proof (result_ring_count mol max2).
  repeat (apply elem_of_cons in Hj as [->|Hj]); try congruence.
  by apply elem_of_nil in Hj.
Qed.

(** Property X6. A larger [max_ring_size] only adds empty buckets: the
    result for the smaller maximum is contained in the result for the larger
    one, a key that only the larger one has is an [R<k>] with [k] at least 3
    and between the two maxima and holds 0, and two maxima below 3 give the
    same result. *)
Theorem max_ring_size_adds_zero_buckets (mol : Mol) (max1 max2 : Z) :
  max1 ≤ max2 →
  count_rings_and_bonds mol max1 ⊆ count_rings_and_bonds mol max2
  ∧ (∀ j v, count_rings_and_bonds mol max2 !! j = Some v →
            count_rings_and_bonds mol max1 !! j = None →
            v = 0 ∧ ∃ k, j = ring_key k ∧ 3 ≤ k ∧ max1 < k ≤ max2)
  ∧ (max2 < 3 →
     count_rings_and_bonds mol max1 = count_rings_and_bonds mol max2).
Proof.
  intros Hmax. split; [|split].
  - apply map_subseteq_spec. intros j v Hv.
    destruct (result_lookup_Some _ _ _ _ Hv) as [Hj|[k ->]].
    + by rewrite <-(result_count_keys_frame mol max1 max2).
    + rewrite result_ring_key in *. case_decide as Hk; [|done].
      rewrite decide_True; [done|]. destruct Hk; [left; lia|by right].
  - intros j v Hv Hnone.
    destruct (result_lookup_Some _ _ _ _ Hv) as [Hj|[k ->]].
    + rewrite (result_count_keys_frame mol max1 max2) in Hnone by done.
      congruence.
    + rewrite result_ring_key in *.
      case_decide as Hk2; [|done]. case_decide as Hk1; [done|].
      injection Hv as <-.
      pose proof (rings_of_size_nonneg k (GetSymmSSSR mol)).
      assert (rings_of_size k (GetSymmSSSR mol) = 0) as Hzero.
      { destruct (decide (rings_of_size k (GetSymmSSSR mol) = 0)); [done|].
        exfalso. apply Hk1. by right. }
      split; [done|]. exists k. split; [done|].
      destruct Hk2 as [?|?]; [|done]. split; [lia|]. split; [|lia].
      destruct (decide (k ≤ max1)); [|lia]. exfalso. apply Hk1. left. lia.
  - intros Hsmall. unfold count_rings_and_bonds.
    replace (ring_sizes_init max1) with (ring_sizes_init max2); [done|].
    apply map_eq. intros k. rewrite !ring_sizes_init_lookup.
    repeat case_decide; try done; lia.
Qed.

Lemma rings_of_size_sizes (k : Z) (ssr : list (list Z)) :
  rings_of_size k ssr
  = Z.of_nat (length (filter (λ n, Z.of_nat n = k) (length <$> ssr))).
Proof.
  unfold rings_of_size. f_equal.
  induction ssr as [|ring ssr IH]; [done|].
  rewrite fmap_cons, !filter_cons. case_decide; simpl; by rewrite IH.
Qed.

(** Property X7. The result depends on the ring sizes and on the bonds,
    not on the order in which the toolkit lists them. *)
Theorem count_permutation_invariant (mol1 mol2 : Mol) (max_ring_size : Z) :
  length <$> GetSymmSSSR mol1 ≡ₚ length <$> GetSymmSSSR mol2 →
  GetBonds mol1 ≡ₚ GetBonds mol2 →
  count_rings_and_bonds mol1 max_ring_size
  = count_rings_and_bonds mol2 max_ring_size.
Proof.
  intros Hrings Hbonds. rewrite !count_rings_and_bonds_eq.
  assert (∀ P `{!∀ b, Decision (P b)},
            count_bonds P (GetBonds mol1) = count_bonds P (GetBonds mol2))
    as Hcount.
  { intros P ?. unfold count_bonds. f_equal.
    apply Permutation_length. by apply (filter_Permutation P). }
  rewrite !Hcount. f_equal. f_equal.
  - f_equal. apply map_eq. intros k. rewrite !ring_sizes_lookup.
    rewrite !rings_of_size_sizes.
    assert (∀ l1 l2 : list nat, l1 ≡ₚ l2 →
              Z.of_nat (length (filter (λ n, Z.of_nat n = k) l1))
              = Z.of_nat (length (filter (λ n, Z.of_nat n = k) l2))) as Hperm.
    { intros l1 l2 Hl. f_equal. apply Permutation_length.
      by apply (filter_Permutation (λ n, Z.of_nat n = k)). }
    by rewrite (Hperm _ _ Hrings).
  - f_equal. apply Permutation_length in Hrings.
    rewrite !length_fmap in Hrings. by rewrite Hrings.
Qed.

(** Property X8. No count is negative; a ring bucket holds at most
    [ring_count] and a bond bucket at most the number of bonds. *)
Theorem count_values_bounds (mol : Mol) (max_ring_size : Z) (j : string)
    (v : Z) :
  count_rings_and_bonds mol max_ring_size !! j = Some v →
  0 ≤ v
  ∧ (is_ring_key j = true → v ≤ Z.of_nat (length (GetSymmSSSR mol)))
  ∧ (j ∈ ["single_bond"; "double_bond"; "triple_bond"; "aromatic_bond"] →
     v ≤ Z.of_nat (length (GetBonds mol))).
Proof.
  intros Hv.
  assert (∀ P `{!∀ b, Decision (P b)},
            0 ≤ count_bonds P (GetBonds mol) ≤ Z.of_nat (length (GetBonds mol)))
    as Hbonds.
  { intros P ?. unfold count_bonds.
    pose proof (length_filter P (GetBonds mol)). lia. }
  destruct (result_bond_keys mol max_ring_size) as (Hs & Hd & Ht & Ha).
  pose proof (result_ring_count mol max_ring_size) as Hc.
  destruct (result_lookup_Some _ _ _ _ Hv) as [Hj|[k ->]].
  - repeat (apply elem_of_cons in Hj as [->|Hj]);
      try (by apply elem_of_nil in Hj);
      rewrite ?Hs, ?Hd, ?Ht, ?Ha, ?Hc in Hv; injection Hv as <-;
      (split; [try apply Hbonds; lia|]); (split; [done|]); intros Hin;
      try apply Hbonds.
    repeat (apply elem_of_cons in Hin as [Hin|Hin]; [discriminate Hin|]).
    by apply elem_of_nil in Hin.
  - rewrite result_ring_key in Hv. case_decide; [|done]. injection Hv as <-.
    unfold rings_of_size.
    pose proof (length_filter (λ ring, Z.of_nat (length ring) = k)
                  (GetSymmSSSR mol)).
    split; [lia|]. split; [lia|]. intros Hin.
    repeat (apply elem_of_cons in Hin as [Hin|Hin]; [discriminate Hin|]).
    by apply elem_of_nil in Hin.
Qed.

End more_counts.

Lemma count_result_keys_witness :
  is_Some (count_rings_and_bonds (T := table_toolkit) benzene 5 !! "R6")
  ∧ dom (count_rings_and_bonds (T := table_toolkit) benzene 9)
    = dom (count_rings_and_bonds (T := table_toolkit) methane 9)
  ∧ dom (count_rings_and_bonds (T := table_toolkit) benzene 5)
    ≠ dom (count_rings_and_bonds (T := table_toolkit) methane 5).
Proof.
  destruct (count_result_keys (T := table_toolkit) benzene 5)
    as (Hkeys & _ & Hdiffer).
  destruct (count_result_keys (T := table_toolkit) benzene 9)
    as (_ & Hsame & _).
  split; [|split].
  - apply (Hkeys "R6"). right. exists 6. split; [reflexivity|].
    right. exists [0; 1; 2; 3; 4; 5]. split; [|reflexivity].
    apply list_elem_of_here.
  - apply (Hsame methane).
    + repeat constructor; simpl; lia.
    + constructor.
  - apply (Hdiffer methane [0; 1; 2; 3; 4; 5]).
    + apply list_elem_of_here.
    + simpl. lia.
    + constructor.
Defined.

Lemma max_ring_size_adds_zero_buckets_witness :
  count_rings_and_bonds (T := table_toolkit) benzene 5
  ⊆ count_rings_and_bonds (T := table_toolkit) benzene 9
  ∧ count_rings_and_bonds (T := table_toolkit) benzene (-1)
    = count_rings_and_bonds (T := table_toolkit) benzene 2.
Proof.
  destruct (max_ring_size_adds_zero_buckets (T := table_toolkit)
              benzene 5 9) as (Hsub & _ & _); [lia|].
  destruct (max_ring_size_adds_zero_buckets (T := table_toolkit)
              benzene (-1) 2) as (_ & _ & Heq); [lia|].
  split; [exact Hsub|]. apply Heq. lia.
Defined.

Lemma count_permutation_invariant_witness :
  count_rings_and_bonds (T := table_toolkit) spirohexene MAX_RING_SIZE
  = count_rings_and_bonds (T := table_toolkit) spirohexene_relisted
      MAX_RING_SIZE.
Proof.
  apply (count_permutation_invariant (T := table_toolkit)).
  - apply perm_swap.
  - apply (Permutation_cons_append (replicate 6 single_bond) double_bond).
Defined.

Lemma count_values_bounds_witness :
  0 ≤ 6 ∧ 6 ≤ Z.of_nat (length (GetBonds (Toolkit := table_toolkit) benzene)).
Proof.
  destruct (count_values_bounds (T := table_toolkit) benzene MAX_RING_SIZE
              "aromatic_bond" 6) as (Hnonneg & _ & Hbonds).
  - vm_compute. reflexivity.
  - split; [exact Hnonneg|]. apply Hbonds.
    repeat first [apply list_elem_of_here | apply list_elem_of_further].
Defined.

(** ** [parse_float] and the marker *)

Lemma or_raise_Ok {A} (o : option A) (e : exn) (a : A) :
  or_raise o e = Ok a → o = Some a.
Proof. destruct o; [by intros [= ->]|done]. Qed.

Lemma str_app_assoc (a b c : string) : (a +:+ b) +:+ c = a +:+ (b +:+ c).
Proof. induction a as [|x a IH]; simpl; [done|]. by rewrite IH. Qed.

Lemma rev_app_app (s1 s2 : string) :
  String.rev_app s1 s2 = String.rev s1 +:+ s2.
Proof.
  unfold String.rev. revert s2.
  induction s1 as [|c s1 IH]; intros s2; simpl; [done|].
  by rewrite (IH (String c s2)), (IH (String c "")), str_app_assoc.
Qed.

Lemma rev_cons (c : ascii) (s : string) :
  String.rev (String c s) = String.rev s +:+ String c "".
Proof. exact (rev_app_app s (String c "")). Qed.

Lemma prefix_app (a b : string) :
  String.prefix a b = true → ∃ r, b = a +:+ r.
Proof.
  revert b. induction a as [|x a IH]; intros b.
  - intros _. by exists b.
  - destruct b as [|y b]; simpl; [done|].
    destruct (Ascii.ascii_dec x y) as [->|]; [|done].
    intros [r ->]%IH. by exists r.
Qed.

Lemma split_on_go_nonempty (sep : string) (skip : nat) (cur s : string) :
  split_on_go sep skip cur s ≠ [].
Proof.
  revert skip cur.
  induction s as [|c s IH]; intros skip cur; cbn [split_on_go]; [done|].
  destruct skip; [|apply IH].
  destruct (String.prefix sep (String c s)); [done|apply IH].
Qed.

Lemma join_cons_nonempty (sep x : string) (l : list string) :
  l ≠ [] → join sep (x :: l) = x +:+ sep +:+ join sep l.
Proof. by destruct l. Qed.

(** Joining the pieces of a split with the separator gives the string back. *)
Lemma split_on_go_join (sep : string) (s : string) :
  sep ≠ "" →
  ∀ skip cur pre rest,
    s = pre +:+ rest → String.length pre = skip →
    join sep (split_on_go sep skip cur s) = String.rev cur +:+ rest.
Proof.
  intros Hsep. induction s as [|c s IH]; intros skip cur pre rest Hs Hlen.
  - destruct pre; [|done]. simpl in Hs. subst rest. simpl.
    by rewrite str_app_nil_r.
  - destruct pre as [|c' pre]; simpl in Hs, Hlen; subst skip.
    + subst rest. cbn [split_on_go].
      destruct (String.prefix sep (String c s)) eqn:Hprefix.
      * destruct sep as [|c0 sep']; [done|].
        apply prefix_app in Hprefix as [r Hr]. simpl in Hr.
        injection Hr as -> ->.
        rewrite join_cons_nonempty by apply split_on_go_nonempty.
        rewrite (IH _ "" sep' r) by (done || simpl; lia).
        simpl. done.
      * rewrite (IH 0%nat (String c cur) "" s) by done.
        by rewrite rev_cons, str_app_assoc.
    + injection Hs as <- ->. cbn [split_on_go].
      by apply (IH _ cur pre rest).
Qed.

Lemma split_on_join (sep s : string) :
  sep ≠ "" → join sep (split_on sep s) = s.
Proof.
  intros Hsep. unfold split_on.
  by rewrite (split_on_go_join sep s Hsep 0%nat "" "" s).
Qed.

Section more_float.
Context {B : Builtins}.

(** Property X9. When [parse_float] returns on a string that [float]
    rejects, the string is a base, the marker and a power, in this order, and
    the value is [float(base) * 10 ** float(power)]. *)
Theorem parse_float_marker (s : string) (x : float) :
  parse_float s = Ok x →
  py_float s = Some x
  ∨ ∃ base power b p t,
      s = base +:+ "*^" +:+ power
      ∧ py_float s = None
      ∧ py_float base = Some b ∧ py_float power = Some p
      ∧ py_pow10 p = Some t ∧ x = (b * t)%float.
Proof.
  unfold parse_float. destruct (py_float s) as [y|] eqn:Hs.
  - intros [= ->]. by left.
  - pose proof (split_on_join "*^" s) as Hjoin.
    destruct (split_on "*^" s) as [|base [|power [|]]]; try done.
    intros (b & Hb%or_raise_Ok & (p & Hp%or_raise_Ok
            & (t & Ht%or_raise_Ok & [= <-])%bind_Ok)%bind_Ok)%bind_Ok.
    right. exists base, power, b, p, t. repeat split; try done.
    symmetry. by apply Hjoin.
Qed.

End more_float.

Lemma parse_float_marker_witness :
  py_float (Builtins := plain_builtins) "1.23*^-4" = Some 1.23e-4%float
  ∨ ∃ base power b p t,
      "1.23*^-4" = base +:+ "*^" +:+ power
      ∧ py_float (Builtins := plain_builtins) "1.23*^-4" = None
      ∧ py_float (Builtins := plain_builtins) base = Some b
      ∧ py_float (Builtins := plain_builtins) power = Some p
      ∧ py_pow10 (Builtins := plain_builtins) p = Some t
      ∧ 1.23e-4%float = (b * t)%float.
Proof.
  apply (parse_float_marker (B := plain_builtins) "1.23*^-4" 1.23e-4%float).
  reflexivity.
Defined.

(** ** The reading loop *)

Section more_parse.
Context {B : Builtins} {T : Toolkit}.

Lemma read_line_num_atoms (i : Z) (line : string) (st st' : xyz_fields) :
  1 ≤ i → read_line i line st = Ok st' → num_atoms st' = num_atoms st.
Proof.
  intros Hi Hread. unfold read_line in Hread.
  destruct (Z.eqb_spec i 0); [lia|].
  repeat match type of Hread with
  | (if ?b then _ else _) = _ => destruct b
  | _ ≫= _ = Ok _ => apply bind_Ok in Hread as (? & _ & Hread)
  | match split_ws ?l with _ => _ end = _ =>
      destruct (split_ws l) as [|? [|? [|? [|? [|? [|]]]]]]; try done
  | Ok _ = Ok _ => injection Hread as <-
  end; done.
Qed.

Lemma read_lines_num_atoms (lines : list string) (i : Z)
    (st st' : xyz_fields) :
  1 ≤ i → read_lines i lines st = Ok st' → num_atoms st' = num_atoms st.
Proof.
  revert i st. induction lines as [|line lines IH]; intros i st Hi; simpl.
  - by intros [= <-].
  - intros (st1 & Hline & Hread)%bind_Ok.
    apply read_line_num_atoms in Hline; [|done].
    apply IH in Hread; [|lia]. congruence.
Qed.

(** The atom count after the loop is the one the file declares. *)
Lemma read_file_num_atoms (lines : list string) (st : xyz_fields) :
  read_lines 0 lines xyz_fields_init = Ok st →
  num_atoms st = declared_atoms lines.
Proof.
  unfold declared_atoms. destruct lines as [|line0 rest]; simpl.
  - by intros [= <-].
  - intros (st0 & Hline0 & Hread)%bind_Ok.
    unfold read_line in Hline0. simpl in Hline0.
    apply bind_Ok in Hline0 as (n & Hn & [= <-]).
    apply read_lines_num_atoms in Hread; [|lia].
    destruct (py_int line0) as [n'|]; [|done]. injection Hn as ->.
    by rewrite Hread.
Qed.

(** A field that only the line numbered [t] assigns stands, after the loop,
    in the relation [R] to that line, and keeps its old value when that line
    is not there. *)
Lemma read_lines_field {A} (f : xyz_fields → A) (R : string → A → Prop)
    (t : Z → Z) (Q : Z → Prop) (lines : list string) (i : Z)
    (st st' : xyz_fields) :
  (∀ j line s s', 1 ≤ j → Q (num_atoms s) → read_line j line s = Ok s' →
     if decide (j = t (num_atoms s)) then R line (f s') else f s' = f s) →
  1 ≤ i → Q (num_atoms st) → read_lines i lines st = Ok st' →
  match (if decide (i ≤ t (num_atoms st))
         then lines !! Z.to_nat (t (num_atoms st) - i) else None) with
  | Some line => R line (f st')
  | None => f st' = f st
  end.
Proof.
  intros Hstep. revert i st.
  induction lines as [|line lines IH]; intros i st Hi HQ Hread.
  - injection Hread as <-. by case_decide.
  - simpl in Hread. apply bind_Ok in Hread as (st1 & Hline & Hread).
    pose proof (read_line_num_atoms _ _ _ _ Hi Hline) as Hn.
    assert (1 ≤ i + 1) as Hi1 by lia.
    assert (Q (num_atoms st1)) as HQ1 by (by rewrite Hn).
    specialize (IH (i + 1) st1 Hi1 HQ1 Hread). rewrite Hn in IH.
    specialize (Hstep _ _ _ _ Hi HQ Hline).
    destruct (decide (i = t (num_atoms st))) as [Heq|Hne].
    + rewrite decide_False in IH by lia. rewrite decide_True by lia.
      replace (t (num_atoms st) - i) with 0 by lia. simpl. by rewrite IH.
    + destruct (decide (i ≤ t (num_atoms st))).
      * rewrite decide_True in IH by lia.
        replace (Z.to_nat (t (num_atoms st) - i))
          with (S (Z.to_nat (t (num_atoms st) - (i + 1)))) by lia.
        simpl. destruct (lines !! _); [done|]. by rewrite IH.
      * rewrite decide_False in IH by lia. by rewrite IH.
Qed.

(** The same for the whole file, whose line 0 sets the atom count. *)
Lemma read_file_field {A} (f : xyz_fields → A) (R : string → A → Prop)
    (t : Z → Z) (Q : Z → Prop) (lines : list string) (st : xyz_fields) :
  (∀ j line s s', 1 ≤ j → Q (num_atoms s) → read_line j line s = Ok s' →
     if decide (j = t (num_atoms s)) then R line (f s') else f s' = f s) →
  (∀ n, f (set_num_atoms n xyz_fields_init) = f xyz_fields_init) →
  (∀ n, Q n → 1 ≤ t n) →
  read_lines 0 lines xyz_fields_init = Ok st → Q (num_atoms st) →
  match lines !! Z.to_nat (t (num_atoms st)) with
  | Some line => R line (f st)
  | None => f st = f xyz_fields_init
  end.
Proof.
  intros Hstep Hinit Ht Hread HQ. destruct lines as [|line0 rest].
  - injection Hread as <-. by rewrite lookup_nil.
  - simpl in Hread. apply bind_Ok in Hread as (st0 & Hline0 & Hread).
    unfold read_line in Hline0. simpl in Hline0.
    apply bind_Ok in Hline0 as (n & _ & [= <-]).
    assert (num_atoms st = n) as Hn
      by (apply read_lines_num_atoms in Hread; [done|lia]).
    subst n. specialize (Ht _ HQ).
    pose proof (read_lines_field f R t Q rest 1
                  (set_num_atoms (num_atoms st) xyz_fields_init) st Hstep)
      as Hfield.
    simpl in Hfield. rewrite Hinit in Hfield.
    rewrite decide_True in Hfield by done.
    replace (Z.to_nat (t (num_atoms st)))
      with (S (Z.to_nat (t (num_atoms st) - 1))) by lia.
    simpl. apply Hfield; [lia|done|done].
Qed.

(** The branches of the loop body, with the arithmetic facts of each. *)
Ltac read_line_cases Hread j st :=
  unfold read_line in Hread;
  destruct (Z.eqb_spec j 0); [|
  destruct (Z.eqb_spec j 1); [|
  destruct (Z.leb_spec 2 j), (Z.leb_spec j (1 + num_atoms st));
    simpl in Hread;
    [|destruct (Z.eqb_spec j (num_atoms st + 2)); [|
      destruct (Z.eqb_spec j (num_atoms st + 3)); [|
      destruct (Z.eqb_spec j (num_atoms st + 4))]]..]]].

Ltac read_line_field Hread j s :=
  read_line_cases Hread j s; try lia;
    try (match type of Hread with
         | match split_ws ?l with _ => _ end = _ =>
             destruct (split_ws l) as [|? [|? [|? [|? [|? [|]]]]]]; try done
         end);
    repeat (apply bind_Ok in Hread as (? & ? & Hread));
    injection Hread as <-; simpl;
    case_decide; try lia; try done.

Lemma read_line_smiles (j : Z) (line : string) (s s' : xyz_fields) :
  1 ≤ j → 0 ≤ num_atoms s → read_line j line s = Ok s' →
  if decide (j = num_atoms s + 3)
  then head (split_ws line) = Some (smiles s') else smiles s' = smiles s.
Proof.
  intros Hj Hn Hread. read_line_field Hread j s.
  all: match goal with H : or_raise _ _ = Ok _ |- _ =>
         by apply or_raise_Ok in H end.
Qed.

Lemma read_line_inchi (j : Z) (line : string) (s s' : xyz_fields) :
  1 ≤ j → 0 ≤ num_atoms s → read_line j line s = Ok s' →
  if decide (j = num_atoms s + 4)
  then head (split_ws line) = Some (inchi s') else inchi s' = inchi s.
Proof.
  intros Hj Hn Hread. read_line_field Hread j s.
  all: match goal with H : or_raise _ _ = Ok _ |- _ =>
         by apply or_raise_Ok in H end.
Qed.

Lemma read_line_frequencies (j : Z) (line : string) (s s' : xyz_fields) :
  1 ≤ j → 0 ≤ num_atoms s → read_line j line s = Ok s' →
  if decide (j = num_atoms s + 2)
  then comprehension float_or_ValueError (split_ws line)
       = Ok (harmonic_vibrational_frequencies s')
  else harmonic_vibrational_frequencies s'
       = harmonic_vibrational_frequencies s.
Proof.
  intros Hj Hn Hread. read_line_field Hread j s.
Qed.

Lemma read_line_scalars (j : Z) (line : string) (s s' : xyz_fields) :
  1 ≤ j → True → read_line j line s = Ok s' →
  if decide (j = 1)
  then comprehension float_or_ValueError (drop 2 (split_ws line))
       = Ok (scalar_properties s')
  else scalar_properties s' = scalar_properties s.
Proof.
  intros Hj _ Hread. read_line_field Hread j s.
Qed.

(** In its atom branch the loop body appends what [atom_of_line] gives. *)
Lemma read_line_atom (i : Z) (line : string) (st : xyz_fields) :
  2 ≤ i ≤ 1 + num_atoms st →
  read_line i line st =
  atom_of_line line ≫= λ atom, Ok (append_atom atom.1.1 atom.1.2 atom.2 st).
Proof.
  intros Hi. unfold read_line, atom_of_line.
  destruct (Z.eqb_spec i 0); [lia|]. destruct (Z.eqb_spec i 1); [lia|].
  destruct (Z.leb_spec 2 i); [|lia].
  destruct (Z.leb_spec i (1 + num_atoms st)); [|lia]. simpl.
  destruct (split_ws line) as [|a [|x [|y [|z [|c [|]]]]]]; try done.
  destruct (parse_float x); [|done]. destruct (parse_float y); [|done].
  destruct (parse_float z); [|done]. by destruct (parse_float c).
Qed.

(** Past the atom lines the loop body leaves the three lists alone. *)
Lemma read_line_past_atoms (i : Z) (line : string) (st st' : xyz_fields) :
  2 ≤ i → 1 + num_atoms st < i → read_line i line st = Ok st' →
  atomic_symbols st' = atomic_symbols st ∧ xyz st' = xyz st
  ∧ charges st' = charges st.
Proof.
  intros Hi Hn Hread. read_line_cases Hread i st; try lia;
    repeat (apply bind_Ok in Hread as (? & ? & Hread));
    by injection Hread as <-.
Qed.

Lemma read_lines_atoms_of (lines : list string) (i : Z)
    (st st' : xyz_fields) :
  2 ≤ i → read_lines i lines st = Ok st' →
  ∃ atoms,
    comprehension atom_of_line
      (take (Z.to_nat (num_atoms st + 2 - i)) lines) = Ok atoms
    ∧ atomic_symbols st' = atomic_symbols st ++ atoms.*1.*1
    ∧ xyz st' = xyz st ++ atoms.*1.*2
    ∧ charges st' = charges st ++ atoms.*2.
Proof.
  revert i st. induction lines as [|line lines IH]; intros i st Hi Hread.
  - injection Hread as <-. exists []. rewrite take_nil. simpl.
    by rewrite !app_nil_r.
  - simpl in Hread. apply bind_Ok in Hread as (st1 & Hline & Hread).
    assert (num_atoms st1 = num_atoms st) as Hn
      by (apply (read_line_num_atoms i line); [lia|done]).
    assert (2 ≤ i + 1) as Hi1 by lia.
    destruct (IH (i + 1) st1 Hi1 Hread) as (atoms & Hatoms & Hs & Hx & Hc).
    rewrite Hn in Hatoms.
    destruct (decide (i ≤ 1 + num_atoms st)) as [Hle|Hgt].
    + rewrite read_line_atom in Hline by lia.
      apply bind_Ok in Hline as (atom & Hatom & [= <-]).
      exists (atom :: atoms).
      replace (Z.to_nat (num_atoms st + 2 - i))
        with (S (Z.to_nat (num_atoms st + 2 - (i + 1)))) by lia.
      simpl. rewrite Hatom, Hatoms. simpl.
      rewrite Hs, Hx, Hc. simpl. by rewrite <-!app_assoc.
    + apply read_line_past_atoms in Hline as (Hs1 & Hx1 & Hc1); [|lia..].
      exists atoms.
      replace (Z.to_nat (num_atoms st + 2 - i)) with 0%nat by lia.
      replace (Z.to_nat (num_atoms st + 2 - (i + 1))) with 0%nat
        in Hatoms by lia.
      simpl in *. injection Hatoms as <-. simpl in *.
      rewrite !app_nil_r in *. repeat split; congruence.
Qed.

Lemma read_file_atoms (lines : list string) (st : xyz_fields) :
  read_lines 0 lines xyz_fields_init = Ok st →
  ∃ atoms,
    comprehension atom_of_line
      (take (Z.to_nat (num_atoms st)) (drop 2 lines)) = Ok atoms
    ∧ atomic_symbols st = atoms.*1.*1
    ∧ xyz st = atoms.*1.*2
    ∧ charges st = atoms.*2.
Proof.
  destruct lines as [|line0 [|line1 rest]]; simpl.
  - intros [= <-]. exists []. by rewrite take_nil.
  - intros (st0 & Hline0 & [= <-])%bind_Ok.
    unfold read_line in Hline0. simpl in Hline0.
    apply bind_Ok in Hline0 as (n & _ & [= <-]). exists [].
    by rewrite take_nil.
  - intros (st0 & Hline0 & (st1 & Hline1 & Hread)%bind_Ok)%bind_Ok.
    unfold read_line in Hline0, Hline1. simpl in Hline0, Hline1.
    apply bind_Ok in Hline0 as (n & _ & [= <-]).
    apply bind_Ok in Hline1 as (ps & _ & [= <-]).
    apply read_lines_num_atoms in Hread as Hn; [|lia]. simpl in Hn.
    apply read_lines_atoms_of in Hread as (atoms & Hatoms & Hs & Hx & Hc);
      [|lia].
    simpl in *. exists atoms. rewrite Hn.
    by replace (Z.to_nat n) with (Z.to_nat (n + 2 - 2)) by lia.
Qed.

End more_parse.

(** ** The rows of [parse_xyz] *)

Ltac in_list :=
  repeat first [apply list_elem_of_here | apply list_elem_of_further].

Section more_rows.
Context {B : Builtins} {T : Toolkit}.

(** What a returned row says about the calls that built it. *)
Lemma parse_xyz_Ok_toolkit (lines : list string) (max_ring_size : Z)
    (npscorer_model : option NPModel) (array_format : string)
    (row : gmap string Value) :
  parse_xyz lines max_ring_size npscorer_model array_format = Ok row →
  ∃ st canonical_smiles m logP q np sa,
    read_lines 0 lines xyz_fields_init = Ok st
    ∧ CanonSmiles (smiles st) = Ok canonical_smiles
    ∧ MolFromSmiles canonical_smiles = Some m
    ∧ MolLogP m = Ok logP
    ∧ qed m = Ok q
    ∧ match npscorer_model with
      | Some model => ∃ x, scoreMol m model = Ok x ∧ np = Some x
      | None => np = None
      end
    ∧ calculateScore m = Ok sa
    ∧ row = assemble st canonical_smiles logP q np sa
              (count_rings_and_bonds m max_ring_size).
Proof.
  unfold parse_xyz. intros Hrow.
  apply bind_Ok in Hrow as (_ & _ & Hrow).
  apply bind_Ok in Hrow as (st & Hst & Hrow).
  apply bind_Ok in Hrow as (w & Hw & Hrow).
  unfold array_wrap_of in Hw.
  destruct (String.eqb_spec array_format "np") as [->|]; [|done].
  injection Hw as <-.
  apply bind_Ok in Hrow as (cs & Hcs & Hrow).
  apply bind_Ok in Hrow as (m & Hm%or_raise_Ok & Hrow).
  apply bind_Ok in Hrow as (logP & HlogP & Hrow).
  apply bind_Ok in Hrow as (q & Hq & Hrow).
  apply bind_Ok in Hrow as (result & Hnp & Hrow).
  apply bind_Ok in Hrow as (sa & Hsa & [= <-]).
  destruct npscorer_model as [model|].
  - apply bind_Ok in Hnp as (np & Hnp & [= <-]).
    exists st, cs, m, logP, q, (Some np), sa. repeat split; try done.
    by exists np.
  - injection Hnp as <-.
    exists st, cs, m, logP, q, None, sa. by repeat split.
Qed.

Lemma assemble_lookup_count (st : xyz_fields) (cs : string) (logP q : float)
    (np : option float) (sa : float) (counts : gmap string Z) (j : string)
    (v : Z) :
  counts !! j = Some v →
  assemble st cs logP q np sa counts !! j = Some (VInt v).
Proof.
  intros Hj. unfold assemble, dict_update. apply lookup_union_Some_l.
  by rewrite lookup_fmap, Hj.
Qed.

Lemma assemble_descriptors (st : xyz_fields) (cs : string) (logP q : float)
    (np : option float) (sa : float) (mol : Mol) (max_ring_size : Z) :
  let row := assemble st cs logP q np sa
               (count_rings_and_bonds mol max_ring_size) in
  row !! "canonical_smiles" = Some (VStr cs)
  ∧ row !! "logP" = Some (VFloat logP)
  ∧ row !! "qed" = Some (VFloat q)
  ∧ row !! "sa_score" = Some (VFloat sa).
Proof.
  simpl. unfold assemble, dict_update. generalize (base_row np_array st).
  intros base.
  repeat split;
    (rewrite lookup_union_r
       by (rewrite lookup_fmap, result_other_key; [done|done|not_in_list]));
    destruct np; by simplify_map_eq.
Qed.

Lemma base_row_trailing (w : array_ctor) (st : xyz_fields) :
  base_row w st !! "harmonic_oscillator_frequencies"
  = Some (wrap_list w (harmonic_vibrational_frequencies st))
  ∧ base_row w st !! "smiles" = Some (VStr (smiles st))
  ∧ base_row w st !! "inchi" = Some (VStr (inchi st)).
Proof.
  unfold base_row, dict_update.
  repeat split;
    (rewrite lookup_union_r by (apply scalars_lookup_None; not_in_list));
    by simplify_map_eq.
Qed.

(** [dict(zip(keys, values))] on distinct keys. *)
Lemma foldl_insert_notin {V} (ks : list string) (vs : list V)
    (d : gmap string V) (k : string) :
  k ∉ ks →
  foldl (λ d kv, <[kv.1 := kv.2]> d) d (zip ks vs) !! k = d !! k.
Proof.
  revert vs d. induction ks as [|k0 ks IH]; intros [|v0 vs] d Hk; try done.
  apply not_elem_of_cons in Hk as [Hne Hk]. simpl.
  rewrite IH by done. by rewrite lookup_insert_ne.
Qed.

Lemma dict_of_pairs_lookup_zip {V} (ks : list string) (vs : list V)
    (i : nat) (k : string) :
  NoDup ks → ks !! i = Some k →
  dict_of_pairs (zip ks vs) !! k = vs !! i.
Proof.
  unfold dict_of_pairs. intros Hnodup Hk.
  assert (∀ d : gmap string V,
            foldl (λ d kv, <[kv.1 := kv.2]> d) d (zip ks vs) !! k
            = match vs !! i with Some v => Some v | None => d !! k end)
    as Hgen.
  { revert vs i Hk.
    induction Hnodup as [|k0 ks Hk0 Hnodup IH]; intros vs i Hk d; [done|].
    destruct vs as [|v0 vs]; [by destruct i|].
    destruct i as [|i]; simpl in *.
    - injection Hk as ->. rewrite foldl_insert_notin by done.
      by rewrite lookup_insert_eq.
    - rewrite (IH vs i Hk). destruct (vs !! i); [done|].
      apply lookup_insert_ne. intros ->. apply Hk0.
      by eapply list_elem_of_lookup_2. }
  rewrite Hgen. by destruct (vs !! i).
Qed.

Lemma scalar_property_labels_NoDup : NoDup scalar_property_labels.
Proof. apply (bool_decide_unpack _). vm_compute. exact I. Qed.

Lemma label_cases (P : string → Prop) (label : string) :
  Forall P scalar_property_labels → label ∈ scalar_property_labels → P label.
Proof. intros Hall Hin. by eapply Forall_forall in Hall. Qed.

(** A scalar label is none of the other keys of a row. *)
Lemma label_not_other_key (label : string) :
  label ∈ scalar_property_labels →
  is_ring_key label = false
  ∧ (label ∉ ["ring_count"; "single_bond"; "double_bond"; "triple_bond";
              "aromatic_bond"])
  ∧ (label ∉ ["sa_score"; "np_score"; "qed"; "logP"; "canonical_smiles"])
  ∧ (label ∉ ["inchi"; "smiles"; "harmonic_oscillator_frequencies";
              "charges"; "pos"; "atomic_symbols"; "num_atoms"]).
Proof.
  intros Hin. pattern label. eapply label_cases; [|exact Hin].
  unfold scalar_property_labels.
  repeat (apply Forall_cons; split;
          [split; [done|split; [not_in_list|split; not_in_list]]|]).
  by apply Forall_nil.
Qed.

Lemma base_row_scalar (w : array_ctor) (st : xyz_fields) (i : nat)
    (label : string) :
  scalar_property_labels !! i = Some label →
  base_row w st !! label = VFloat <$> scalar_properties st !! i.
Proof.
  intros Hlabel. unfold base_row, dict_update.
  rewrite lookup_union,
    (dict_of_pairs_lookup_zip _ _ i) by
      (done || apply scalar_property_labels_NoDup).
  rewrite list_lookup_fmap.
  destruct (scalar_properties st !! i) as [x|]; simpl.
  - by destruct (_ !! label).
  - apply list_elem_of_lookup_2, label_not_other_key in Hlabel
      as (_ & _ & _ & Hbase).
    assert (label ≠ "inchi" ∧ label ≠ "smiles"
            ∧ label ≠ "harmonic_oscillator_frequencies"
            ∧ label ≠ "charges" ∧ label ≠ "pos"
            ∧ label ≠ "atomic_symbols" ∧ label ≠ "num_atoms")
      as (? & ? & ? & ? & ? & ? & ?)
      by (repeat split; intros ->; apply Hbase; set_solver).
    by rewrite !lookup_insert_ne, lookup_empty by done.
Qed.

Lemma assemble_lookup_scalar (st : xyz_fields) (cs : string)
    (logP q : float) (np : option float) (sa : float) (mol : Mol)
    (max_ring_size : Z) (i : nat) (label : string) :
  scalar_property_labels !! i = Some label →
  assemble st cs logP q np sa (count_rings_and_bonds mol max_ring_size)
    !! label
  = VFloat <$> scalar_properties st !! i.
Proof.
  intros Hlabel.
  pose proof (list_elem_of_lookup_2 _ _ _ Hlabel) as Hin.
  apply label_not_other_key in Hin as (Hring & Hcount & Hdesc & _).
  rewrite assemble_lookup_base by (done || by apply result_other_key).
  by apply base_row_scalar.
Qed.

Lemma assemble_lookup_atoms (st : xyz_fields) (cs : string)
    (logP q : float) (np : option float) (sa : float) (mol : Mol)
    (max_ring_size : Z) :
  let row := assemble st cs logP q np sa
               (count_rings_and_bonds mol max_ring_size) in
  row !! "num_atoms" = Some (VInt (num_atoms st))
  ∧ row !! "atomic_symbols" = Some (VStrList (atomic_symbols st))
  ∧ row !! "pos" = Some (VArray2 (xyz st))
  ∧ row !! "charges" = Some (VArray (charges st)).
Proof.
  simpl. destruct (base_row_atoms np_array st) as (Hn & Hs & Hx & Hc).
  repeat split;
    (rewrite assemble_lookup_base;
     [done|not_in_list|by apply result_other_key; [|not_in_list]]).
Qed.

Lemma assemble_lookup_trailing (st : xyz_fields) (cs : string)
    (logP q : float) (np : option float) (sa : float) (mol : Mol)
    (max_ring_size : Z) :
  let row := assemble st cs logP q np sa
               (count_rings_and_bonds mol max_ring_size) in
  row !! "harmonic_oscillator_frequencies"
  = Some (VArray (harmonic_vibrational_frequencies st))
  ∧ row !! "smiles" = Some (VStr (smiles st))
  ∧ row !! "inchi" = Some (VStr (inchi st)).
Proof.
  simpl. destruct (base_row_trailing np_array st) as (Hf & Hs & Hi).
  repeat split;
    (rewrite assemble_lookup_base;
     [done|not_in_list|by apply result_other_key; [|not_in_list]]).
Qed.

Lemma comprehension_length {A C} (f : A → result C) (l : list A)
    (bs : list C) :
  comprehension f l = Ok bs → length bs = length l.
Proof.
  revert bs. induction l as [|a l IH]; intros bs; simpl.
  - by intros [= <-].
  - intros (b & _ & (bs' & Hbs' & [= <-])%bind_Ok)%bind_Ok.
    simpl. by rewrite (IH bs').
Qed.

(** Property X10. In a row that [parse_xyz] returns, whatever the layout
    of the file, [num_atoms] is the count that line 0 declares, and the three
    atom columns come, in order, from the lines 2 onwards that the file has,
    as many as declared at most: the symbol is the first field of the line,
    the position its next three fields and the charge its fifth, each through
    [parse_float]. A file that ends early gives fewer atoms than declared. *)
Theorem parse_xyz_atoms (lines : list string) (max_ring_size : Z)
    (npscorer_model : option NPModel) (array_format : string)
    (row : gmap string Value) :
  parse_xyz lines max_ring_size npscorer_model array_format = Ok row →
  ∃ atoms,
    comprehension atom_of_line
      (take (Z.to_nat (declared_atoms lines)) (drop 2 lines)) = Ok atoms
    ∧ length atoms
      = (Z.to_nat (declared_atoms lines) `min` (length lines - 2))%nat
    ∧ row !! "num_atoms" = Some (VInt (declared_atoms lines))
    ∧ row !! "atomic_symbols" = Some (VStrList atoms.*1.*1)
    ∧ row !! "pos" = Some (VArray2 atoms.*1.*2)
    ∧ row !! "charges" = Some (VArray atoms.*2).
Proof.
  intros (st & cs & m & logP & q & np & sa & Hread & _ & _ & _ & _ & _ & _
          & ->)%parse_xyz_Ok_toolkit.
  destruct (assemble_lookup_atoms st cs logP q np sa m max_ring_size)
    as (Hn & Hs & Hx & Hc).
  apply read_file_num_atoms in Hread as Hdecl.
  apply read_file_atoms in Hread as (atoms & Hatoms & Hs' & Hx' & Hc').
  exists atoms. rewrite <-Hdecl, <-Hs', <-Hx', <-Hc'.
  split; [done|]. split; [|done].
  apply comprehension_length in Hatoms.
  by rewrite Hatoms, length_take, length_drop.
Qed.

(** Property X11. In a row that [parse_xyz] returns from a file that
    declares [N >= 0] atoms, the frequencies are the floats of the fields of
    line [N + 2], the SMILES is the first field of line [N + 3] and the InChI
    the first field of line [N + 4]; a line the file does not have leaves the
    empty array or the empty string. *)
Theorem parse_xyz_trailing_lines (lines : list string) (max_ring_size : Z)
    (npscorer_model : option NPModel) (array_format : string)
    (row : gmap string Value) :
  parse_xyz lines max_ring_size npscorer_model array_format = Ok row →
  0 ≤ declared_atoms lines →
  match lines !! Z.to_nat (declared_atoms lines + 2) with
  | Some line =>
      ∃ fs, comprehension float_or_ValueError (split_ws line) = Ok fs
            ∧ row !! "harmonic_oscillator_frequencies" = Some (VArray fs)
  | None => row !! "harmonic_oscillator_frequencies" = Some (VArray [])
  end
  ∧ match lines !! Z.to_nat (declared_atoms lines + 3) with
    | Some line =>
        ∃ w, head (split_ws line) = Some w
             ∧ row !! "smiles" = Some (VStr w)
    | None => row !! "smiles" = Some (VStr "")
    end
  ∧ match lines !! Z.to_nat (declared_atoms lines + 4) with
    | Some line =>
        ∃ w, head (split_ws line) = Some w
             ∧ row !! "inchi" = Some (VStr w)
    | None => row !! "inchi" = Some (VStr "")
    end.
Proof.
  intros (st & cs & m & logP & q & np & sa & Hread & _ & _ & _ & _ & _ & _
          & ->)%parse_xyz_Ok_toolkit Hn.
  destruct (assemble_lookup_trailing st cs logP q np sa m max_ring_size)
    as (Hf & Hs & Hi).
  apply read_file_num_atoms in Hread as Hdecl. rewrite <-Hdecl in *.
  split; [|split].
  - pose proof (read_file_field harmonic_vibrational_frequencies
                  (λ line fs,
                     comprehension float_or_ValueError (split_ws line)
                     = Ok fs)
                  (λ n, n + 2) (λ n, 0 ≤ n) lines st
                  read_line_frequencies) as Hfield.
    simpl in Hfield.
    destruct (lines !! Z.to_nat (num_atoms st + 2)) as [line|].
    + eexists. split; [apply Hfield|]; (done || lia).
    + rewrite Hf, Hfield; (done || lia).
  - pose proof (read_file_field smiles
                  (λ line w, head (split_ws line) = Some w)
                  (λ n, n + 3) (λ n, 0 ≤ n) lines st
                  read_line_smiles) as Hfield.
    simpl in Hfield.
    destruct (lines !! Z.to_nat (num_atoms st + 3)) as [line|].
    + eexists. split; [apply Hfield|]; (done || lia).
    + rewrite Hs, Hfield; (done || lia).
  - pose proof (read_file_field inchi
                  (λ line w, head (split_ws line) = Some w)
                  (λ n, n + 4) (λ n, 0 ≤ n) lines st
                  read_line_inchi) as Hfield.
    simpl in Hfield.
    destruct (lines !! Z.to_nat (num_atoms st + 4)) as [line|].
    + eexists. split; [apply Hfield|]; (done || lia).
    + rewrite Hi, Hfield; (done || lia).
Qed.

(** Property X12. In a row that [parse_xyz] returns, the scalar
    properties are the floats of line 1 from its third field on, stored under
    the labels in order: the label at position [i] holds the float at position
    [i], and a label with no float is not a key of the row. *)
Theorem parse_xyz_scalar_properties (lines : list string)
    (max_ring_size : Z) (npscorer_model : option NPModel)
    (array_format : string) (row : gmap string Value) :
  parse_xyz lines max_ring_size npscorer_model array_format = Ok row →
  ∃ ps,
    comprehension float_or_ValueError
      (drop 2 (default [] (split_ws <$> lines !! 1%nat))) = Ok ps
    ∧ ∀ i label,
        scalar_property_labels !! i = Some label →
        row !! label = VFloat <$> ps !! i.
Proof.
  intros (st & cs & m & logP & q & np & sa & Hread & _ & _ & _ & _ & _ & _
          & ->)%parse_xyz_Ok_toolkit.
  exists (scalar_properties st). split.
  - pose proof (read_file_field scalar_properties
                  (λ line ps,
                     comprehension float_or_ValueError
                       (drop 2 (split_ws line)) = Ok ps)
                  (λ _, 1) (λ _, True) lines st
                  read_line_scalars) as Hfield.
    simpl in Hfield. change (Z.to_nat 1) with 1%nat in Hfield.
    destruct (lines !! 1%nat) as [line|]; simpl.
    + apply Hfield; done.
    + rewrite Hfield; done.
  - intros i label Hlabel. by apply assemble_lookup_scalar.
Qed.

(** Property X13. In a row that [parse_xyz] returns, [canonical_smiles]
    is what the toolkit makes of the row's [smiles]; [logP], [qed],
    [sa_score] and, with a model, [np_score] are computed on the molecule
    parsed from the canonical SMILES; and every count of
    [count_rings_and_bonds] on that molecule is stored under its key, none of
    them replaced. *)
Theorem parse_xyz_descriptors (lines : list string) (max_ring_size : Z)
    (npscorer_model : option NPModel) (array_format : string)
    (row : gmap string Value) :
  parse_xyz lines max_ring_size npscorer_model array_format = Ok row →
  ∃ smi canonical_smiles m logP q sa,
    row !! "smiles" = Some (VStr smi)
    ∧ CanonSmiles smi = Ok canonical_smiles
    ∧ row !! "canonical_smiles" = Some (VStr canonical_smiles)
    ∧ MolFromSmiles canonical_smiles = Some m
    ∧ MolLogP m = Ok logP ∧ row !! "logP" = Some (VFloat logP)
    ∧ qed m = Ok q ∧ row !! "qed" = Some (VFloat q)
    ∧ calculateScore m = Ok sa ∧ row !! "sa_score" = Some (VFloat sa)
    ∧ (∀ model, npscorer_model = Some model →
         ∃ x, scoreMol m model = Ok x
              ∧ row !! "np_score" = Some (VFloat x))
    ∧ (∀ j v, count_rings_and_bonds m max_ring_size !! j = Some v →
         row !! j = Some (VInt v)).
Proof.
  intros (st & cs & m & logP & q & np & sa & Hread & Hcs & Hm & HlogP & Hq
          & Hnp & Hsa & ->)%parse_xyz_Ok_toolkit.
  destruct (assemble_lookup_trailing st cs logP q np sa m max_ring_size)
    as (_ & Hs & _).
  destruct (assemble_descriptors st cs logP q np sa m max_ring_size)
    as (Hrcs & HrlogP & Hrq & Hrsa).
  exists (smiles st), cs, m, logP, q, sa.
  repeat split; try done.
  - intros model ->. destruct Hnp as (x & Hx & ->). exists x.
    by rewrite assemble_np_score.
  - intros j v Hj. by apply assemble_lookup_count.
Qed.

Lemma dict_of_pairs_lookup_Some {V} (pairs : list (string * V))
    (k : string) (v : V) :
  dict_of_pairs pairs !! k = Some v → k ∈ pairs.*1.
Proof.
  intros Hk. destruct (decide (k ∈ pairs.*1)) as [|Hnot]; [done|].
  apply dict_of_pairs_lookup_None in Hnot. congruence.
Qed.

Lemma base_row_lookup_Some (w : array_ctor) (st : xyz_fields) (j : string)
    (v : Value) :
  base_row w st !! j = Some v →
  j ∈ row_keys ∨ j ∈ scalar_property_labels.
Proof.
  unfold base_row, dict_update.
  intros [Hscalar|[_ Hbase]]%lookup_union_Some_raw.
  - right. apply dict_of_pairs_lookup_Some in Hscalar.
    apply list_elem_of_fmap in Hscalar as ([k x] & -> & Hin).
    by apply elem_of_zip_l in Hin.
  - left. unfold row_keys.
    repeat (apply lookup_insert_Some in Hbase as [[<- _]|[_ Hbase]];
            [in_list|]).
    done.
Qed.

(** Property X14. A row that [parse_xyz] returns has the seven keys read
    from the file, the four descriptor keys and the five count keys; it has
    [np_score] exactly when a model is passed; and it has no key besides
    these, the scalar labels and the ring-size keys [R<k>]. *)
Theorem parse_xyz_row_keys (lines : list string) (max_ring_size : Z)
    (npscorer_model : option NPModel) (array_format : string)
    (row : gmap string Value) :
  parse_xyz lines max_ring_size npscorer_model array_format = Ok row →
  (∀ j, j ∈ row_keys ++ descriptor_keys ++ count_keys → is_Some (row !! j))
  ∧ (is_Some (row !! "np_score") ↔ is_Some npscorer_model)
  ∧ (∀ j, is_Some (row !! j) →
          j ∈ row_keys ++ descriptor_keys ++ count_keys
          ∨ j = "np_score" ∨ j ∈ scalar_property_labels
          ∨ is_ring_key j = true).
Proof.
  intros (st & cs & m & logP & q & np & sa & _ & _ & _ & _ & _ & Hnp & _
          & ->)%parse_xyz_Ok_toolkit.
  destruct (assemble_lookup_atoms st cs logP q np sa m max_ring_size)
    as (? & ? & ? & ?).
  destruct (assemble_lookup_trailing st cs logP q np sa m max_ring_size)
    as (? & ? & ?).
  destruct (assemble_descriptors st cs logP q np sa m max_ring_size)
    as (? & ? & ? & ?).
  split; [|split].
  - intros j [Hj|[Hj|Hj]%elem_of_app]%elem_of_app.
    + unfold row_keys in Hj.
      repeat (apply elem_of_cons in Hj as [->|Hj]; [by eexists|]).
      by apply elem_of_nil in Hj.
    + unfold descriptor_keys in Hj.
      repeat (apply elem_of_cons in Hj as [->|Hj]; [by eexists|]).
      by apply elem_of_nil in Hj.
    + destruct (result_count_keys m max_ring_size j Hj) as [v Hv].
      exists (VInt v). by apply assemble_lookup_count.
  - rewrite assemble_np_score. destruct npscorer_model as [model|].
    + destruct Hnp as (x & _ & ->). split; by eexists.
    + subst np. split; by intros [? [=]].
  - intros j [v Hv].
    destruct (count_rings_and_bonds m max_ring_size !! j) as [c|] eqn:Hc.
    { apply result_lookup_Some in Hc as [Hc|[k ->]].
      - left. rewrite !elem_of_app. by right; right.
      - by right; right; right. }
    unfold assemble, dict_update in Hv.
    rewrite lookup_union_r in Hv by (by rewrite lookup_fmap, Hc).
    apply lookup_insert_Some in Hv as [[<- _]|[_ Hv]].
    { left. rewrite !elem_of_app. right; left. unfold descriptor_keys.
      in_list. }
    assert (j = "np_score"
            ∨ (<["qed" := VFloat q]> (<["logP" := VFloat logP]>
                 (<["canonical_smiles" := VStr cs]> (base_row np_array st))))
              !! j = Some v) as [->|Hv'].
    { destruct np; [|by right].
      apply lookup_insert_Some in Hv as [[<- _]|[_ Hv]]; [by left|by right]. }
    { by right; left. }
    repeat (apply lookup_insert_Some in Hv' as [[<- _]|[_ Hv']];
            [left; rewrite !elem_of_app; right; left; unfold descriptor_keys;
             in_list|]).
    apply base_row_lookup_Some in Hv' as [Hrow|Hlabel].
    + left. rewrite !elem_of_app. by left.
    + by right; right; left.
Qed.

End more_rows.

Lemma parse_xyz_atoms_witness :
  ∃ row atoms,
    parse_xyz (B := plain_builtins) (T := table_toolkit) methane_xyz
      MAX_RING_SIZE (Some ()) "np" = Ok row
    ∧ comprehension (atom_of_line (B := plain_builtins))
        (take 5 (drop 2 methane_xyz)) = Ok atoms
    ∧ length atoms = 5%nat
    ∧ row !! "num_atoms" = Some (VInt 5)
    ∧ row !! "atomic_symbols" = Some (VStrList atoms.*1.*1)
    ∧ row !! "pos" = Some (VArray2 atoms.*1.*2)
    ∧ row !! "charges" = Some (VArray atoms.*2).
Proof.
  destruct (is_Ok_true (parse_xyz (B := plain_builtins) (T := table_toolkit)
                          methane_xyz MAX_RING_SIZE (Some ()) "np"))
    as [row Hrow]; [vm_compute; reflexivity|].
  destruct (parse_xyz_atoms (B := plain_builtins) (T := table_toolkit)
              methane_xyz MAX_RING_SIZE (Some ()) "np" row Hrow)
    as (atoms & Hatoms).
  exists row, atoms. split; [exact Hrow|exact Hatoms].
Defined.

Lemma parse_xyz_trailing_lines_witness :
  ∃ row,
    parse_xyz (B := plain_builtins) (T := table_toolkit) methane_xyz
      MAX_RING_SIZE (Some ()) "np" = Ok row
    ∧ row !! "smiles" = Some (VStr "C")
    ∧ row !! "inchi" = Some (VStr "InChI=1S/CH4/h1H4").
Proof.
  destruct (is_Ok_true (parse_xyz (B := plain_builtins) (T := table_toolkit)
                          methane_xyz MAX_RING_SIZE (Some ()) "np"))
    as [row Hrow]; [vm_compute; reflexivity|].
  assert (0 ≤ declared_atoms (B := plain_builtins) methane_xyz) as Hn
    by (change (declared_atoms (B := plain_builtins) methane_xyz) with 5;
        lia).
  destruct (parse_xyz_trailing_lines (B := plain_builtins)
              (T := table_toolkit) methane_xyz MAX_RING_SIZE (Some ()) "np"
              row Hrow Hn) as (_ & Hs & Hi).
  change (declared_atoms (B := plain_builtins) methane_xyz) with 5 in Hs, Hi.
  cbn [Z.add Pos.add Z.to_nat Pos.to_nat Pos.iter_op Init.Nat.add
       methane_xyz lookup list_lookup] in Hs, Hi.
  destruct Hs as (w & Hw & Hs). destruct Hi as (w' & Hw' & Hi).
  vm_compute in Hw, Hw'. injection Hw as <-. injection Hw' as <-.
  exists row. split; [exact Hrow|]. split; [exact Hs|exact Hi].
Defined.

Lemma parse_xyz_scalar_properties_witness :
  ∃ row x,
    parse_xyz (B := plain_builtins) (T := table_toolkit) methane_xyz
      MAX_RING_SIZE (Some ()) "np" = Ok row
    ∧ row !! "A" = Some (VFloat x)
    ∧ row !! "cv" = Some (VFloat 6.469).
Proof.
  destruct (is_Ok_true (parse_xyz (B := plain_builtins) (T := table_toolkit)
                          methane_xyz MAX_RING_SIZE (Some ()) "np"))
    as [row Hrow]; [vm_compute; reflexivity|].
  destruct (parse_xyz_scalar_properties (B := plain_builtins)
              (T := table_toolkit) methane_xyz MAX_RING_SIZE (Some ()) "np"
              row Hrow) as (ps & Hps & Hlabels).
  vm_compute in Hps. injection Hps as <-.
  eexists row, _. split; [exact Hrow|]. split.
  - exact (Hlabels 0%nat "A" eq_refl).
  - exact (Hlabels 14%nat "cv" eq_refl).
Defined.

Lemma parse_xyz_descriptors_witness :
  ∃ row canonical_smiles,
    parse_xyz (B := plain_builtins) (T := table_toolkit) methane_xyz
      MAX_RING_SIZE (Some ()) "np" = Ok row
    ∧ row !! "canonical_smiles" = Some (VStr canonical_smiles)
    ∧ row !! "logP" = Some (VFloat 0.5)
    ∧ row !! "qed" = Some (VFloat 0.25)
    ∧ row !! "sa_score" = Some (VFloat 2)
    ∧ row !! "np_score" = Some (VFloat 1).
Proof.
  destruct (is_Ok_true (parse_xyz (B := plain_builtins) (T := table_toolkit)
                          methane_xyz MAX_RING_SIZE (Some ()) "np"))
    as [row Hrow]; [vm_compute; reflexivity|].
  destruct (parse_xyz_descriptors (B := plain_builtins)
              (T := table_toolkit) methane_xyz MAX_RING_SIZE (Some ()) "np"
              row Hrow)
    as (smi & cs & m & logP & q & sa & _ & _ & Hcs & _ & HlogP & HrlogP
        & Hq & Hrq & Hsa & Hrsa & Hnp & _).
  destruct (Hnp () eq_refl) as (x & Hx & Hrx).
  simpl in HlogP, Hq, Hsa, Hx.
  injection HlogP as <-. injection Hq as <-. injection Hsa as <-.
  injection Hx as <-.
  exists row, cs. repeat split; assumption.
Defined.

Lemma parse_xyz_row_keys_witness :
  ∃ row,
    parse_xyz (B := plain_builtins) (T := table_toolkit) methane_xyz
      MAX_RING_SIZE (Some ()) "np" = Ok row
    ∧ is_Some (row !! "inchi") ∧ is_Some (row !! "np_score").
Proof.
  destruct (is_Ok_true (parse_xyz (B := plain_builtins) (T := table_toolkit)
                          methane_xyz MAX_RING_SIZE (Some ()) "np"))
    as [row Hrow]; [vm_compute; reflexivity|].
  destruct (parse_xyz_row_keys (B := plain_builtins) (T := table_toolkit)
              methane_xyz MAX_RING_SIZE (Some ()) "np" row Hrow)
    as (Hkeys & Hnp & _).
  exists row. split; [exact Hrow|]. split.
  - apply Hkeys. apply elem_of_app. left. unfold row_keys. in_list.
  - apply Hnp. by eexists.
Defined.

(** ** Exceptions, and the parsing loop *)

Section more_errors.
Context {B : Builtins} {T : Toolkit} {F : Files}.

Lemma bind_Raise {A C} (m : result A) (f : A → result C) (e : exn) :
  m ≫= f = Raise e ↔ m = Raise e ∨ ∃ a, m = Ok a ∧ f a = Raise e.
Proof.
  destruct m as [a|e']; simpl; split.
  - intros. right. by exists a.
  - intros [?|(? & [= <-] & ?)]; done.
  - intros [= ->]. by left.
  - intros [[= ->]|(? & ? & _)]; done.
Qed.

Lemma or_raise_Raise {A} (o : option A) (e e' : exn) :
  or_raise o e = Raise e' → e' = e ∧ o = None.
Proof. destruct o; [done|by intros [= ->]]. Qed.

Lemma parse_float_raises (s : string) (e : exn) :
  parse_float s = Raise e → e = ValueError ∨ e = OverflowError.
Proof.
  unfold parse_float. destruct (py_float s); [done|].
  destruct (split_on "*^" s) as [|base [|power [|]]];
    try (intros [= <-]; by left).
  intros [Hb|(b & _ & [Hp|(p & _ & [Ht|(t & _ & [=])]%bind_Raise)]%bind_Raise)]
    %bind_Raise.
  - apply or_raise_Raise in Hb as [-> _]. by left.
  - apply or_raise_Raise in Hp as [-> _]. by left.
  - apply or_raise_Raise in Ht as [-> _]. by right.
Qed.

Lemma comprehension_raises {A C} (f : A → result C) (P : exn → Prop)
    (l : list A) (e : exn) :
  (∀ a e, f a = Raise e → P e) → comprehension f l = Raise e → P e.
Proof.
  intros Hf. induction l as [|a l IH]; simpl; [done|].
  intros [Ha|(b & _ & [Hl|(bs & _ & [=])]%bind_Raise)]%bind_Raise.
  - by eapply Hf.
  - by apply IH.
Qed.

Lemma comprehension_floats_raise (l : list string) (w : string) :
  w ∈ l → py_float w = None →
  comprehension float_or_ValueError l = Raise ValueError.
Proof.
  intros Hin Hw. induction l as [|a l IH]; [by apply elem_of_nil in Hin|].
  assert (float_or_ValueError w = Raise ValueError) as Hraise
    by (unfold float_or_ValueError; by rewrite Hw).
  cbn [comprehension]. apply elem_of_cons in Hin as [->|Hin].
  - by rewrite Hraise.
  - destruct (float_or_ValueError a) as [x|e] eqn:Ha; simpl.
    + by rewrite IH.
    + by apply or_raise_Raise in Ha as [-> _].
Qed.

Lemma read_line_raises (i : Z) (line : string) (st : xyz_fields) (e : exn) :
  read_line i line st = Raise e →
  e ∈ [ValueError; OverflowError; IndexError].
Proof.
  assert (∀ l e, comprehension float_or_ValueError l = Raise e
                 → e = ValueError) as Hfloats.
  { intros l e'. apply (comprehension_raises _ (λ e, e = ValueError)).
    intros a e'' Ha. by apply or_raise_Raise in Ha as [-> _]. }
  unfold read_line.
  repeat match goal with
  | |- (if ?b then _ else _) = _ → _ => destruct b
  end.
  - intros [[-> _]%or_raise_Raise|(? & _ & [=])]%bind_Raise. in_list.
  - intros [->%Hfloats|(? & _ & [=])]%bind_Raise. in_list.
  - destruct (split_ws line) as [|a [|x [|y [|z [|c [|]]]]]];
      try (intros [= <-]; in_list).
    intros Hraise.
    repeat (apply bind_Raise in Hraise
              as [Hraise|(? & _ & Hraise)];
            [apply parse_float_raises in Hraise as [->| ->]; in_list|]).
    done.
  - intros [->%Hfloats|(? & _ & [=])]%bind_Raise. in_list.
  - intros [[-> _]%or_raise_Raise|(? & _ & [=])]%bind_Raise. in_list.
  - intros [[-> _]%or_raise_Raise|(? & _ & [=])]%bind_Raise. in_list.
  - done.
Qed.

Lemma read_lines_raises (lines : list string) (i : Z) (st : xyz_fields)
    (e : exn) :
  read_lines i lines st = Raise e →
  e ∈ [ValueError; OverflowError; IndexError].
Proof.
  revert i st. induction lines as [|line lines IH]; intros i st; simpl;
    [done|].
  intros [Hline|(st1 & _ & Hrest)]%bind_Raise.
  - by eapply read_line_raises.
  - by eapply IH.
Qed.

(** The toolkit calls after the file is read: an exception there is the
    exception of one of them. *)
Lemma row_raises (st : xyz_fields) (max_ring_size : Z)
    (npscorer_model : option NPModel) (e : exn) :
  (canonical_smiles ← CanonSmiles (smiles st);
   m ← or_raise (MolFromSmiles canonical_smiles) ToolkitError;
   logP ← MolLogP m;
   q ← qed m;
   result ← match npscorer_model with
            | Some model =>
                np ← scoreMol m model;
                Ok (<["np_score" := VFloat np]>
                      (<["qed" := VFloat q]> (<["logP" := VFloat logP]>
                         (<["canonical_smiles" := VStr canonical_smiles]>
                            (base_row np_array st)))))
            | None =>
                Ok (<["qed" := VFloat q]> (<["logP" := VFloat logP]>
                      (<["canonical_smiles" := VStr canonical_smiles]>
                         (base_row np_array st))))
            end;
   sa ← calculateScore m;
   Ok (dict_update (<["sa_score" := VFloat sa]> result)
         (VInt <$> count_rings_and_bonds m max_ring_size))) = Raise e →
  toolkit_raises (smiles st) npscorer_model e.
Proof.
  unfold toolkit_raises.
  intros [Hcs|(cs & Hcs & Hrest)]%bind_Raise; [by left|].
  right. exists cs. split; [done|].
  apply bind_Raise in Hrest as [Hm|(m & Hm%or_raise_Ok & Hrest)].
  { left. apply or_raise_Raise in Hm as [-> Hm]. done. }
  right. exists m. split; [done|].
  apply bind_Raise in Hrest as [HlogP|(logP & _ & Hrest)]; [by left|].
  apply bind_Raise in Hrest as [Hq|(q & _ & Hrest)]; [by right; left|].
  apply bind_Raise in Hrest as [Hnp|(result & _ & Hrest)].
  { destruct npscorer_model as [model|]; [|done].
    apply bind_Raise in Hnp as [Hnp|(? & _ & [=])].
    right; right; left. by exists model. }
  apply bind_Raise in Hrest as [Hsa|(sa & _ & [=])].
  by right; right; right.
Qed.

(** Property X15. [parse_float] raises nothing but [ValueError] and
    [OverflowError]; the reading loop, on the lines it is given, raises
    nothing but these and [IndexError]; and an exception of [parse_xyz] is
    one of these: the [AssertionError] of a format that is not accepted; the
    exception that [open] raises; an exception of the reading loop on a line
    yielded; the exception that ends the iteration over the file, after the
    lines yielded were read; the [NameError] of ['pt'], after the whole file
    was read; or, with ['np'] and the whole file read, the exception of one
    of the toolkit calls. *)
Theorem read_error_classes :
  (∀ s e, parse_float s = Raise e → e ∈ [ValueError; OverflowError])
  ∧ (∀ i lines st e,
       read_lines i lines st = Raise e →
       e ∈ [ValueError; OverflowError; IndexError])
  ∧ (∀ filename max_ring_size npscorer_model array_format e,
       parse_xyz_file filename max_ring_size npscorer_model array_format
       = Raise e →
       e = AssertionError ∧ (array_format ∉ ["np"; "pt"])
       ∨ array_format ∈ ["np"; "pt"]
         ∧ (open_text filename = Raise e
            ∨ ∃ f,
                open_text filename = Ok f
                ∧ (read_lines 0 (stream_lines f) xyz_fields_init = Raise e
                   ∧ e ∈ [ValueError; OverflowError; IndexError]
                   ∨ ∃ st,
                       read_lines 0 (stream_lines f) xyz_fields_init = Ok st
                       ∧ (stream_error f = Some e
                          ∨ stream_error f = None
                            ∧ (array_format = "pt" ∧ e = NameError
                               ∨ array_format = "np"
                                 ∧ toolkit_raises (smiles st)
                                     npscorer_model e))))).
Proof.
  split; [|split].
  - intros s e [->| ->]%parse_float_raises; in_list.
  - intros i lines st e. apply read_lines_raises.
  - intros filename max_ring_size npscorer_model array_format e.
    unfold parse_xyz_file.
    intros [Hfmt|(u & Hfmt & Hrest)]%bind_Raise;
      unfold assert_array_format in Hfmt; case_bool_decide as Hin;
      try done.
    { injection Hfmt as <-. by left. }
    right. split; [done|].
    apply bind_Raise in Hrest as [Hopen|(f & Hopen & Hrest)]; [by left|].
    right. exists f. split; [done|]. unfold read_stream in Hrest.
    destruct (read_lines 0 (stream_lines f) xyz_fields_init) as [st|e']
      eqn:Hread; simpl in Hrest.
    + right. exists st. split; [done|].
      destruct (stream_error f) as [e'|]; simpl in Hrest.
      { injection Hrest as ->. by left. }
      right. split; [done|]. unfold array_wrap_of in Hrest.
      destruct (String.eqb_spec array_format "np") as [->|Hnp];
        simpl in Hrest.
      * right. split; [done|]. by eapply row_raises.
      * injection Hrest as <-. left. split; [|done].
        apply elem_of_cons in Hin as [->|Hin]; [done|].
        apply elem_of_cons in Hin as [->|Hin]; [done|].
        by apply elem_of_nil in Hin.
    + injection Hrest as ->. left. split; [done|].
      by eapply read_lines_raises.
Qed.

(** Property X16. The order of the checks in [parse_xyz]: a format
    other than ['np'] and ['pt'] raises [AssertionError] whatever the file
    holds; with a valid format, an exception of the reading loop is the
    exception of [parse_xyz], also for ['pt'], whose [NameError] comes only
    after the file is read; and an exception of the toolkit on the SMILES read
    is passed on. *)
Theorem parse_xyz_error_order (max_ring_size : Z)
    (npscorer_model : option NPModel) (array_format : string) :
  (∀ lines,
     array_format ∉ ["np"; "pt"] →
     parse_xyz lines max_ring_size npscorer_model array_format
     = Raise AssertionError)
  ∧ (∀ lines e,
       array_format ∈ ["np"; "pt"] →
       read_lines 0 lines xyz_fields_init = Raise e →
       parse_xyz lines max_ring_size npscorer_model array_format = Raise e)
  ∧ (∀ lines st e,
       read_lines 0 lines xyz_fields_init = Ok st →
       CanonSmiles (smiles st) = Raise e →
       parse_xyz lines max_ring_size npscorer_model "np" = Raise e).
Proof.
  split; [|split].
  - intros lines Hfmt. unfold parse_xyz, assert_array_format.
    by rewrite bool_decide_eq_false_2.
  - intros lines e Hfmt Hread. unfold parse_xyz, assert_array_format.
    rewrite bool_decide_eq_true_2 by done. simpl. by rewrite Hread.
  - intros lines st e Hread Hcs. unfold parse_xyz. simpl.
    rewrite Hread. simpl. by rewrite Hcs.
Qed.

Lemma parse_xyz_line_raises (before after : list string) (line : string)
    (st : xyz_fields) (e : exn) (max_ring_size : Z)
    (npscorer_model : option NPModel) (array_format : string) :
  array_format ∈ ["np"; "pt"] →
  read_lines 0 before xyz_fields_init = Ok st →
  read_line (Z.of_nat (length before)) line st = Raise e →
  parse_xyz (before ++ line :: after) max_ring_size npscorer_model
    array_format = Raise e.
Proof.
  intros Hfmt Hbefore Hline. unfold parse_xyz, assert_array_format.
  rewrite bool_decide_eq_true_2 by done. simpl.
  rewrite read_lines_app, Hbefore. simpl. rewrite Z.add_0_l.
  by rewrite Hline.
Qed.

(** Property X17. When the lines before it are read and the atom count
    is not negative, a blank SMILES or InChI line makes [parse_xyz] raise
    [IndexError], and a field that is no float among the scalar properties of
    line 1 or on the frequency line makes it raise [ValueError]. *)
Theorem parse_xyz_trailing_line_errors (max_ring_size : Z)
    (npscorer_model : option NPModel) (array_format : string)
    (before after : list string) (line : string) (st : xyz_fields) :
  array_format ∈ ["np"; "pt"] →
  read_lines 0 before xyz_fields_init = Ok st →
  0 ≤ num_atoms st →
  (Z.of_nat (length before) = num_atoms st + 3
   ∨ Z.of_nat (length before) = num_atoms st + 4 →
   split_ws line = [] →
   parse_xyz (before ++ line :: after) max_ring_size npscorer_model
     array_format = Raise IndexError)
  ∧ (∀ w,
       Z.of_nat (length before) = 1 ∧ w ∈ drop 2 (split_ws line)
       ∨ Z.of_nat (length before) = num_atoms st + 2 ∧ w ∈ split_ws line →
       py_float w = None →
       parse_xyz (before ++ line :: after) max_ring_size npscorer_model
         array_format = Raise ValueError).
Proof.
  intros Hfmt Hbefore Hn. split.
  - intros Hlen Hline. apply (parse_xyz_line_raises _ _ _ st); [done..|].
    unfold read_line.
    destruct (Z.eqb_spec (Z.of_nat (length before)) 0); [lia|].
    destruct (Z.eqb_spec (Z.of_nat (length before)) 1); [lia|].
    destruct (Z.leb_spec (Z.of_nat (length before)) (1 + num_atoms st));
      [lia|].
    rewrite andb_false_r.
    destruct (Z.eqb_spec (Z.of_nat (length before)) (num_atoms st + 2));
      [lia|].
    destruct (Z.eqb_spec (Z.of_nat (length before)) (num_atoms st + 3));
      [by rewrite Hline|].
    destruct (Z.eqb_spec (Z.of_nat (length before)) (num_atoms st + 4));
      [by rewrite Hline|lia].
  - intros w Hw Hfloat. apply (parse_xyz_line_raises _ _ _ st); [done..|].
    unfold read_line.
    destruct (Z.eqb_spec (Z.of_nat (length before)) 0); [lia|].
    destruct (Z.eqb_spec (Z.of_nat (length before)) 1) as [Heq|Hne].
    { destruct Hw as [[_ Hw]|[? _]]; [|lia].
      by rewrite (comprehension_floats_raise _ w). }
    destruct Hw as [[? _]|[Hlen Hw]]; [lia|].
    destruct (Z.leb_spec (Z.of_nat (length before)) (1 + num_atoms st));
      [lia|].
    rewrite andb_false_r.
    destruct (Z.eqb_spec (Z.of_nat (length before)) (num_atoms st + 2));
      [|lia].
    by rewrite (comprehension_floats_raise _ w).
Qed.

Lemma parsing_loop_acc (files : list (list string))
    (parsed_xyz : list (gmap string Value)) :
  parsing_loop files parsed_xyz
  = (parsed_xyz ++ (parsing_loop files []).1, (parsing_loop files []).2).
Proof.
  revert parsed_xyz. induction files as [|file files IH]; intros parsed_xyz.
  - simpl. by rewrite app_nil_r.
  - simpl.
    destruct (parse_xyz file MAX_RING_SIZE (Some readNPModel) "np")
      as [row|e]; simpl.
    + rewrite (IH (parsed_xyz ++ [row])), (IH [row]). simpl.
      by rewrite <-app_assoc.
    + by rewrite app_nil_r.
Qed.

(** Property X18. The parsing loop appends to the list, in order, the
    rows of the files up to the first one on which [parse_xyz] raises; it ends
    without an exception when there is no such file, and otherwise with the
    exception of that file. *)
Theorem parsing_loop_rows (files : list (list string))
    (parsed_xyz : list (gmap string Value)) :
  ∃ rows stop,
    parsing_loop files parsed_xyz = (parsed_xyz ++ rows, stop)
    ∧ Forall2 (λ file row,
                 parse_xyz file MAX_RING_SIZE (Some readNPModel) "np"
                 = Ok row)
        (take (length rows) files) rows
    ∧ match stop with
      | None => length rows = length files
      | Some e =>
          ∃ file, files !! length rows = Some file
                  ∧ parse_xyz file MAX_RING_SIZE (Some readNPModel) "np"
                    = Raise e
      end.
Proof.
  rewrite parsing_loop_acc.
  exists (parsing_loop files []).1, (parsing_loop files []).2.
  split; [done|].
  induction files as [|file files IH]; simpl.
  - split; [constructor|done].
  - destruct (parse_xyz file MAX_RING_SIZE (Some readNPModel) "np")
      as [row|e] eqn:Hrow; simpl.
    + rewrite (parsing_loop_acc files [row]). simpl.
      destruct IH as [Hrows Hstop]. split; [by constructor|].
      destruct ((parsing_loop files []).2); [done|]. by rewrite Hstop.
    + split; [constructor|]. by exists file.
Qed.

Lemma parse_xyz_loop_row_shape (file : list string)
    (row : gmap string Value) :
  parse_xyz file MAX_RING_SIZE (Some readNPModel) "np" = Ok row →
  loop_row_shape row.
Proof.
  intros (st & cs & m & logP & q & np & sa & _ & _ & _ & _ & _ & Hnp & _
          & ->)%parse_xyz_Ok_toolkit.
  destruct Hnp as (x & _ & ->). split; [|split].
  - exists x. by rewrite assemble_np_score.
  - intros k Hk. exists (rings_of_size k (GetSymmSSSR m)).
    apply assemble_lookup_count. rewrite result_ring_key.
    by rewrite decide_True by (by left).
  - intros j Hj.
    destruct (result_count_keys m MAX_RING_SIZE j Hj) as [v Hv].
    exists v. by apply assemble_lookup_count.
Qed.

(** Property X19. Every row the parsing loop appends has [np_score], a
    bucket [R<k>] for every [k] from 3 to [MAX_RING_SIZE], and the five
    counts: the shape is an invariant of the list the loop builds. *)
Theorem parsing_loop_row_shape (files : list (list string))
    (parsed_xyz : list (gmap string Value)) :
  Forall loop_row_shape parsed_xyz →
  Forall loop_row_shape (parsing_loop files parsed_xyz).1.
Proof.
  revert parsed_xyz. induction files as [|file files IH];
    intros parsed_xyz Hacc; simpl; [done|].
  destruct (parse_xyz file MAX_RING_SIZE (Some readNPModel) "np")
    as [row|e] eqn:Hrow; simpl; [|done].
  apply IH. apply Forall_app. split; [done|].
  apply Forall_singleton. by eapply parse_xyz_loop_row_shape.
Qed.

End more_errors.

Lemma read_error_classes_witness :
  parse_float (B := plain_builtins) "1*^400" = Raise OverflowError
  ∧ OverflowError ∈ [ValueError; OverflowError]
  ∧ read_lines (B := plain_builtins) 0 methane_xyz_blank_smiles_line
      xyz_fields_init = Raise IndexError
  ∧ IndexError ∈ [ValueError; OverflowError; IndexError]
  ∧ parse_xyz_file (B := plain_builtins) (T := table_toolkit)
      (F := table_files) "no_such_file.xyz" MAX_RING_SIZE (Some ()) "pt"
    = Raise FileNotFoundError
  ∧ parse_xyz_file (B := plain_builtins) (T := table_toolkit)
      (F := table_files) "unknown_smiles.xyz" MAX_RING_SIZE (Some ()) "np"
    = Raise ToolkitError
  ∧ ∃ st,
      read_lines (B := plain_builtins) 0 methane_xyz_unknown_smiles
        xyz_fields_init = Ok st
      ∧ toolkit_raises (T := table_toolkit) (smiles st) (Some ())
          ToolkitError.
Proof.
  destruct (read_error_classes (B := plain_builtins) (T := table_toolkit)
              (F := table_files))
    as (Hfloat & Hread & Hparse).
  assert (parse_float (B := plain_builtins) "1*^400" = Raise OverflowError)
    as H1 by (apply raised_Some; vm_compute; reflexivity).
  assert (read_lines (B := plain_builtins) 0 methane_xyz_blank_smiles_line
            xyz_fields_init = Raise IndexError)
    as H2 by (apply raised_Some; vm_compute; reflexivity).
  assert (parse_xyz_file (B := plain_builtins) (T := table_toolkit)
            (F := table_files) "no_such_file.xyz" MAX_RING_SIZE (Some ())
            "pt" = Raise FileNotFoundError)
    as H3 by (apply raised_Some; vm_compute; reflexivity).
  assert (parse_xyz_file (B := plain_builtins) (T := table_toolkit)
            (F := table_files) "unknown_smiles.xyz" MAX_RING_SIZE (Some ())
            "np" = Raise ToolkitError)
    as H4 by (apply raised_Some; vm_compute; reflexivity).
  split; [exact H1|]. split; [exact (Hfloat _ _ H1)|].
  split; [exact H2|]. split; [exact (Hread _ _ _ _ H2)|].
  split; [exact H3|]. split; [exact H4|].
  destruct (Hparse _ _ _ _ _ H4) as [[[=] _]|[_ [[=]|Hfile]]].
  destruct Hfile as (f & [= <-] & [[Hline _]|(st & Hst & Hrest)]).
  { apply (f_equal raised) in Hline. vm_compute in Hline. discriminate. }
  exists st. split; [exact Hst|].
  destruct Hrest as [[=]|(_ & [[[=] _]|[_ Htk]])]. exact Htk.
Defined.

Lemma parse_xyz_error_order_witness :
  parse_xyz (B := plain_builtins) (T := table_toolkit)
    methane_xyz_short_atom_line MAX_RING_SIZE (Some ()) "tf"
  = Raise AssertionError
  ∧ parse_xyz (B := plain_builtins) (T := table_toolkit)
      methane_xyz_short_atom_line MAX_RING_SIZE (Some ()) "pt"
    = Raise ValueError
  ∧ parse_xyz (B := plain_builtins) (T := table_toolkit)
      methane_xyz_unknown_smiles MAX_RING_SIZE (Some ()) "np"
    = Raise ToolkitError.
Proof.
  split; [|split].
  - apply (proj1 (parse_xyz_error_order (B := plain_builtins)
                    (T := table_toolkit) MAX_RING_SIZE (Some ()) "tf")).
    intros Hin.
    repeat (apply elem_of_cons in Hin as [Hin|Hin]; [discriminate Hin|]).
    by apply elem_of_nil in Hin.
  - apply (proj1 (proj2 (parse_xyz_error_order (B := plain_builtins)
                           (T := table_toolkit) MAX_RING_SIZE (Some ())
                           "pt"))).
    + apply list_elem_of_further, list_elem_of_here.
    + apply raised_Some. vm_compute. reflexivity.
  - destruct (is_Ok_true (read_lines (B := plain_builtins) 0
                            methane_xyz_unknown_smiles xyz_fields_init))
      as [st Hst]; [vm_compute; reflexivity|].
    destruct (parse_xyz_error_order (B := plain_builtins)
                (T := table_toolkit) MAX_RING_SIZE (Some ()) "np")
      as (_ & _ & Hcanon).
    apply (Hcanon methane_xyz_unknown_smiles st ToolkitError Hst).
    apply raised_Some.
    change (raised (Ok st ≫= λ st, CanonSmiles (Toolkit := table_toolkit)
                                     (smiles st)) = Some ToolkitError).
    rewrite <-Hst. vm_compute. reflexivity.
Defined.

Lemma parse_xyz_trailing_line_errors_witness :
  parse_xyz (B := plain_builtins) (T := table_toolkit)
    methane_xyz_blank_smiles_line MAX_RING_SIZE (Some ()) "np"
  = Raise IndexError
  ∧ parse_xyz (B := plain_builtins) (T := table_toolkit)
      methane_xyz_bad_frequency MAX_RING_SIZE (Some ()) "np"
    = Raise ValueError.
Proof.
  split.
  - destruct (fmap_Ok num_atoms
                (read_lines (B := plain_builtins) 0 (take 8 methane_xyz)
                   xyz_fields_init) 5)
      as (st & Hst & Hn); [vm_compute; reflexivity|].
    destruct (parse_xyz_trailing_line_errors (B := plain_builtins)
                (T := table_toolkit) MAX_RING_SIZE (Some ()) "np"
                (take 8 methane_xyz) (drop 9 methane_xyz) "" st)
      as (Hblank & _).
    { apply list_elem_of_here. }
    { exact Hst. }
    { rewrite Hn. lia. }
    apply Hblank.
    + left. rewrite Hn. reflexivity.
    + reflexivity.
  - destruct (fmap_Ok num_atoms
                (read_lines (B := plain_builtins) 0 (take 7 methane_xyz)
                   xyz_fields_init) 5)
      as (st & Hst & Hn); [vm_compute; reflexivity|].
    destruct (parse_xyz_trailing_line_errors (B := plain_builtins)
                (T := table_toolkit) MAX_RING_SIZE (Some ()) "np"
                (take 7 methane_xyz) (drop 8 methane_xyz) "1341.307 n/a" st)
      as (_ & Hfloat).
    { apply list_elem_of_here. }
    { exact Hst. }
    { rewrite Hn. lia. }
    apply (Hfloat "n/a").
    + right. split; [rewrite Hn; reflexivity|].
      apply list_elem_of_further, list_elem_of_here.
    + vm_compute. reflexivity.
Defined.

Lemma parsing_loop_row_shape_witness :
  Forall loop_row_shape
    (parsing_loop (B := plain_builtins) (T := table_toolkit) ten_files []).1.
Proof.
  apply (parsing_loop_row_shape (B := plain_builtins) (T := table_toolkit)).
  constructor.
Defined.
